(** * jmap-mcp: the multi-account session and authentication layer

    A shallow embedding of the MCP server entry point ([parseAccounts],
    [getJMAPConfig], [createJAMClient], [createServer]) and of the tool
    handlers of [src/tools/email.ts] and [src/tools/submission.ts],
    followed by the properties the specification states about them.

    JavaScript strings are modelled by [string]; one [ascii] stands for one
    UTF-16 code unit in the range 0..255, the range on which [btoa] is
    defined. Code that returns or throws is a function into [result];
    the handlers, which talk to the mail server, run in a state monad
    over the server and the log of the method calls made. What the
    platform and the libraries provide ([new URL], [JSON.parse],
    [JSON.stringify], the protocol client, [formatError] of [utils.ts])
    enters as section variables. *)

From Stdlib Require Import ZArith Ascii String Lia.
From stdpp Require Import gmap strings list.

Local Open Scope Z_scope.

(** ** JavaScript values used by the code *)

(** What a [throw] carries: [new Error(msg)], or the [TypeError] the
    runtime raises on a property access on [undefined]. *)
Inductive JsError : Type :=
  | Error (message : string)
  | TypeError (message : string).

(** A computation that returns or throws. *)
Inductive result (A : Type) : Type :=
  | Ok (a : A)
  | Throw (e : JsError).
Arguments Ok {A} a.
Arguments Throw {A} e.

Definition bind {A B} (r : result A) (k : A → result B) : result B :=
  match r with
  | Ok a => k a
  | Throw e => Throw e
  end.

Notation "'let*' x := r 'in' k" := (bind r (fun x => k))
  (at level 10, x name, r at level 100, k at level 200).

(** [Array.prototype.map] with a callback that may throw: elements are
    visited in order and the first exception aborts the whole map. *)
Fixpoint mapM {A B} (f : A → result B) (l : list A) : result (list B) :=
  match l with
  | [] => Ok []
  | x :: l' =>
      let* y := f x in
      let* ys := mapM f l' in
      Ok (y :: ys)
  end.

(** ** String primitives *)

Module Js.

Definition dquote : ascii := ascii_of_nat 34.
Definition newline : ascii := ascii_of_nat 10.
Definition colon : ascii := ascii_of_nat 58.

(** The one-character string ["\n"]. *)
Definition LF : string := String newline EmptyString.

(** [`"${s}"`] *)
Definition quoted (s : string) : string :=
  String dquote (s +:+ String dquote EmptyString).

(** Truthiness of a string: every string but the empty one. *)
Definition truthy (s : string) : bool :=
  match s with
  | EmptyString => false
  | String _ _ => true
  end.

Fixpoint take (n : nat) (s : string) : string :=
  match n, s with
  | S n', String c s' => String c (take n' s')
  | _, _ => EmptyString
  end.

Fixpoint drop (n : nat) (s : string) : string :=
  match n, s with
  | S n', String _ s' => drop n' s'
  | _, _ => s
  end.

(** [s.startsWith(p)] *)
Fixpoint startsWith (s p : string) {struct p} : bool :=
  match p, s with
  | EmptyString, _ => true
  | String _ _, EmptyString => false
  | String b p', String a s' =>
      if Ascii.eqb a b then startsWith s' p' else false
  end.

(** [s.includes(p)] *)
Fixpoint includes (s p : string) : bool :=
  if startsWith s p then true
  else match s with
       | EmptyString => false
       | String _ s' => includes s' p
       end.

(** [s.indexOf(p)]: the position of the first occurrence, or -1. *)
Fixpoint indexOf (s p : string) : Z :=
  if startsWith s p then 0
  else match s with
       | EmptyString => -1
       | String _ s' =>
           let i := indexOf s' p in
           if i =? -1 then -1 else i + 1
       end.

(** [s.substring(start, end)]: both indices are clamped to
    [0 .. s.length] and swapped when out of order. *)
Definition substring (s : string) (start end_ : Z) : string :=
  let len := Z.of_nat (String.length s) in
  let a := Z.min (Z.max start 0) len in
  let b := Z.min (Z.max end_ 0) len in
  let from := Z.min a b in
  let to := Z.max a b in
  take (Z.to_nat (to - from)) (drop (Z.to_nat from) s).

(** [s.replace(p, r)] for a string pattern: only the first occurrence
    is replaced. The replacement strings of the code hold no [$]. *)
Fixpoint replace (s p r : string) : string :=
  if startsWith s p then r +:+ drop (String.length p) s
  else match s with
       | EmptyString => EmptyString
       | String c s' => String c (replace s' p r)
       end.

(** [s.split(sep)] for a one-character separator. *)
Fixpoint split (s : string) (sep : ascii) : list string :=
  match s with
  | EmptyString => [EmptyString]
  | String c s' =>
      if Ascii.eqb c sep then EmptyString :: split s' sep
      else match split s' sep with
           | [] => [String c EmptyString]
           | piece :: pieces => String c piece :: pieces
           end
  end.

(** [s.split(sep, limit)]: the pieces of the full split, cut to at most
    [limit] of them. *)
Definition split_limit (s : string) (sep : ascii) (limit : nat)
  : list string :=
  firstn limit (split s sep).

(** [l.join(sep)] *)
Fixpoint join (l : list string) (sep : string) : string :=
  match l with
  | [] => EmptyString
  | [x] => x
  | x :: l' => x +:+ sep +:+ join l' sep
  end.

(** WhiteSpace and LineTerminator code units below 256. *)
Definition isWhiteSpace (c : ascii) : bool :=
  match N_of_ascii c with
  | 9 | 10 | 11 | 12 | 13 | 32 | 160 => true
  | _ => false
  end%N.

Fixpoint trimStart (s : string) : string :=
  match s with
  | EmptyString => EmptyString
  | String c s' => if isWhiteSpace c then trimStart s' else s
  end.

Fixpoint trimEnd (s : string) : string :=
  match s with
  | EmptyString => EmptyString
  | String c s' =>
      match trimEnd s' with
      | EmptyString =>
          if isWhiteSpace c then EmptyString else String c EmptyString
      | t => String c t
      end
  end.

(** [s.trim()] *)
Definition trim (s : string) : string := trimEnd (trimStart s).

End Js.

(** Truthiness of an optional string argument. *)
Definition truthy_opt (s : option string) : bool :=
  match s with
  | Some s => Js.truthy s
  | None => false
  end.

(** ** Credential parser ([parseAccounts]) *)

Module AccountConfig.
Record t : Type := mk {
  name : string;
  bearerToken : string;
  accountId : option string
}.
End AccountConfig.

(** The process environment, [Deno.env]. *)
Abbreviation Env := (gmap string string).

Definition invalid_token_format (token : string) : string :=
  "invalid token format, expected " +:+ Js.quoted "username:password"
  +:+ ", got: " +:+ Js.substring token 0 20.

(** The callback of [tokens.map] in [parseAccounts]. *)
Definition parseToken (token : string) : result AccountConfig.t :=
  let colonIndex := Js.indexOf token ":" in
  if colonIndex =? -1 then Throw (Error (invalid_token_format token))
  else
    let name := Js.substring token 0 colonIndex in
    let bearerToken := token in
    if negb (Js.truthy name) then Throw (Error "account name cannot be empty")
    else Ok (AccountConfig.mk name bearerToken None).

(** [bearerTokens.split("\n").map((t) => t.trim()).filter(Boolean)] *)
Definition tokens_of (bearerTokens : string) : list string :=
  List.filter Js.truthy (Js.trim <$> Js.split bearerTokens Js.newline).

Definition parseAccounts (env : Env) : result (list AccountConfig.t) :=
  match env !! "JMAP_BEARER_TOKENS" with
  | Some (String _ _ as bearerTokens) =>
      let tokens := tokens_of bearerTokens in
      mapM parseToken tokens
  | _ =>
      match env !! "JMAP_BEARER_TOKEN" with
      | Some (String _ _ as bearerToken) =>
          let colonIndex := Js.indexOf bearerToken ":" in
          let name :=
            if negb (colonIndex =? -1)
            then Js.substring bearerToken 0 colonIndex
            else "default" in
          Ok [AccountConfig.mk name bearerToken None]
      | _ =>
          Throw (Error "missing required environment variables: JMAP_BEARER_TOKEN or JMAP_BEARER_TOKENS")
      end
  end.

(** ** Transport auth adapter ([createJAMClient]) *)

(** [btoa]: base64 with padding, over code units below 256. *)
Module Base64.

Definition alphabet : string :=
  "ABCDEFGHIJKLMNOPQRSTUVWXYZabcdefghijklmnopqrstuvwxyz0123456789+/".

Definition digit (n : N) : ascii :=
  match String.get (N.to_nat n) alphabet with
  | Some c => c
  | None => "="%char
  end.

Fixpoint encode (l : list N) : string :=
  match l with
  | [] => EmptyString
  | [a] =>
      String (digit (a / 4))
        (String (digit ((a mod 4) * 16)) "==")
  | [a; b] =>
      String (digit (a / 4))
        (String (digit ((a mod 4) * 16 + b / 16))
           (String (digit ((b mod 16) * 4)) "="))
  | a :: b :: c :: l' =>
      String (digit (a / 4))
        (String (digit ((a mod 4) * 16 + b / 16))
           (String (digit ((b mod 16) * 4 + c / 64))
              (String (digit (c mod 64)) (encode l'))))
  end%N.

Definition btoa (s : string) : string :=
  encode (N_of_ascii <$> list_ascii_of_string s).

End Base64.

(** The [Headers] class: a header list whose names are matched without
    regard to ASCII case; names are kept lower-cased. *)
Module Headers.

Definition t : Type := list (string * string).

Definition lower (c : ascii) : ascii :=
  let n := N_of_ascii c in
  if ((65 <=? n) && (n <=? 90))%N then ascii_of_N (n + 32) else c.

Fixpoint lowercase (s : string) : string :=
  match s with
  | EmptyString => EmptyString
  | String c s' => String (lower c) (lowercase s')
  end.

(** [new Headers(init)]; [undefined] gives the empty list. *)
Definition new (init : option (list (string * string))) : t :=
  match init with
  | None => []
  | Some l => (fun kv => (lowercase kv.1, kv.2)) <$> l
  end.

Definition has (h : t) (name : string) : bool :=
  existsb (fun kv => String.eqb kv.1 (lowercase name)) h.

(** [h.get(name)]: the values of that name joined by [", "], or null. *)
Definition get (h : t) (name : string) : option string :=
  match List.filter (fun kv => String.eqb kv.1 (lowercase name)) h with
  | [] => None
  | l => Some (Js.join (snd <$> l) ", ")
  end.

Fixpoint set_first (h : t) (n value : string) : t :=
  match h with
  | [] => []
  | kv :: h' =>
      if String.eqb kv.1 n
      then (n, value)
             :: List.filter (fun kv' => negb (String.eqb kv'.1 n)) h'
      else kv :: set_first h' n value
  end.

(** [h.set(name, value)]: the first header of that name takes the
    value and the others go; with none, the header is appended. *)
Definition set (h : t) (name value : string) : t :=
  if has h name then set_first h (lowercase name) value
  else h ++ [(lowercase name, value)].

End Headers.

Module RequestInit.
Record t : Type := mk {
  method : option string;
  headers : option (list (string * string));
  body : option string
}.
End RequestInit.

(** The first argument of [fetch]: [string | URL | Request]. *)
Inductive FetchInput : Type :=
  | InputString (s : string)
  | InputURL (href : string)
  | InputRequest (url : string).

Module Response.
Record t : Type := mk {
  status : Z;
  statusText : string;
  headers : Headers.t;
  body : string
}.
End Response.

(** A JSON value, as [response.json()] gives it. *)
#[warnings="-register-all"]
Inductive Json : Type :=
  | JNull
  | JBool (b : bool)
  | JNumber (n : Z)
  | JString (s : string)
  | JArray (l : list Json)
  | JObject (fields : list (string * Json)).

(** String-keyed collections that keep insertion order: a [Map], and the
    own properties of an object. [set] on a key already there changes its
    value in place; a new key goes to the end. *)
Module JsMap.

Definition t (V : Type) : Type := list (string * V).

Fixpoint get {V} (m : t V) (k : string) : option V :=
  match m with
  | [] => None
  | (k', v) :: m' => if String.eqb k' k then Some v else get m' k
  end.

Fixpoint set {V} (m : t V) (k : string) (v : V) : t V :=
  match m with
  | [] => [(k, v)]
  | (k', v') :: m' =>
      if String.eqb k' k then (k, v) :: m'
      else (k', v') :: set m' k v
  end.

Definition keys {V} (m : t V) : list string := fst <$> m.
Definition values {V} (m : t V) : list V := snd <$> m.

End JsMap.

(** A [fetch] function: the promise it returns resolves or rejects. *)
Definition Fetch : Type :=
  FetchInput → option RequestInit.t → result Response.t.

Module JMAPConfig.
Record t : Type := mk {
  sessionUrl : string;
  bearerToken : string;
  accountId : option string
}.
End JMAPConfig.

Module JamClient.
Record t : Type := mk {
  sessionUrl : string;
  bearerToken : string
}.
End JamClient.

(** The repair of a session's [apiUrl] inside the patched [fetch]: the
    guard [json.apiUrl && json.apiUrl.includes("http://") &&
    json.apiUrl.includes(":8080")], the rewritten URL, and the two
    together as a function of the URL. *)
Definition needsRepair (apiUrl : string) : bool :=
  Js.truthy apiUrl && Js.includes apiUrl "http://"
  && Js.includes apiUrl ":8080".

Definition rewriteApiUrl (apiUrl : string) : string :=
  Js.replace (Js.replace apiUrl "http://" "https://") ":8080" EmptyString.

Definition repairApiUrl (apiUrl : string) : string :=
  if needsRepair apiUrl then rewriteApiUrl apiUrl else apiUrl.

Definition nth_piece (l : list string) (i : nat) : string :=
  nth i l EmptyString.

Section Adapter.

(** Platform functions: [new URL(s).hostname], [JSON.parse] (which
    may throw) and [JSON.stringify]. *)
Variable hostname : string → string.
Variable JSON_parse : string → option Json.
Variable JSON_stringify : Json → string.

Definition url_of (input : FetchInput) : string :=
  match input with
  | InputString s => s
  | InputURL href => href
  | InputRequest url => url
  end.

(** The [try] block on a session response. A body that is not JSON,
    or whose [apiUrl] is absent, falsy or not a string, ends in
    [return response], through the [catch] or past the [if]. *)
Definition fixSessionResponse (response : Response.t) : Response.t :=
  match JSON_parse (Response.body response) with
  | Some (JObject json) =>
      match JsMap.get json "apiUrl" with
      | Some (JString apiUrl) =>
          if needsRepair apiUrl
          then
            let json' := JsMap.set json "apiUrl"
                           (JString (rewriteApiUrl apiUrl)) in
            Response.mk (Response.status response)
              (Response.statusText response)
              (Response.headers response)
              (JSON_stringify (JObject json'))
          else response
      | _ => response
      end
  | _ => response
  end.

(** The function [createJAMClient] installs as [globalThis.fetch]. *)
Definition patchedFetch (config : JMAPConfig.t) (username password : string)
    (originalFetch : Fetch) : Fetch :=
  fun input init =>
    let url := url_of input in
    if Js.includes url "jmap"
       || Js.includes url (hostname (JMAPConfig.sessionUrl config))
    then
      let headers := Headers.new (init ≫= RequestInit.headers) in
      let headers :=
        if Headers.has headers "Authorization"
        then
          let basicAuth := Base64.btoa (username +:+ ":" +:+ password) in
          Headers.set headers "Authorization" ("Basic " +:+ basicAuth)
        else headers in
      let* response :=
        originalFetch input
          (Some (RequestInit.mk (init ≫= RequestInit.method)
                   (Some headers) (init ≫= RequestInit.body))) in
      if Js.includes url "session" || Js.includes url ".well-known/jmap"
      then Ok (fixSessionResponse response)
      else Ok response
    else originalFetch input init.

(** [createJAMClient]: the client, and the new value of
    [globalThis.fetch]. *)
Definition createJAMClient (config : JMAPConfig.t) (globalFetch : Fetch)
  : JamClient.t * Fetch :=
  let hasBasicAuth := Js.includes (JMAPConfig.bearerToken config) ":" in
  if hasBasicAuth then
    let pieces := Js.split_limit (JMAPConfig.bearerToken config) Js.colon 2 in
    let username := nth_piece pieces 0 in
    let password := nth_piece pieces 1 in
    (JamClient.mk (JMAPConfig.sessionUrl config) password,
     patchedFetch config username password globalFetch)
  else
    (JamClient.mk (JMAPConfig.sessionUrl config)
       (JMAPConfig.bearerToken config),
     globalFetch).

End Adapter.

(** The client [createJAMClient] makes for a credential; the ambient
    [fetch] has no part in it. *)
Definition jamOf (sessionUrl : string) (accountConfig : AccountConfig.t)
  : JamClient.t :=
  let bearerToken := AccountConfig.bearerToken accountConfig in
  if Js.includes bearerToken ":"
  then JamClient.mk sessionUrl
         (nth_piece (Js.split_limit bearerToken Js.colon 2) 1)
  else JamClient.mk sessionUrl bearerToken.

(** ** Startup ([getJMAPConfig], [createServer]) *)

(** One entry of [session.accounts]. *)
Module Account.
Record t : Type := mk { isReadOnly : bool }.
End Account.

(** The session object of the protocol client: the keys of its
    [capabilities] object and its [accounts]. *)
Module Session.
Record t : Type := mk {
  capabilities : gset string;
  accounts : gmap string Account.t
}.
End Session.

Module AccountInfo.
Record t : Type := mk {
  name : string;
  jam : JamClient.t;
  accountId : string;
  isReadOnly : bool;
  hasSubmission : bool
}.
End AccountInfo.

Abbreviation AccountMap := (JsMap.t AccountInfo.t).

Definition mail_capability : string := "urn:ietf:params:jmap:mail".
Definition submission_capability : string := "urn:ietf:params:jmap:submission".

Definition no_mail_capability (name : string) : string :=
  "account " +:+ Js.quoted name
  +:+ " does not support jmap mail capabilities".

Module Config.
Record t : Type := mk {
  sessionUrl : string;
  accounts : list AccountConfig.t
}.
End Config.

Section Startup.

Variable hostname : string → string.
Variable JSON_parse : string → option Json.
Variable JSON_stringify : Json → string.

(** The [url()] check of the configuration schema; its failure throws
    [invalidUrl]. *)
Variable isUrl : string → bool.
Variable invalidUrl : JsError.

(** The protocol client library: [jam.getPrimaryAccount()] and
    [jam.session], which reach the server through the ambient
    [fetch]. *)
Variable getPrimaryAccount : JamClient.t → Fetch → result string.
Variable getSession : JamClient.t → Fetch → result Session.t.

Definition getJMAPConfig (env : Env) : result Config.t :=
  match env !! "JMAP_SESSION_URL" with
  | Some (String _ _ as sessionUrl) =>
      let* accounts := parseAccounts env in
      if isUrl sessionUrl then Ok (Config.mk sessionUrl accounts)
      else Throw invalidUrl
  | _ =>
      Throw (Error "missing required environment variable: JMAP_SESSION_URL")
  end.

(** One turn of the [for] loop of [createServer], on the registry and
    the ambient [fetch]. *)
Definition initAccount (sessionUrl : string)
    (state : AccountMap * Fetch) (accountConfig : AccountConfig.t)
  : result (AccountMap * Fetch) :=
  let '(accountMap, globalFetch) := state in
  let '(jam, globalFetch) :=
    createJAMClient hostname JSON_parse JSON_stringify
      (JMAPConfig.mk sessionUrl
         (AccountConfig.bearerToken accountConfig)
         (AccountConfig.accountId accountConfig))
      globalFetch in
  let* accountId :=
    match AccountConfig.accountId accountConfig with
    | Some (String _ _ as id) => Ok id
    | _ => getPrimaryAccount jam globalFetch
    end in
  let* session := getSession jam globalFetch in
  let account := Session.accounts session !! accountId in
  if negb (bool_decide (mail_capability ∈ Session.capabilities session))
  then Throw (Error (no_mail_capability (AccountConfig.name accountConfig)))
  else
    match account with
    | None =>
        Throw (TypeError "Cannot read properties of undefined (reading 'isReadOnly')")
    | Some account =>
        let hasSubmission :=
          bool_decide
            (submission_capability ∈ Session.capabilities session)
          && negb (Account.isReadOnly account) in
        Ok (JsMap.set accountMap (AccountConfig.name accountConfig)
              (AccountInfo.mk (AccountConfig.name accountConfig) jam
                 accountId (Account.isReadOnly account) hasSubmission),
            globalFetch)
    end.

Fixpoint initAccounts (sessionUrl : string) (state : AccountMap * Fetch)
    (accounts : list AccountConfig.t) : result (AccountMap * Fetch) :=
  match accounts with
  | [] => Ok state
  | accountConfig :: accounts' =>
      let* state' := initAccount sessionUrl state accountConfig in
      initAccounts sessionUrl state' accounts'
  end.

(** The value of [globalThis.fetch] once the adapters of [accounts] are
    installed over [globalFetch], in order: each turn of the loop calls
    [createJAMClient] on the [fetch] the turn before has left, so after
    the turns of [before ++ [accountConfig]] this is the [fetch] through
    which the account of [accountConfig] is read. *)
Definition fetchAfter (sessionUrl : string) (globalFetch : Fetch)
    (accounts : list AccountConfig.t) : Fetch :=
  foldl
    (fun fetch accountConfig =>
       (createJAMClient hostname JSON_parse JSON_stringify
          (JMAPConfig.mk sessionUrl
             (AccountConfig.bearerToken accountConfig)
             (AccountConfig.accountId accountConfig))
          fetch).2)
    globalFetch accounts.

(** What the registry records of an account is what the session says
    that its client reads through [fetch]. *)
Definition classified (fetch : Fetch) (info : AccountInfo.t) : Prop :=
  ∃ session account,
    getSession (AccountInfo.jam info) fetch = Ok session
    ∧ Session.accounts session !! AccountInfo.accountId info = Some account
    ∧ mail_capability ∈ Session.capabilities session
    ∧ AccountInfo.isReadOnly info = Account.isReadOnly account
    ∧ AccountInfo.hasSubmission info
      = bool_decide (submission_capability ∈ Session.capabilities session)
        && negb (Account.isReadOnly account).


End Startup.

(** ** Tool handlers ([src/tools/email.ts], [src/tools/submission.ts]) *)

(** The value a handler returns: [{ content: [{ type, text }] }]. *)
Module ToolResult.
Record item : Type := mkItem { type : string; text : string }.
Record t : Type := mk { content : list item }.
Definition ofText (s : string) : t := mk [mkItem "text" s].
End ToolResult.

Module Address.
Record t : Type := mk { name : option string; email : string }.
End Address.

Module BodyValue.
Record t : Type := mk {
  value : string;
  isTruncated : bool;
  isEncodingProblem : bool
}.
End BodyValue.

(** The [EmailCreate] objects the handlers build; an absent property is
    [None], and a keyword maps to a boolean or to [null]. *)
Module EmailCreate.
Record t : Type := mk {
  mailboxIds : option (gmap string bool);
  subject : option string;
  from : option (list Address.t);
  to : option (list Address.t);
  cc : option (list Address.t);
  bcc : option (list Address.t);
  keywords : option (gmap string (option bool));
  bodyValues : option (gmap string BodyValue.t);
  attachments : option (list Json);
  inReplyTo : option (list string);
  references : option (list string)
}.
End EmailCreate.

Module SubmissionCreate.
Record t : Type := mk {
  emailId : string;
  identityId : option string
}.
End SubmissionCreate.

(** The method calls the handlers make through [account.jam.api]. *)
Inductive ApiCall : Type :=
  | Identity_get (accountId : string) (ids : option (list string))
  | Mailbox_get (accountId : string) (filterRole : option string)
  | Email_get (accountId : string) (ids : list string)
      (properties : option (list string))
  | Email_set (accountId : string)
      (create update : option (gmap string EmailCreate.t))
      (destroy : option (list string))
  | EmailSubmission_set (accountId : string)
      (create : gmap string SubmissionCreate.t).

Module Identity.
Record t : Type := mk { id : string; name : string; email : string }.
End Identity.

Module Mailbox.
Record t : Type := mk { id : string }.
End Mailbox.

Module Email.
Record t : Type := mk {
  id : string;
  subject : option string;
  from : option (list Address.t);
  to : option (list Address.t);
  cc : option (list Address.t);
  replyTo : option (list Address.t);
  references : option (list string)
}.
End Email.

(** The first element of the tuple each call resolves to. Parts a
    handler only hands to [JSON.stringify] stay JSON values. *)
Module SetReply.
Record t : Type := mk {
  created : option (gmap string string);
  updated : option (gmap string Json);
  notUpdated : option (gmap string Json);
  destroyed : option Json;
  notDestroyed : option Json
}.
End SetReply.

Definition reply_of (c : ApiCall) : Type :=
  match c with
  | Identity_get _ _ => list Identity.t
  | Mailbox_get _ _ => list Mailbox.t
  | Email_get _ _ _ => list Email.t
  | Email_set _ _ _ _ => SetReply.t
  | EmailSubmission_set _ _ => SetReply.t
  end.

(** Truthiness of a JSON value. *)
Definition Json_truthy (j : Json) : bool :=
  match j with
  | JNull => false
  | JBool b => b
  | JNumber n => negb (n =? 0)
  | JString s => Js.truthy s
  | JArray _ | JObject _ => true
  end.

(** An object literal for [JSON.stringify], which leaves out the
    properties whose value is [undefined]. *)
Definition object (fields : list (string * option Json)) : Json :=
  JObject (omap (fun kv => pair kv.1 <$> kv.2) fields).

Definition gmap_json (m : gmap string Json) : Json :=
  JObject (map_to_list m).

Definition account_not_found (requestedAccount available : string) : string :=
  "account " +:+ Js.quoted requestedAccount
  +:+ " not found. available accounts: " +:+ available.

(** [getAccount], the same function in both files. *)
Definition getAccount (accountMap : AccountMap)
    (requestedAccount : option string) : result AccountInfo.t :=
  match requestedAccount with
  | Some (String _ _ as requestedAccount) =>
      match JsMap.get accountMap requestedAccount with
      | None =>
          let available := Js.join (JsMap.keys accountMap) ", " in
          Throw (Error (account_not_found requestedAccount available))
      | Some account => Ok account
      end
  | _ =>
      match JsMap.values accountMap with
      | [] => Throw (Error "no accounts configured")
      | firstAccount :: _ => Ok firstAccount
      end
  end.

Definition is_read_only (name : string) : string :=
  "account " +:+ Js.quoted name +:+ " is read-only".

Definition no_submission (name : string) : string :=
  "account " +:+ Js.quoted name +:+ " does not support email submission".

(** The validated arguments of the tools. *)
Module MarkEmailsArgs.
Record t : Type := mk {
  account : option string;
  ids : list string;
  seen : option bool;
  flagged : option bool
}.
End MarkEmailsArgs.

Module MoveEmailsArgs.
Record t : Type := mk {
  account : option string;
  ids : list string;
  mailboxId : string
}.
End MoveEmailsArgs.

Module DeleteEmailsArgs.
Record t : Type := mk {
  account : option string;
  ids : list string
}.
End DeleteEmailsArgs.

Module SendEmailArgs.
Record t : Type := mk {
  account : option string;
  to : list Address.t;
  cc : option (list Address.t);
  bcc : option (list Address.t);
  subject : string;
  textBody : option string;
  htmlBody : option string;
  identityId : option string
}.
End SendEmailArgs.

Module ReplyToEmailArgs.
Record t : Type := mk {
  account : option string;
  emailId : string;
  replyAll : bool;
  subject : option string;
  textBody : option string;
  htmlBody : option string;
  identityId : option string
}.
End ReplyToEmailArgs.

(** [CreateDraftSchema] has the shape of [SendEmailSchema]. *)
Module CreateDraftArgs := SendEmailArgs.

Module UpdateDraftArgs.
Record t : Type := mk {
  account : option string;
  draftId : string;
  to : option (list Address.t);
  cc : option (list Address.t);
  bcc : option (list Address.t);
  subject : option string;
  textBody : option string;
  htmlBody : option string
}.
End UpdateDraftArgs.

Module SendDraftArgs.
Record t : Type := mk {
  account : option string;
  draftId : string;
  identityId : option string
}.
End SendDraftArgs.

(** The tools that only read: each handler resolves the account first,
    inside its [try]. *)
Inductive ReadTool : Type :=
  | search_emails
  | get_mailboxes
  | get_emails
  | get_threads
  | get_identities
  | get_inbox_summary.

Definition read_error_prefix (tool : ReadTool) : string :=
  match tool with
  | search_emails => "Error searching emails: "
  | get_mailboxes => "Error getting mailboxes: "
  | get_emails => "Error getting emails: "
  | get_threads => "Error getting threads: "
  | get_identities => "Error getting identities: "
  | get_inbox_summary => "Error getting inbox summary: "
  end.

Section Tools.

(** The mail server behind the clients: each method call answers or
    throws, and may change the server's state. *)
Variable ServerState : Type.
Variable jmap :
  ∀ c : ApiCall, JamClient.t → ServerState →
    result (reply_of c) * ServerState.

(** [formatError] of [utils.ts], and [JSON.stringify(v, null, 2)]. *)
Variable formatError : JsError → string.
Variable JSON_stringify2 : Json → string.

(** What a handler acts on: the server, and the log of the method
    calls issued so far, the latest first. *)
Record World : Type := mkWorld {
  server : ServerState;
  calls : list (JamClient.t * ApiCall)
}.

Definition M (A : Type) : Type := World → result A * World.

Definition ret {A} (a : A) : M A := fun w => (Ok a, w).
Definition throw {A} (e : JsError) : M A := fun w => (Throw e, w).
Definition lift {A} (r : result A) : M A := fun w => (r, w).

Definition bindM {A B} (m : M A) (k : A → M B) : M B :=
  fun w =>
    match m w with
    | (Ok a, w') => k a w'
    | (Throw e, w') => (Throw e, w')
    end.

Notation "'let!' x := m 'in' k" := (bindM m (fun x => k))
  (at level 10, x name, m at level 100, k at level 200).

(** [await jam.api.X.method(args)] *)
Definition call (jam : JamClient.t) (c : ApiCall) : M (reply_of c) :=
  fun w =>
    let '(r, s) := jmap c jam (server w) in
    (r, mkWorld s ((jam, c) :: calls w)).

(** [try { ... } catch (error) { return ... }] *)
Definition catch {A} (m : M A) (handler : JsError → A)
  : World → A * World :=
  fun w =>
    match m w with
    | (Ok a, w') => (a, w')
    | (Throw e, w') => (handler e, w')
    end.

Definition when (b : bool) (m : M unit) : M unit :=
  if b then m else ret tt.

Definition failed (prefix : string) (e : JsError) : ToolResult.t :=
  ToolResult.ofText (prefix +:+ formatError e).

Definition stringified (fields : list (string * option Json))
  : ToolResult.t :=
  ToolResult.ofText (JSON_stringify2 (object fields)).

(** *** email.ts: the write tools *)

Definition mark_keywords (seen flagged : option bool)
  : gmap string (option bool) :=
  let keywords := ∅ in
  let keywords :=
    match seen with
    | Some b => <["$seen" := Some b]> keywords
    | None => keywords
    end in
  match flagged with
  | Some b => <["$flagged" := Some b]> keywords
  | None => keywords
  end.

Definition mark_updates (args : MarkEmailsArgs.t)
  : gmap string EmailCreate.t :=
  foldl
    (fun updates id =>
       let keywords :=
         mark_keywords (MarkEmailsArgs.seen args)
           (MarkEmailsArgs.flagged args) in
       <[id := EmailCreate.mk None None None None None None
                 (Some keywords) None None None None]> updates)
    ∅ (MarkEmailsArgs.ids args).

Definition mark_emails (accountMap : AccountMap) (args : MarkEmailsArgs.t)
  : World → ToolResult.t * World :=
  catch
    (let! account := lift (getAccount accountMap
                             (MarkEmailsArgs.account args)) in
     let! _ := when (AccountInfo.isReadOnly account)
            (throw (Error (is_read_only (AccountInfo.name account)))) in
     let updates := mark_updates args in
     let! result := call (AccountInfo.jam account)
                 (Email_set (AccountInfo.accountId account)
                    None (Some updates) None) in
     ret (stringified
            [("updated", gmap_json <$> SetReply.updated result);
             ("notUpdated", gmap_json <$> SetReply.notUpdated result)]))
    (failed "Error marking emails: ").

Definition move_updates (args : MoveEmailsArgs.t)
  : gmap string EmailCreate.t :=
  foldl
    (fun updates id =>
       <[id := EmailCreate.mk
                 (Some {[MoveEmailsArgs.mailboxId args := true]})
                 None None None None None None None None None None]>
         updates)
    ∅ (MoveEmailsArgs.ids args).

Definition move_emails (accountMap : AccountMap) (args : MoveEmailsArgs.t)
  : World → ToolResult.t * World :=
  catch
    (let! account := lift (getAccount accountMap
                             (MoveEmailsArgs.account args)) in
     let! _ := when (AccountInfo.isReadOnly account)
            (throw (Error (is_read_only (AccountInfo.name account)))) in
     let updates := move_updates args in
     let! result := call (AccountInfo.jam account)
                 (Email_set (AccountInfo.accountId account)
                    None (Some updates) None) in
     ret (stringified
            [("updated", gmap_json <$> SetReply.updated result);
             ("notUpdated", gmap_json <$> SetReply.notUpdated result)]))
    (failed "Error moving emails: ").

Definition delete_emails (accountMap : AccountMap)
    (args : DeleteEmailsArgs.t) : World → ToolResult.t * World :=
  catch
    (let! account := lift (getAccount accountMap
                        (DeleteEmailsArgs.account args)) in
     let! _ := when (AccountInfo.isReadOnly account)
            (throw (Error (is_read_only (AccountInfo.name account)))) in
     let! result := call (AccountInfo.jam account)
                 (Email_set (AccountInfo.accountId account)
                    None None (Some (DeleteEmailsArgs.ids args))) in
     ret (stringified
            [("destroyed", SetReply.destroyed result);
             ("notDestroyed", SetReply.notDestroyed result)]))
    (failed "Error deleting emails: ").

(** *** submission.ts *)

(** [{ ...(textBody && { text: ... }), ...(htmlBody && { html: ... }) }] *)
Definition bodyValues (textBody htmlBody : option string)
  : gmap string BodyValue.t :=
  let values := ∅ in
  let values :=
    match textBody with
    | Some (String _ _ as v) =>
        <["text" := BodyValue.mk v false false]> values
    | _ => values
    end in
  match htmlBody with
  | Some (String _ _ as v) => <["html" := BodyValue.mk v false false]> values
  | _ => values
  end.

(** The [from] address of the identity [identityId], when an
    identity is asked for and the server knows it. *)
Definition fromAddress (account : AccountInfo.t)
    (identityId : option string) : M (option (list Address.t)) :=
  match identityId with
  | Some (String _ _ as identityId) =>
      let! identityResult :=
        call (AccountInfo.jam account)
          (Identity_get (AccountInfo.accountId account)
             (Some [identityId])) in
      match identityResult return M (option (list Address.t)) with
      | found :: _ =>
          ret (Some [Address.mk (Some (Identity.name found))
                       (Identity.email found)])
      | [] => ret None
      end
  | _ => ret None
  end.

Definition draftsMailboxIds (mailboxResult : list Mailbox.t)
  : option (gmap string bool) :=
  match mailboxResult with
  | draftsMailbox :: _ => Some {[Mailbox.id draftsMailbox := true]}
  | [] => None
  end.

Definition draft_keywords : gmap string (option bool) :=
  {["$draft" := Some true]}.

Definition body_required (message : string) (textBody htmlBody : option string)
  : M unit :=
  when (negb (truthy_opt textBody) && negb (truthy_opt htmlBody))
    (throw (Error message)).

Definition send_email (accountMap : AccountMap) (args : SendEmailArgs.t)
  : World → ToolResult.t * World :=
  catch
    (let! account := lift (getAccount accountMap
                             (SendEmailArgs.account args)) in
     let! _ := when (negb (AccountInfo.hasSubmission account))
                 (throw (Error (no_submission (AccountInfo.name account)))) in
     let! _ := body_required "Either textBody or htmlBody must be provided"
                 (SendEmailArgs.textBody args)
                 (SendEmailArgs.htmlBody args) in
     let! fromAddress := fromAddress account (SendEmailArgs.identityId args) in
     let! mailboxResult :=
       call (AccountInfo.jam account)
         (Mailbox_get (AccountInfo.accountId account) (Some "drafts")) in
     let emailData :=
       EmailCreate.mk (draftsMailboxIds mailboxResult)
         (Some (SendEmailArgs.subject args))
         fromAddress
         (Some (SendEmailArgs.to args))
         (SendEmailArgs.cc args)
         (SendEmailArgs.bcc args)
         (Some draft_keywords)
         (Some (bodyValues (SendEmailArgs.textBody args)
                  (SendEmailArgs.htmlBody args)))
         (Some []) None None in
     let! emailResult :=
       call (AccountInfo.jam account)
         (Email_set (AccountInfo.accountId account)
            (Some {["draft1" := emailData]}) None None) in
     match SetReply.created emailResult ≫= (.!! "draft1") with
     | None => throw (Error "Failed to create email draft")
     | Some emailId =>
         let! submissionResult :=
           call (AccountInfo.jam account)
             (EmailSubmission_set (AccountInfo.accountId account)
                {["submission1" :=
                    SubmissionCreate.mk emailId
                      (SendEmailArgs.identityId args)]}) in
         let submission1 :=
           SetReply.created submissionResult ≫= (.!! "submission1") in
         ret (stringified
                [("emailId", Some (JString emailId));
                 ("submissionId", JString <$> submission1);
                 ("sent", Some (JBool (bool_decide (is_Some submission1))))])
     end)
    (failed "Error sending email: ").

Definition reply_subject (subject : option string) (original : Email.t)
  : string :=
  match subject with
  | Some (String _ _ as subject) => subject
  | _ =>
      match Email.subject original with
      | Some s => if Js.startsWith s "Re: " then s else "Re: " +:+ s
      | None => "Re: undefined"
      end
  end.

Definition reply_to (original : Email.t) : list Address.t :=
  let replyTo :=
    match Email.replyTo original with
    | Some (_ :: _ as replyTo) => Some replyTo
    | _ => Email.from original
    end in
  default [] replyTo.

Definition reply_cc (replyAll : bool) (original : Email.t)
  : list Address.t :=
  let finalCc := [] in
  if replyAll then
    let finalCc := finalCc ++ default [] (Email.to original) in
    finalCc ++ default [] (Email.cc original)
  else finalCc.

Definition reply_references (original : Email.t) : list string :=
  match Email.references original with
  | Some references => references ++ [Email.id original]
  | None => [Email.id original]
  end.

Definition reply_to_email (accountMap : AccountMap)
    (args : ReplyToEmailArgs.t) : World → ToolResult.t * World :=
  catch
    (let! account := lift (getAccount accountMap
                             (ReplyToEmailArgs.account args)) in
     let! _ := when (negb (AccountInfo.hasSubmission account))
                 (throw (Error (no_submission (AccountInfo.name account)))) in
     let! _ := body_required "Either textBody or htmlBody must be provided"
                 (ReplyToEmailArgs.textBody args)
                 (ReplyToEmailArgs.htmlBody args) in
     let! fromAddress :=
       fromAddress account (ReplyToEmailArgs.identityId args) in
     let! originalEmail :=
       call (AccountInfo.jam account)
         (Email_get (AccountInfo.accountId account)
            [ReplyToEmailArgs.emailId args]
            (Some ["id"; "subject"; "from"; "to"; "cc"; "replyTo";
                   "inReplyTo"; "references"])) in
     match originalEmail with
     | [] => throw (Error "Original email not found")
     | original :: _ =>
         let to := reply_to original in
         let finalCc := reply_cc (ReplyToEmailArgs.replyAll args) original in
         let replySubject :=
           reply_subject (ReplyToEmailArgs.subject args) original in
         let! mailboxResult :=
           call (AccountInfo.jam account)
             (Mailbox_get (AccountInfo.accountId account) (Some "drafts")) in
         let emailData :=
           EmailCreate.mk (draftsMailboxIds mailboxResult)
             (Some replySubject)
             fromAddress
             (Some to)
             (Some finalCc)
             None
             (Some draft_keywords)
             (Some (bodyValues (ReplyToEmailArgs.textBody args)
                      (ReplyToEmailArgs.htmlBody args)))
             (Some [])
             (Some [Email.id original])
             (Some (reply_references original)) in
         let! emailResult :=
           call (AccountInfo.jam account)
             (Email_set (AccountInfo.accountId account)
                (Some {["reply1" := emailData]}) None None) in
         match SetReply.created emailResult ≫= (.!! "reply1") with
         | None => throw (Error "Failed to create reply draft")
         | Some emailId =>
             let! submissionResult :=
               call (AccountInfo.jam account)
                 (EmailSubmission_set (AccountInfo.accountId account)
                    {["submission1" :=
                        SubmissionCreate.mk emailId
                          (ReplyToEmailArgs.identityId args)]}) in
             let submission1 :=
               SetReply.created submissionResult ≫= (.!! "submission1") in
             ret (stringified
                    [("emailId", Some (JString emailId));
                     ("submissionId", JString <$> submission1);
                     ("sent",
                      Some (JBool (bool_decide (is_Some submission1))));
                     ("replyAll",
                      Some (JBool (ReplyToEmailArgs.replyAll args)))])
         end
     end)
    (failed "Error replying to email: ").

Definition create_draft (accountMap : AccountMap) (args : CreateDraftArgs.t)
  : World → ToolResult.t * World :=
  catch
    (let! account := lift (getAccount accountMap
                             (CreateDraftArgs.account args)) in
     let! _ := when (AccountInfo.isReadOnly account)
                 (throw (Error (is_read_only (AccountInfo.name account)))) in
     let! _ := body_required "either textBody or htmlBody must be provided"
                 (CreateDraftArgs.textBody args)
                 (CreateDraftArgs.htmlBody args) in
     let! fromAddress :=
       fromAddress account (CreateDraftArgs.identityId args) in
     let! mailboxResult :=
       call (AccountInfo.jam account)
         (Mailbox_get (AccountInfo.accountId account) (Some "drafts")) in
     let emailData :=
       EmailCreate.mk (draftsMailboxIds mailboxResult)
         (Some (CreateDraftArgs.subject args))
         fromAddress
         (Some (CreateDraftArgs.to args))
         (CreateDraftArgs.cc args)
         (CreateDraftArgs.bcc args)
         (Some draft_keywords)
         (Some (bodyValues (CreateDraftArgs.textBody args)
                  (CreateDraftArgs.htmlBody args)))
         (Some []) None None in
     let! emailResult :=
       call (AccountInfo.jam account)
         (Email_set (AccountInfo.accountId account)
            (Some {["draft1" := emailData]}) None None) in
     match SetReply.created emailResult ≫= (.!! "draft1") with
     | None => throw (Error "failed to create draft")
     | Some draftId =>
         ret (stringified
                [("draftId", Some (JString draftId));
                 ("created", Some (JBool true))])
     end)
    (failed "error creating draft: ").

Definition draft_updates (args : UpdateDraftArgs.t) : EmailCreate.t :=
  EmailCreate.mk None
    (UpdateDraftArgs.subject args)
    None
    (UpdateDraftArgs.to args)
    (UpdateDraftArgs.cc args)
    (UpdateDraftArgs.bcc args)
    None
    (if truthy_opt (UpdateDraftArgs.textBody args)
        || truthy_opt (UpdateDraftArgs.htmlBody args)
     then Some (bodyValues (UpdateDraftArgs.textBody args)
                  (UpdateDraftArgs.htmlBody args))
     else None)
    None None None.

Definition update_draft (accountMap : AccountMap) (args : UpdateDraftArgs.t)
  : World → ToolResult.t * World :=
  catch
    (let! account := lift (getAccount accountMap
                             (UpdateDraftArgs.account args)) in
     let! _ := when (AccountInfo.isReadOnly account)
                 (throw (Error (is_read_only (AccountInfo.name account)))) in
     let updates := draft_updates args in
     let draftId := UpdateDraftArgs.draftId args in
     let! emailResult :=
       call (AccountInfo.jam account)
         (Email_set (AccountInfo.accountId account)
            None (Some {[draftId := updates]}) None) in
     let updated := SetReply.updated emailResult ≫= (.!! draftId) in
     ret (stringified
            [("draftId", Some (JString draftId));
             ("updated", Some (JBool (from_option Json_truthy false updated)));
             ("notUpdated",
              SetReply.notUpdated emailResult ≫= (.!! draftId))]))
    (failed "error updating draft: ").

Definition send_draft (accountMap : AccountMap) (args : SendDraftArgs.t)
  : World → ToolResult.t * World :=
  catch
    (let! account := lift (getAccount accountMap
                             (SendDraftArgs.account args)) in
     let! _ := when (negb (AccountInfo.hasSubmission account))
                 (throw (Error (no_submission (AccountInfo.name account)))) in
     let draftId := SendDraftArgs.draftId args in
     let! updateResult :=
       call (AccountInfo.jam account)
         (Email_set (AccountInfo.accountId account) None
            (Some {[draftId :=
                      EmailCreate.mk None None None None None None
                        (Some {["$draft" := None]}) None None None None]})
            None) in
     let updated := SetReply.updated updateResult ≫= (.!! draftId) in
     let! _ := when (negb (from_option Json_truthy false updated))
                 (throw (Error "failed to update draft status")) in
     let! submissionResult :=
       call (AccountInfo.jam account)
         (EmailSubmission_set (AccountInfo.accountId account)
            {["submission1" :=
                SubmissionCreate.mk draftId
                  (SendDraftArgs.identityId args)]}) in
     let submission1 :=
       SetReply.created submissionResult ≫= (.!! "submission1") in
     ret (stringified
            [("draftId", Some (JString draftId));
             ("submissionId", JString <$> submission1);
             ("sent", Some (JBool (bool_decide (is_Some submission1))))]))
    (failed "error sending draft: ").

(** *** email.ts: the read tools *)

(** The arguments of a read tool other than [account], and the rest of
    its [try] block once the account is resolved: the queries it makes
    and the result it shapes. *)
Variable ReadArgs : ReadTool → Type.
Variable read_body :
  ∀ tool : ReadTool, AccountInfo.t → ReadArgs tool → M ToolResult.t.

Definition read_tool (tool : ReadTool) (accountMap : AccountMap)
    (account : option string) (args : ReadArgs tool)
  : World → ToolResult.t * World :=
  catch
    (let! resolved := lift (getAccount accountMap account) in
     read_body tool resolved args)
    (failed (read_error_prefix tool)).

(** [list_accounts] *)
Definition list_accounts (accountMap : AccountMap) : ToolResult.t :=
  let accounts :=
    (fun a =>
       JObject [("name", JString (AccountInfo.name a));
                ("isReadOnly", JBool (AccountInfo.isReadOnly a));
                ("hasSubmission", JBool (AccountInfo.hasSubmission a))])
      <$> JsMap.values accountMap in
  stringified [("accounts", Some (JArray accounts))].

(** *** Calls to the tools that take an [account] *)

Inductive ToolCall : Type :=
  | call_read (tool : ReadTool) (account : option string)
      (args : ReadArgs tool)
  | call_mark_emails (args : MarkEmailsArgs.t)
  | call_move_emails (args : MoveEmailsArgs.t)
  | call_delete_emails (args : DeleteEmailsArgs.t)
  | call_send_email (args : SendEmailArgs.t)
  | call_reply_to_email (args : ReplyToEmailArgs.t)
  | call_create_draft (args : CreateDraftArgs.t)
  | call_update_draft (args : UpdateDraftArgs.t)
  | call_send_draft (args : SendDraftArgs.t).

Definition requestedAccount (c : ToolCall) : option string :=
  match c with
  | call_read _ account _ => account
  | call_mark_emails args => MarkEmailsArgs.account args
  | call_move_emails args => MoveEmailsArgs.account args
  | call_delete_emails args => DeleteEmailsArgs.account args
  | call_send_email args => SendEmailArgs.account args
  | call_reply_to_email args => ReplyToEmailArgs.account args
  | call_create_draft args => CreateDraftArgs.account args
  | call_update_draft args => UpdateDraftArgs.account args
  | call_send_draft args => SendDraftArgs.account args
  end.

Definition errorPrefix (c : ToolCall) : string :=
  match c with
  | call_read tool _ _ => read_error_prefix tool
  | call_mark_emails _ => "Error marking emails: "
  | call_move_emails _ => "Error moving emails: "
  | call_delete_emails _ => "Error deleting emails: "
  | call_send_email _ => "Error sending email: "
  | call_reply_to_email _ => "Error replying to email: "
  | call_create_draft _ => "error creating draft: "
  | call_update_draft _ => "error updating draft: "
  | call_send_draft _ => "error sending draft: "
  end.

Definition handle (accountMap : AccountMap) (c : ToolCall)
  : World → ToolResult.t * World :=
  match c with
  | call_read tool account args => read_tool tool accountMap account args
  | call_mark_emails args => mark_emails accountMap args
  | call_move_emails args => move_emails accountMap args
  | call_delete_emails args => delete_emails accountMap args
  | call_send_email args => send_email accountMap args
  | call_reply_to_email args => reply_to_email accountMap args
  | call_create_draft args => create_draft accountMap args
  | call_update_draft args => update_draft accountMap args
  | call_send_draft args => send_draft accountMap args
  end.

End Tools.

(** *** Registration of the tools *)

(** The server [createServer] returns: the registry its handlers close
    over, and the names of the tools registered, in order. *)
Module McpServer.
Record t : Type := mk {
  accountMap : AccountMap;
  tools : list string
}.
End McpServer.

Definition hasAnyWriteAccess (accountMap : AccountMap) : bool :=
  existsb (fun a => negb (AccountInfo.isReadOnly a)) (JsMap.values accountMap).

Definition hasAnySubmission (accountMap : AccountMap) : bool :=
  existsb AccountInfo.hasSubmission (JsMap.values accountMap).

Definition registerEmailTools (accountMap : AccountMap) : list string :=
  ["search_emails"; "get_mailboxes"; "get_emails"; "get_threads"]
  ++ (if hasAnyWriteAccess accountMap
      then ["mark_emails"; "move_emails"; "delete_emails"]
      else [])
  ++ ["get_identities"; "get_inbox_summary"; "list_accounts"].

Definition registerEmailSubmissionTools : list string :=
  ["send_email"; "reply_to_email"; "create_draft"; "update_draft";
   "send_draft"].

Section Server.

Variable hostname : string → string.
Variable JSON_parse : string → option Json.
Variable JSON_stringify : Json → string.
Variable isUrl : string → bool.
Variable invalidUrl : JsError.
Variable getPrimaryAccount : JamClient.t → Fetch → result string.
Variable getSession : JamClient.t → Fetch → result Session.t.

(** [createServer], on the environment and the ambient [fetch]. The
    instructions of the server read [firstAccount.name], which throws
    when no account is configured. *)
Definition createServer (env : Env) (globalFetch : Fetch)
  : result McpServer.t :=
  let* config := getJMAPConfig isUrl invalidUrl env in
  let* state :=
    initAccounts hostname JSON_parse JSON_stringify getPrimaryAccount
      getSession (Config.sessionUrl config) ([], globalFetch)
      (Config.accounts config) in
  let accountMap := state.1 in
  match JsMap.values accountMap with
  | [] =>
      Throw (TypeError "Cannot read properties of undefined (reading 'name')")
  | firstAccount :: _ =>
      let tools := registerEmailTools accountMap in
      let tools :=
        if hasAnySubmission accountMap
        then tools ++ registerEmailSubmissionTools
        else tools in
      Ok (McpServer.mk accountMap tools)
  end.

End Server.

(** A server and a configuration to run the startup on: the account of
    password ["pw1"] is read-write, every other account is read-only,
    and the server offers mail and submission. *)
Module Example.

Definition offline : Fetch := fun _ _ => Throw (Error "offline").
Definition hostname (url : string) : string := "mail.example.com".
Definition JSON_parse (body : string) : option Json := None.
Definition JSON_stringify (json : Json) : string := "{}".
Definition isUrl (s : string) : bool := true.
Definition invalidUrl : JsError := Error "Invalid url".

Definition getPrimaryAccount (jam : JamClient.t) (fetch : Fetch)
  : result string :=
  Ok "u1".

Definition getSession (jam : JamClient.t) (fetch : Fetch)
  : result Session.t :=
  Ok (Session.mk {[mail_capability; submission_capability]}
        {["u1" := Account.mk
                    (negb (String.eqb (JamClient.bearerToken jam) "pw1"))]}).


Definition sessionUrl : string := "https://mail.example.com/.well-known/jmap".

Definition env : Env :=
  {[ "JMAP_SESSION_URL" := sessionUrl;
     "JMAP_BEARER_TOKENS" := "alice:pw1" +:+ Js.LF +:+ "bob:pw2" ]}.

Definition alice : AccountInfo.t :=
  AccountInfo.mk "alice" (JamClient.mk sessionUrl "pw1") "u1" false true.
Definition bob : AccountInfo.t :=
  AccountInfo.mk "bob" (JamClient.mk sessionUrl "pw2") "u1" true false.

Definition accountMap : AccountMap := [("alice", alice); ("bob", bob)].

(** The mail server: it counts the calls it gets and answers each with
    an empty reply. *)
Definition jmap (c : ApiCall) (jam : JamClient.t) (served : nat)
  : result (reply_of c) * nat :=
  (match c return result (reply_of c) with
   | Identity_get _ _ => Ok []
   | Mailbox_get _ _ => Ok []
   | Email_get _ _ _ => Ok []
   | Email_set _ _ _ _ => Ok (SetReply.mk None None None None None)
   | EmailSubmission_set _ _ => Ok (SetReply.mk None None None None None)
   end,
   S served).

Definition formatError (e : JsError) : string :=
  match e with
  | Error message => message
  | TypeError message => message
  end.

Definition JSON_stringify2 (json : Json) : string := "{}".

Definition ReadArgs (tool : ReadTool) : Type := unit.

Definition read_body (tool : ReadTool) (account : AccountInfo.t)
    (args : ReadArgs tool) : M nat ToolResult.t :=
  ret nat (ToolResult.ofText "{}").

Definition world : World nat := mkWorld nat 0%nat [].

Definition no_flags (account : option string) : MarkEmailsArgs.t :=
  MarkEmailsArgs.mk account ["m1"; "m2"] None None.

Definition no_body (account : option string) : SendEmailArgs.t :=
  SendEmailArgs.mk account [Address.mk None "carol@example.com"] None None
    "hello" None None None.

End Example.

(** ** Further code of the same files *)

(** *** email.ts: [buildEmailFilter] *)

Module SearchEmailsArgs.
Record t : Type := mk {
  account : option string;
  query : option string;
  from : option string;
  to : option string;
  subject : option string;
  inMailbox : option string;
  hasKeyword : option string;
  notKeyword : option string;
  before : option string;
  after : option string;
  limit : Z;
  position : Z;
  allInThreadHaveKeyword : option string;
  someInThreadHaveKeyword : option string;
  body : option string;
  fetchDetails : bool
}.
End SearchEmailsArgs.

Module EmailFilterCondition.
Record t : Type := mk {
  text : option string;
  from : option string;
  to : option string;
  subject : option string;
  inMailbox : option string;
  hasKeyword : option string;
  notKeyword : option string;
  before : option string;
  after : option string;
  allInThreadHaveKeyword : option string;
  someInThreadHaveKeyword : option string;
  body : option string
}.

(** [Object.keys(filter)] *)
Definition keys (filter : t) : list string :=
  omap (fun kv => (fun _ : string => kv.1) <$> kv.2)
    [("text", text filter); ("from", from filter); ("to", to filter);
     ("subject", subject filter); ("inMailbox", inMailbox filter);
     ("hasKeyword", hasKeyword filter); ("notKeyword", notKeyword filter);
     ("before", before filter); ("after", after filter);
     ("allInThreadHaveKeyword", allInThreadHaveKeyword filter);
     ("someInThreadHaveKeyword", someInThreadHaveKeyword filter);
     ("body", body filter)].
End EmailFilterCondition.

(** [if (args.x) { filter.x = args.x; }] *)
Definition whenTruthy (value : option string) : option string :=
  match value with
  | Some (String _ _ as v) => Some v
  | _ => None
  end.

Definition buildEmailFilter (args : SearchEmailsArgs.t)
  : option EmailFilterCondition.t :=
  let filter :=
    EmailFilterCondition.mk
      (whenTruthy (SearchEmailsArgs.query args))
      (whenTruthy (SearchEmailsArgs.from args))
      (whenTruthy (SearchEmailsArgs.to args))
      (whenTruthy (SearchEmailsArgs.subject args))
      (whenTruthy (SearchEmailsArgs.inMailbox args))
      (whenTruthy (SearchEmailsArgs.hasKeyword args))
      (whenTruthy (SearchEmailsArgs.notKeyword args))
      (whenTruthy (SearchEmailsArgs.before args))
      (whenTruthy (SearchEmailsArgs.after args))
      (whenTruthy (SearchEmailsArgs.allInThreadHaveKeyword args))
      (whenTruthy (SearchEmailsArgs.someInThreadHaveKeyword args))
      (whenTruthy (SearchEmailsArgs.body args)) in
  if 0 <? Z.of_nat (length (EmailFilterCondition.keys filter))
  then Some filter
  else None.

(** *** What a tool asks of the account it resolves *)

(** The check each handler makes right after [getAccount]:
    [account.isReadOnly] throws for [Write], [!account.hasSubmission]
    throws for [Submission]; the read tools make none. *)
Inductive Permission : Type :=
  | Write
  | Submission.

Definition permission {ReadArgs : ReadTool → Type} (c : ToolCall ReadArgs)
  : option Permission :=
  match c with
  | call_read _ _ _ _ => None
  | call_mark_emails _ _ => Some Write
  | call_move_emails _ _ => Some Write
  | call_delete_emails _ _ => Some Write
  | call_create_draft _ _ => Some Write
  | call_update_draft _ _ => Some Write
  | call_send_email _ _ => Some Submission
  | call_reply_to_email _ _ => Some Submission
  | call_send_draft _ _ => Some Submission
  end.

(** The [accountId] argument of a method call. *)
Definition accountId_of (c : ApiCall) : string :=
  match c with
  | Identity_get accountId _ => accountId
  | Mailbox_get accountId _ => accountId
  | Email_get accountId _ _ => accountId
  | Email_set accountId _ _ _ => accountId
  | EmailSubmission_set accountId _ => accountId
  end.

(** The keys of a [Map] after [set(k, ...)]: a key already there keeps
    its place, a new one goes last. *)
Definition remember (seen : list string) (k : string) : list string :=
  if bool_decide (k ∈ seen) then seen else seen ++ [k].

(** A string of white space only. *)
Fixpoint allWhiteSpace (s : string) : bool :=
  match s with
  | EmptyString => true
  | String c s' => Js.isWhiteSpace c && allWhiteSpace s'
  end.

(** *** The command-line client ([jmapper.ts]) *)

Module Jmapper.

Definition tab : string := String (ascii_of_nat 9) EmptyString.

(** [s.padEnd(n)]: spaces are added up to the length [n]. *)
Fixpoint spaces (n : nat) : string :=
  match n with
  | O => EmptyString
  | S n' => String " " (spaces n')
  end.

Definition padEnd (s : string) (n : nat) : string :=
  s +:+ spaces (n - String.length s).

Module Account.
Record t : Type := mk { name : string; token : string }.
End Account.

Module Config.
Record t : Type := mk {
  sessionUrl : string;
  accounts : list Account.t
}.
End Config.

(** [getConfig] *)
Definition getConfig (env : Env) : result Config.t :=
  match env !! "JMAP_SESSION_URL" with
  | Some (String _ _ as sessionUrl) =>
      let tokens :=
        match env !! "JMAP_BEARER_TOKENS" with
        | Some (String _ _ as tokens) => Some tokens
        | _ => env !! "JMAP_BEARER_TOKEN"
        end in
      match tokens with
      | Some (String _ _ as tokens) =>
          let accounts :=
            (fun t =>
               let idx := Js.indexOf t ":" in
               Account.mk (Js.substring t 0 idx) t)
              <$> List.filter Js.truthy (Js.split tokens Js.newline) in
          Ok (Config.mk sessionUrl accounts)
      | _ => Throw (Error "JMAP_BEARER_TOKEN(S) not set")
      end
  | _ => Throw (Error "JMAP_SESSION_URL not set")
  end.

(** The account [createClient] works on: its statements up to
    [if (!acct) throw]. *)
Definition selectAccount (config : Config.t) (accountName : option string)
  : result Account.t :=
  let acct :=
    match accountName with
    | Some (String _ _ as accountName) =>
        match List.find (fun a => String.eqb (Account.name a) accountName)
                (Config.accounts config) with
        | Some a => Some a
        | None =>
            List.find (fun a => Js.startsWith (Account.name a) accountName)
              (Config.accounts config)
        end
    | _ => head (Config.accounts config)
    end in
  match acct with
  | Some acct => Ok acct
  | None =>
      Throw (Error ("Account not found: "
                    +:+ default "undefined" accountName))
  end.

Inductive Fmt : Type :=
  | human
  | compact
  | tsv.

(** An email as the listing commands fetch it. *)
Module Email.
Record t : Type := mk {
  id : string;
  from : option (list Address.t);
  subject : option string;
  receivedAt : option string;
  keywords : option (gmap string bool);
  preview : option string
}.
End Email.

(** [x || fallback] on an optional string. *)
Definition orElse (x : option string) (fallback : string) : string :=
  match x with
  | Some (String _ _ as v) => v
  | _ => fallback
  end.

Definition hasKeyword (e : Email.t) (keyword : string) : bool :=
  match Email.keywords e ≫= (.!! keyword) with
  | Some true => true
  | _ => false
  end.

(** [fmtEmail] *)
Definition fmtEmail (e : Email.t) (fmt : Fmt) : string :=
  let from :=
    Js.substring
      (orElse (Address.email <$> (Email.from e ≫= head)) "?") 0 40 in
  let subj := Js.substring (orElse (Email.subject e) "(no subject)") 0 60 in
  let date := Js.substring (orElse (Email.receivedAt e) EmptyString) 0 10 in
  let read := if hasKeyword e "$seen" then EmptyString else "*" in
  let flag := if hasKeyword e "$flagged" then "!" else EmptyString in
  let flags := padEnd (read +:+ flag) 2 in
  let id := Js.substring (Email.id e) 0 12 in
  match fmt with
  | tsv =>
      flags +:+ tab +:+ id +:+ tab +:+ date +:+ tab +:+ from +:+ tab
      +:+ subj
  | compact =>
      flags +:+ " " +:+ id +:+ " " +:+ date +:+ " " +:+ padEnd from 25
      +:+ " " +:+ subj
  | human =>
      flags +:+ " [" +:+ id +:+ "] " +:+ date +:+ Js.LF +:+ "   From: "
      +:+ from +:+ Js.LF +:+ "   Subj: " +:+ subj
  end.

(** [fmtPreview] *)
Definition fmtPreview (e : Email.t) : string :=
  let preview := Js.substring (orElse (Email.preview e) EmptyString) 0 100 in
  if Js.truthy preview then "   " +:+ preview +:+ "..." else EmptyString.

(** The options [main] reads off its arguments. *)
Module Options.
Record t : Type := mk {
  account : option string;
  fmt : Fmt;
  positional : list string
}.
End Options.

(** The [for] loop of [main] over [Deno.args]. *)
Fixpoint parseOptions (args : list string) (options : Options.t)
  : Options.t :=
  match args with
  | [] => options
  | arg :: rest =>
      let positional :=
        Options.mk (Options.account options) (Options.fmt options)
          (Options.positional options ++ [arg]) in
      if String.eqb arg "-a" then
        match rest with
        | (String _ _ as value) :: rest' =>
            parseOptions rest'
              (Options.mk (Some value) (Options.fmt options)
                 (Options.positional options))
        | _ => parseOptions rest positional
        end
      else if String.eqb arg "-c" then
        parseOptions rest
          (Options.mk (Options.account options) compact
             (Options.positional options))
      else if String.eqb arg "-t" || String.eqb arg "--tsv" then
        parseOptions rest
          (Options.mk (Options.account options) tsv
             (Options.positional options))
      else parseOptions rest positional
  end.

Definition noOptions : Options.t := Options.mk None human [].

End Jmapper.

(** A call of [EmailSubmission/set]. *)
Definition submits (c : ApiCall) : bool :=
  match c with
  | EmailSubmission_set _ _ => true
  | _ => false
  end.

(** Further inputs to run the code on, against the server of
    [Example]. *)
Module Sample.

Definition aliceConfig : AccountConfig.t :=
  AccountConfig.mk "alice" "alice:pw1" None.
Definition bobConfig : AccountConfig.t :=
  AccountConfig.mk "bob" "bob:pw2" None.

(** The server [createServer] gives on [Example.env]. *)
Definition server : McpServer.t :=
  McpServer.mk Example.accountMap
    (registerEmailTools Example.accountMap ++ registerEmailSubmissionTools).

(** A token variable of blanks and an empty line. *)
Definition blank_env : Env :=
  {[ "JMAP_SESSION_URL" := Example.sessionUrl;
     "JMAP_BEARER_TOKENS" := "  " +:+ Js.LF +:+ " " ]}.

(** A request of a protocol client to the API endpoint. *)
Definition apiRequest : FetchInput :=
  InputString "https://mail.example.com/jmap/api".

Definition apiInit : option RequestInit.t :=
  Some (RequestInit.mk (Some "POST")
          (Some [("Authorization", "Bearer pw2");
                 ("Content-Type", "application/json")])
          (Some "{}")).

Definition hello (account : option string) : SendEmailArgs.t :=
  SendEmailArgs.mk account [Address.mk None "carol@example.com"] None None
    "hello" (Some "Hello Carol") None None.

Definition original : Email.t :=
  Email.mk "m1" (Some "Lunch?") None None None None None.

Definition cliConfig : Jmapper.Config.t :=
  Jmapper.Config.mk Example.sessionUrl
    [Jmapper.Account.mk "alice" "alice:pw1";
     Jmapper.Account.mk "bob" "bob:pw2"].

End Sample.

(** A protocol client that reads over [fetch]: it asks the session URL
    with its bearer token; the words of the response body are the
    capabilities of the session, the primary account is ["u1"], and it
    is read-only when the response carries the header [x-read-only].
    And two mail servers to ask. *)
Module Online.

Definition sessionRequest (jam : JamClient.t) : option RequestInit.t :=
  Some (RequestInit.mk (Some "GET")
          (Some [("Authorization", "Bearer " +:+ JamClient.bearerToken jam)])
          None).

Definition getPrimaryAccount (jam : JamClient.t) (fetch : Fetch)
  : result string :=
  let* response :=
    fetch (InputString (JamClient.sessionUrl jam)) (sessionRequest jam) in
  Ok "u1".

Definition getSession (jam : JamClient.t) (fetch : Fetch)
  : result Session.t :=
  let* response :=
    fetch (InputString (JamClient.sessionUrl jam)) (sessionRequest jam) in
  Ok (Session.mk
        (list_to_set (Js.split (Response.body response) " "))
        {["u1" := Account.mk
                    (Headers.has (Response.headers response) "x-read-only")]}).

(** A server of read-only accounts that offers mail and submission. *)
Definition readOnlyServer : Fetch :=
  fun _ _ =>
    Ok (Response.mk 200 "OK" [("x-read-only", "1")]
          ("urn:ietf:params:jmap:core urn:ietf:params:jmap:mail "
           +:+ "urn:ietf:params:jmap:submission")).


Definition alice : AccountInfo.t :=
  AccountInfo.mk "alice" (JamClient.mk Example.sessionUrl "pw1") "u1"
    true false.
Definition bob : AccountInfo.t :=
  AccountInfo.mk "bob" (JamClient.mk Example.sessionUrl "pw2") "u1"
    true false.

(** The server [createServer] gives on [Example.env] with this client
    and [readOnlyServer]. *)
Definition server : McpServer.t :=
  McpServer.mk [("alice", alice); ("bob", bob)]
    (registerEmailTools [("alice", alice); ("bob", bob)]).

End Online.

(** * Properties *)

(** ** Strings *)

Section StringFacts.

Implicit Types (s t p r : string) (c a : ascii).

Lemma app_cons c s t : String c s +:+ t = String c (s +:+ t).
Proof. reflexivity. Qed.

Lemma app_empty_l s : EmptyString +:+ s = s.
Proof. reflexivity. Qed.

Lemma app_empty_r s : s +:+ EmptyString = s.
Proof. induction s as [|c s IH]; [done|]. by rewrite app_cons, IH. Qed.

Lemma app_assoc' s t r : (s +:+ t) +:+ r = s +:+ t +:+ r.
Proof. induction s as [|c s IH]; [done|]. by rewrite !app_cons, IH. Qed.

Lemma length_app s t :
  String.length (s +:+ t) = (String.length s + String.length t)%nat.
Proof. induction s as [|c s IH]; [done|]. rewrite app_cons. simpl. lia. Qed.

Lemma take_app s t : Js.take (String.length s) (s +:+ t) = s.
Proof.
  induction s as [|c s IH]; [by destruct t|].
  rewrite app_cons. simpl. by rewrite IH.
Qed.

Lemma take_all s n : (String.length s ≤ n)%nat → Js.take n s = s.
Proof.
  revert n.
  induction s as [|c s IH]; intros [|n] H; simpl in *; try done; try lia.
  rewrite IH; [done|lia].
Qed.

Lemma length_take s n :
  String.length (Js.take n s) = Nat.min n (String.length s).
Proof.
  revert n. induction s as [|c s IH]; intros [|n]; simpl; try done.
  by rewrite IH.
Qed.

Lemma drop_app s t : Js.drop (String.length s) (s +:+ t) = t.
Proof.
  induction s as [|c s IH]; [by destruct t|].
  rewrite app_cons. simpl. by rewrite IH.
Qed.

(** [substring(0, n)] keeps the first [n] code units. *)
Lemma substring_0 s (n : nat) : Js.substring s 0 (Z.of_nat n) = Js.take n s.
Proof.
  unfold Js.substring.
  destruct (decide (n ≤ String.length s)%nat) as [Hle|Hgt].
  - replace (Z.max 0 0 `min` Z.of_nat (String.length s)) with 0 by lia.
    replace (Z.max (Z.of_nat n) 0 `min` Z.of_nat (String.length s))
      with (Z.of_nat n) by lia.
    replace (0 `min` Z.of_nat n) with 0 by lia.
    replace (0 `max` Z.of_nat n - 0) with (Z.of_nat n) by lia.
    rewrite Nat2Z.id. simpl. by destruct s.
  - replace (Z.max 0 0 `min` Z.of_nat (String.length s)) with 0 by lia.
    replace (Z.max (Z.of_nat n) 0 `min` Z.of_nat (String.length s))
      with (Z.of_nat (String.length s)) by lia.
    replace (0 `min` Z.of_nat (String.length s)) with 0 by lia.
    replace (0 `max` Z.of_nat (String.length s) - 0)
      with (Z.of_nat (String.length s)) by lia.
    rewrite Nat2Z.id. simpl.
    replace (Js.drop 0 s) with s by (by destruct s).
    rewrite !take_all; [done|lia|lia].
Qed.

Lemma startsWith_app p s : Js.startsWith (p +:+ s) p = true.
Proof.
  induction p as [|c p IH]; [by destruct s|].
  rewrite app_cons. simpl. by rewrite Ascii.eqb_refl.
Qed.

Lemma includes_cons c s p :
  Js.includes (String c s) p = Js.startsWith (String c s) p || Js.includes s p.
Proof. simpl. by destruct (Js.startsWith (String c s) p). Qed.

(** Membership of one code unit. *)
Lemma includes_char_cons a c s :
  Js.includes (String a s) (String c EmptyString)
  = Ascii.eqb a c || Js.includes s (String c EmptyString).
Proof.
  rewrite includes_cons. simpl.
  destruct (Ascii.eqb a c); [|done]. by destruct s.
Qed.

Lemma includes_char_app c s t :
  Js.includes (s +:+ t) (String c EmptyString)
  = Js.includes s (String c EmptyString)
    || Js.includes t (String c EmptyString).
Proof.
  induction s as [|a s IH]; [done|].
  rewrite app_cons, !includes_char_cons, IH. by rewrite orb_assoc.
Qed.

(** An occurrence anywhere is found. *)
Lemma includes_app_r s t p :
  Js.includes t p = true → Js.includes (s +:+ t) p = true.
Proof.
  intros H. induction s as [|a s IH]; [done|].
  rewrite app_cons, includes_cons, IH. apply orb_true_r.
Qed.

Lemma includes_here p s : Js.includes (p +:+ s) p = true.
Proof.
  destruct p as [|c p]; [by destruct s|].
  rewrite app_cons, includes_cons, <- app_cons, startsWith_app. done.
Qed.

Lemma includes_mid s p t : Js.includes (s +:+ p +:+ t) p = true.
Proof. apply includes_app_r, includes_here. Qed.

(** [indexOf] agrees with [includes]. *)
Lemma indexOf_nonneg s p : -1 ≤ Js.indexOf s p.
Proof.
  induction s as [|a s IH]; cbn [Js.indexOf].
  - destruct (Js.startsWith EmptyString p); lia.
  - destruct (Js.startsWith (String a s) p); [lia|].
    destruct (Z.eqb_spec (Js.indexOf s p) (-1)); lia.
Qed.

Lemma indexOf_absent s p : Js.includes s p = false → Js.indexOf s p = -1.
Proof.
  induction s as [|a s IH]; cbn [Js.indexOf Js.includes].
  - by destruct (Js.startsWith EmptyString p).
  - destruct (Js.startsWith (String a s) p); [done|]. intros H. by rewrite IH.
Qed.

(** The position [indexOf] gives for one code unit splits the string
    at its first occurrence. *)
Lemma indexOf_char_split s c :
  Js.includes s (String c EmptyString) = true →
  ∃ before after,
    s = before +:+ String c after
    ∧ Js.includes before (String c EmptyString) = false
    ∧ Js.indexOf s (String c EmptyString) = Z.of_nat (String.length before).
Proof.
  induction s as [|a s IH]; [done|].
  rewrite includes_char_cons. intros H.
  destruct (Ascii.eqb_spec a c) as [->|Hne].
  - exists EmptyString, s. split_and!; [done|done|].
    simpl. rewrite Ascii.eqb_refl. by destruct s.
  - simpl in H. destruct (IH H) as (before & after & -> & Hb & Hi).
    exists (String a before), after. split_and!.
    + done.
    + rewrite includes_char_cons, Hb.
      by destruct (Ascii.eqb_spec a c).
    + cbn [Js.indexOf Js.startsWith].
      destruct (Ascii.eqb_spec a c); [done|].
      rewrite Hi.
      destruct (Z.eqb_spec (Z.of_nat (String.length before)) (-1)); [lia|].
      simpl String.length. lia.
Qed.

End StringFacts.

(** ** The credential parser *)

Section ParserFacts.

Implicit Types (s t : string) (c a : ascii).

Lemma mapM_app {A B} (f : A → result B) (l1 l2 : list A) (r1 : list B) :
  mapM f l1 = Ok r1 →
  mapM f (l1 ++ l2) = let* r2 := mapM f l2 in Ok (r1 ++ r2).
Proof.
  revert r1. induction l1 as [|x l1 IH]; intros r1; simpl.
  - intros [= <-]. by destruct (mapM f l2).
  - destruct (f x) as [y|e]; [|done]. simpl.
    destruct (mapM f l1) as [ys|e]; [|done]. simpl. intros [= <-].
    rewrite (IH ys eq_refl). by destruct (mapM f l2).
Qed.

Lemma mapM_Forall2 {A B} (f : A → result B) (P : A → B → Prop)
    (l : list A) :
  Forall (fun x => ∃ y, f x = Ok y ∧ P x y) l →
  ∃ r, mapM f l = Ok r ∧ Forall2 P l r.
Proof.
  induction 1 as [|x l (y & Hy & HP) _ (r & Hr & HF)]; simpl.
  - by exists [].
  - exists (y :: r). rewrite Hy, Hr. by split; [|constructor].
Qed.

Lemma mapM_throw {A B} (f : A → result B) (l : list A) x :
  x ∈ l → (∃ e, f x = Throw e) → ∃ e, mapM f l = Throw e.
Proof.
  intros Hin [e He]. induction Hin as [x l|x y l _ IH]; simpl.
  - rewrite He. by exists e.
  - destruct (f y) as [z|e']; [|by exists e']. simpl.
    destruct (IH He) as [e' ->]. by exists e'.
Qed.

(** An entry that holds a colon after a non-empty name is split at
    its first colon; the secret is the whole entry. *)
Lemma parseToken_ok t :
  Js.includes t ":" = true →
  Js.startsWith t ":" = false →
  ∃ name rest,
    parseToken t = Ok (AccountConfig.mk name t None)
    ∧ t = name +:+ ":" +:+ rest
    ∧ Js.includes name ":" = false
    ∧ name ≠ EmptyString.
Proof.
  intros Hin Hstart.
  destruct (indexOf_char_split t _ Hin) as (name & rest & -> & Hname & Hidx).
  exists name, rest. unfold parseToken. rewrite Hidx.
  destruct (Z.eqb_spec (Z.of_nat (String.length name)) (-1)); [lia|].
  rewrite substring_0, take_app.
  destruct name as [|a name]; [by destruct rest|]. by split_and!.
Qed.

Lemma parseToken_empty_name rest :
  parseToken (":" +:+ rest) = Throw (Error "account name cannot be empty").
Proof. unfold parseToken. by destruct rest. Qed.

Lemma parseToken_no_colon t :
  Js.includes t ":" = false →
  parseToken t = Throw (Error (invalid_token_format t)).
Proof. intros H. unfold parseToken. by rewrite (indexOf_absent _ _ H). Qed.

(** The name [parseToken] gives is never empty. *)
Lemma parseToken_name t account :
  parseToken t = Ok account → AccountConfig.name account ≠ EmptyString.
Proof.
  unfold parseToken. destruct (_ =? _); [done|].
  destruct (Js.substring _ _ _) eqn:E; [done|]. by intros [= <-].
Qed.

(** In the multi-account form every credential has a name. *)
Lemma parseAccounts_multi_names env c bearerTokens accounts :
  env !! "JMAP_BEARER_TOKENS" = Some (String c bearerTokens) →
  parseAccounts env = Ok accounts →
  Forall (fun account => AccountConfig.name account ≠ EmptyString) accounts.
Proof.
  unfold parseAccounts. intros ->.
  generalize (tokens_of (String c bearerTokens)). intros tokens.
  revert accounts. induction tokens as [|t tokens IH]; intros accounts; simpl.
  - by intros [= <-].
  - destruct (parseToken t) as [account|] eqn:Ht; [|done]. simpl.
    destruct (mapM parseToken tokens) as [rest|]; [|done]. simpl.
    intros [= <-]. constructor; [by eapply parseToken_name|by apply IH].
Qed.

(** Trimming removes white space only. *)
Lemma includes_trimStart c s :
  Js.isWhiteSpace c = false →
  Js.includes (Js.trimStart s) (String c EmptyString)
  = Js.includes s (String c EmptyString).
Proof.
  intros Hc. induction s as [|a s IH]; [done|].
  cbn [Js.trimStart]. destruct (Js.isWhiteSpace a) eqn:Ha; [|done].
  rewrite IH, includes_char_cons.
  destruct (Ascii.eqb_spec a c) as [->|]; [congruence|done].
Qed.

Lemma includes_trimEnd c s :
  Js.isWhiteSpace c = false →
  Js.includes (Js.trimEnd s) (String c EmptyString)
  = Js.includes s (String c EmptyString).
Proof.
  intros Hc. induction s as [|a s IH]; [done|].
  cbn [Js.trimEnd]. rewrite includes_char_cons, <- IH.
  destruct (Js.trimEnd s) as [|b t] eqn:E.
  - destruct (Js.isWhiteSpace a) eqn:Ha.
    + destruct (Ascii.eqb_spec a c) as [->|]; [congruence|done].
    + by rewrite includes_char_cons.
  - by rewrite includes_char_cons.
Qed.

Lemma includes_trim c s :
  Js.isWhiteSpace c = false →
  Js.includes (Js.trim s) (String c EmptyString)
  = Js.includes s (String c EmptyString).
Proof.
  intros Hc. unfold Js.trim.
  by rewrite includes_trimEnd, includes_trimStart.
Qed.

(** Splitting what was joined gives the pieces back. *)
Lemma split_no_sep s c :
  Js.includes s (String c EmptyString) = false → Js.split s c = [s].
Proof.
  induction s as [|a s IH]; [done|].
  rewrite includes_char_cons. intros [Ha Hs]%orb_false_elim.
  cbn [Js.split]. rewrite Ha, (IH Hs). done.
Qed.

Lemma split_app s c t :
  Js.includes s (String c EmptyString) = false →
  Js.split (s +:+ String c t) c = s :: Js.split t c.
Proof.
  induction s as [|a s IH].
  - intros _. rewrite app_empty_l. cbn [Js.split]. by rewrite Ascii.eqb_refl.
  - rewrite includes_char_cons. intros [Ha Hs]%orb_false_elim.
    rewrite app_cons. cbn [Js.split]. rewrite Ha, (IH Hs). done.
Qed.

Lemma join_cons s t (l : list string) sep :
  Js.join (s :: t :: l) sep = s +:+ sep +:+ Js.join (t :: l) sep.
Proof. reflexivity. Qed.

Lemma split_join (lines : list string) :
  lines ≠ [] →
  Forall (fun l => Js.includes l Js.LF = false) lines →
  Js.split (Js.join lines Js.LF) Js.newline = lines.
Proof.
  intros Hne Hall. induction Hall as [|l lines Hl Hall IH]; [done|].
  destruct lines as [|l' lines].
  - simpl. by apply split_no_sep.
  - rewrite join_cons. unfold Js.LF at 1. rewrite app_cons, app_empty_l.
    rewrite split_app by done. by rewrite IH.
Qed.

Lemma filter_truthy_all (l : list string) :
  Forall (fun t => t ≠ EmptyString) l → List.filter Js.truthy l = l.
Proof.
  induction 1 as [|t l Ht _ IH]; [done|].
  simpl. destruct t; [done|]. simpl. by rewrite IH.
Qed.

End ParserFacts.

Lemma take_drop (n : nat) (s : string) : s = Js.take n s +:+ Js.drop n s.
Proof.
  revert n. induction s as [|c s IH]; intros [|n]; try done.
  simpl. rewrite app_cons. by rewrite <- IH.
Qed.

Lemma tokens_of_lines (lines : list string) :
  lines ≠ [] →
  Forall (fun l => Js.includes l Js.LF = false) lines →
  Forall (fun l => Js.includes l ":" = true) lines →
  tokens_of (Js.join lines Js.LF) = Js.trim <$> lines.
Proof.
  intros Hne Hlf Hcolon. unfold tokens_of. rewrite split_join by done.
  apply filter_truthy_all, Forall_fmap.
  eapply Forall_impl; [exact Hcolon|]. intros l Hl. cbn beta in *.
  intros Hempty. rewrite <- (includes_trim ":" l eq_refl), Hempty in Hl. done.
Qed.

(** C2, on the single-account fallback: the secret [":secret"] is
    accepted and gives a credential whose name is empty, where the
    multi-account form throws "account name cannot be empty". *)
Theorem C2_single_account_empty_name :
  parseAccounts {[ "JMAP_BEARER_TOKEN" := ":secret" ]}
  = Ok [AccountConfig.mk EmptyString ":secret" None].
Proof. reflexivity. Qed.

(** C5 as stated fails: the one-line blob [":pw"] is non-empty after
    trimming and holds a colon, and the parser throws instead of
    returning one credential. *)
Lemma C5_counterexample :
  Js.includes ":pw" ":" = true
  ∧ Js.trim ":pw" ≠ EmptyString
  ∧ parseAccounts {[ "JMAP_BEARER_TOKENS" := ":pw" ]}
    = Throw (Error "account name cannot be empty").
Proof. by split_and!. Qed.

(** C5, amended: a multi-account blob of k lines, each holding a colon
    that is not the first character of the trimmed line, parses to
    exactly k credentials in line order; each secret is the trimmed line
    and each name is the non-empty part of the trimmed line before its
    first colon. *)
Theorem C5_parser_round_trip (env : Env) (lines : list string) :
  env !! "JMAP_BEARER_TOKENS" = Some (Js.join lines Js.LF) →
  lines ≠ [] →
  Forall (fun l => Js.includes l Js.LF = false) lines →
  Forall (fun l => Js.includes l ":" = true
                   ∧ Js.startsWith (Js.trim l) ":" = false) lines →
  ∃ accounts,
    parseAccounts env = Ok accounts
    ∧ length accounts = length lines
    ∧ Forall2
        (fun l account =>
           AccountConfig.bearerToken account = Js.trim l
           ∧ AccountConfig.name account ≠ EmptyString
           ∧ Js.includes (AccountConfig.name account) ":" = false
           ∧ ∃ rest,
               Js.trim l = AccountConfig.name account +:+ ":" +:+ rest)
        lines accounts.
Proof.
  intros Henv Hne Hlf Hok.
  assert (Hcolon : Forall (fun l => Js.includes l ":" = true) lines)
    by (eapply Forall_impl; [exact Hok|]; by intros l [? _]).
  pose proof (tokens_of_lines lines Hne Hlf Hcolon) as Htok.
  assert (Hblob : ∃ c b, Js.join lines Js.LF = String c b).
  { destruct lines as [|l lines]; [done|].
    apply Forall_cons in Hcolon as [Hl _].
    destruct l as [|c l]; [done|].
    destruct lines; [by exists c, l|]. rewrite join_cons, app_cons. eauto. }
  destruct Hblob as (c & b & Hblob).
  unfold parseAccounts. rewrite Henv, Hblob, <- Hblob, Htok.
  destruct (mapM_Forall2 parseToken
    (fun t account =>
       AccountConfig.bearerToken account = t
       ∧ AccountConfig.name account ≠ EmptyString
       ∧ Js.includes (AccountConfig.name account) ":" = false
       ∧ ∃ rest, t = AccountConfig.name account +:+ ":" +:+ rest)
    (Js.trim <$> lines)) as (accounts & Hparse & Hrel).
  { apply Forall_fmap. eapply Forall_impl; [exact Hok|].
    intros l [Hl Hstart]. cbn beta in *.
    rewrite <- (includes_trim ":" l eq_refl) in Hl.
    destruct (parseToken_ok _ Hl Hstart)
      as (name & rest & Hp & Heq & Hname & Hnon).
    eexists. split; [exact Hp|]. simpl. split_and!; eauto. }
  exists accounts. split_and!; [done| |].
  - apply Forall2_length in Hrel. rewrite length_fmap in Hrel. done.
  - by apply Forall2_fmap_l in Hrel.
Qed.

Lemma C5_parser_round_trip_witness :
  ∃ accounts,
    parseAccounts
      {[ "JMAP_BEARER_TOKENS" := Js.join ["alice:pw1"; " bob:p:w2 "] Js.LF ]}
    = Ok accounts
    ∧ length accounts = length ["alice:pw1"; " bob:p:w2 "]
    ∧ Forall2
        (fun l account =>
           AccountConfig.bearerToken account = Js.trim l
           ∧ AccountConfig.name account ≠ EmptyString
           ∧ Js.includes (AccountConfig.name account) ":" = false
           ∧ ∃ rest,
               Js.trim l = AccountConfig.name account +:+ ":" +:+ rest)
        ["alice:pw1"; " bob:p:w2 "] accounts.
Proof.
  apply (C5_parser_round_trip
           {[ "JMAP_BEARER_TOKENS" :=
                Js.join ["alice:pw1"; " bob:p:w2 "] Js.LF ]}
           ["alice:pw1"; " bob:p:w2 "]).
  - reflexivity.
  - discriminate.
  - repeat constructor.
  - repeat constructor.
Defined.

Lemma parseAccounts_multi (env : Env) (c : ascii) (blob : string) :
  env !! "JMAP_BEARER_TOKENS" = Some (String c blob) →
  parseAccounts env = mapM parseToken (tokens_of (String c blob)).
Proof. unfold parseAccounts. by intros ->. Qed.

Lemma mapM_valid_tokens (valid : list string) :
  Forall (fun t => Js.includes t ":" = true ∧ Js.startsWith t ":" = false)
    valid →
  ∃ accounts, mapM parseToken valid = Ok accounts.
Proof.
  intros Hvalid.
  destruct (mapM_Forall2 parseToken (fun _ _ => True) valid)
    as (accounts & Hparse & _); [|by exists accounts].
  eapply Forall_impl; [exact Hvalid|]. intros t [Hin Hstart].
  destruct (parseToken_ok t Hin Hstart) as (name & rest & Hp & _).
  eauto.
Qed.

(** C6 as stated fails: in the blob of the two entries ["x"] and
    ["invalid token format, expected"], the second entry has no colon
    and is 30 characters long; the error thrown is the one about the
    first entry, and its text holds the second entry in full. *)
Lemma C6_counterexample :
  tokens_of ("x" +:+ Js.LF +:+ "invalid token format, expected")
  = ["x"; "invalid token format, expected"]
  ∧ Js.includes "invalid token format, expected" ":" = false
  ∧ (20 < String.length "invalid token format, expected")%nat
  ∧ parseAccounts
      {[ "JMAP_BEARER_TOKENS" :=
           "x" +:+ Js.LF +:+ "invalid token format, expected" ]}
    = Throw (Error (invalid_token_format "x"))
  ∧ invalid_token_format "x"
    ≠ invalid_token_format "invalid token format, expected"
  ∧ Js.includes (invalid_token_format "x") "invalid token format, expected"
    = true.
Proof. split_and!; try reflexivity; [cbv; lia | discriminate]. Qed.

(** C6, amended: a multi-account blob with a trimmed non-empty entry
    that has no colon never parses; and when every entry before it is
    valid, the error thrown is the format error whose message is the
    fixed text followed by the first 20 characters of that entry and
    nothing more of it. *)
Theorem C6_format_error_preview (env : Env) (c : ascii) (blob entry : string) :
  env !! "JMAP_BEARER_TOKENS" = Some (String c blob) →
  entry ∈ tokens_of (String c blob) →
  Js.includes entry ":" = false →
  (∃ e, parseAccounts env = Throw e)
  ∧ ∀ valid rest,
      tokens_of (String c blob) = valid ++ entry :: rest →
      Forall (fun t => Js.includes t ":" = true
                       ∧ Js.startsWith t ":" = false) valid →
      ∃ preview remainder,
        parseAccounts env
        = Throw (Error ("invalid token format, expected "
                        +:+ Js.quoted "username:password"
                        +:+ ", got: " +:+ preview))
        ∧ entry = preview +:+ remainder
        ∧ String.length preview = Nat.min 20 (String.length entry)
        ∧ ((20 < String.length entry)%nat → remainder ≠ EmptyString).
Proof.
  intros Henv Hin Hcolon. rewrite (parseAccounts_multi env c blob Henv).
  split.
  - eapply mapM_throw; [exact Hin|].
    eexists. by apply parseToken_no_colon.
  - intros valid rest -> Hvalid.
    destruct (mapM_valid_tokens valid Hvalid) as [accounts Hparse].
    rewrite (mapM_app _ _ _ _ Hparse). cbn [mapM].
    rewrite (parseToken_no_colon entry Hcolon). cbn [bind].
    exists (Js.take 20 entry), (Js.drop 20 entry).
    unfold invalid_token_format. change 20 with (Z.of_nat 20) at 1.
    rewrite substring_0. split_and!.
    + done.
    + apply take_drop.
    + apply length_take.
    + intros Hlong Hempty.
      pose proof (f_equal String.length (take_drop 20 entry)) as Hlen.
      rewrite Hempty, app_empty_r, length_take in Hlen. lia.
Qed.

Lemma C6_format_error_preview_witness :
  (∃ e, parseAccounts
          {[ "JMAP_BEARER_TOKENS" :=
               "alice:pw" +:+ Js.LF +:+ "abcdefghijklmnopqrstuvwxyz" ]}
        = Throw e)
  ∧ ∀ valid rest,
      tokens_of ("alice:pw" +:+ Js.LF +:+ "abcdefghijklmnopqrstuvwxyz")
      = valid ++ "abcdefghijklmnopqrstuvwxyz" :: rest →
      Forall (fun t => Js.includes t ":" = true
                       ∧ Js.startsWith t ":" = false) valid →
      ∃ preview remainder,
        parseAccounts
          {[ "JMAP_BEARER_TOKENS" :=
               "alice:pw" +:+ Js.LF +:+ "abcdefghijklmnopqrstuvwxyz" ]}
        = Throw (Error ("invalid token format, expected "
                        +:+ Js.quoted "username:password"
                        +:+ ", got: " +:+ preview))
        ∧ "abcdefghijklmnopqrstuvwxyz" = preview +:+ remainder
        ∧ String.length preview
          = Nat.min 20 (String.length "abcdefghijklmnopqrstuvwxyz")
        ∧ ((20 < String.length "abcdefghijklmnopqrstuvwxyz")%nat →
           remainder ≠ EmptyString).
Proof.
  apply (C6_format_error_preview
           {[ "JMAP_BEARER_TOKENS" :=
                "alice:pw" +:+ Js.LF +:+ "abcdefghijklmnopqrstuvwxyz" ]}
           "a" ("lice:pw" +:+ Js.LF +:+ "abcdefghijklmnopqrstuvwxyz")
           "abcdefghijklmnopqrstuvwxyz").
  - reflexivity.
  - vm_compute. apply list_elem_of_further, list_elem_of_here.
  - reflexivity.
Defined.

(** ** The transport auth adapter *)

Section AdapterFacts.

Implicit Types (s t p r : string) (c a : ascii).

(** A prefix free of the first code unit of the pattern holds no
    occurrence, and none starts in it. *)
Lemma startsWith_head a s c p :
  Ascii.eqb a c = false → Js.startsWith (String a s) (String c p) = false.
Proof. intros H. simpl. by rewrite H. Qed.

Lemma includes_skip s t c p :
  Js.includes s (String c EmptyString) = false →
  Js.includes (s +:+ t) (String c p) = Js.includes t (String c p).
Proof.
  induction s as [|a s IH]; [done|].
  rewrite includes_char_cons. intros [Ha Hs]%orb_false_elim.
  rewrite app_cons, includes_cons, startsWith_head by done. by apply IH.
Qed.

Lemma replace_skip s t c p r :
  Js.includes s (String c EmptyString) = false →
  Js.replace (s +:+ t) (String c p) r = s +:+ Js.replace t (String c p) r.
Proof.
  induction s as [|a s IH]; [done|].
  rewrite includes_char_cons. intros [Ha Hs]%orb_false_elim.
  rewrite !app_cons. cbn [Js.replace].
  rewrite startsWith_head by done. by rewrite IH.
Qed.

Lemma replace_here p s r : Js.replace (p +:+ s) p r = r +:+ s.
Proof.
  destruct p as [|c p].
  - rewrite app_empty_l. by destruct s.
  - rewrite app_cons. cbn [Js.replace].
    rewrite <- app_cons, startsWith_app. by rewrite drop_app.
Qed.

Lemma repairApiUrl_unchanged url :
  Js.includes url "http://" = false ∨ Js.includes url ":8080" = false →
  repairApiUrl url = url.
Proof.
  unfold repairApiUrl, needsRepair.
  intros [-> | ->]; by rewrite ?andb_false_r.
Qed.

Lemma repairApiUrl_reparable host rest :
  Js.includes host ":" = false →
  Js.includes rest ":8080" = false →
  repairApiUrl ("http://" +:+ host +:+ ":8080" +:+ rest)
  = "https://" +:+ host +:+ rest.
Proof.
  intros Hhost Hrest. unfold repairApiUrl, needsRepair.
  replace (Js.includes ("http://" +:+ host +:+ ":8080" +:+ rest) ":8080")
    with true by (symmetry; apply includes_app_r, includes_mid).
  change (rewriteApiUrl ("http://" +:+ host +:+ ":8080" +:+ rest)
          = "https://" +:+ host +:+ rest).
  unfold rewriteApiUrl. rewrite replace_here.
  change (Js.replace ("https://" +:+ host +:+ ":8080" +:+ rest) ":8080"
            EmptyString)
    with ("https://"
          +:+ Js.replace (host +:+ ":8080" +:+ rest) ":8080" EmptyString).
  by rewrite replace_skip, replace_here.
Qed.

End AdapterFacts.

(** C7 as stated fails: both patterns occur twice in this URL, one
    repair rewrites the first occurrences only, and a second repair
    rewrites the others. *)
Lemma C7_counterexample :
  repairApiUrl
    (repairApiUrl "http://a.example:8080/jmap?next=http://a.example:8080/")
  ≠ repairApiUrl "http://a.example:8080/jmap?next=http://a.example:8080/".
Proof. discriminate. Qed.

(** C7, amended: the repair leaves a URL unchanged when it lacks
    ["http://"] or lacks [":8080"]; and on a URL
    [http://<host>:8080<rest>], where the host holds no colon and the
    rest no further [":8080"], it gives [https://<host><rest>] and
    repairing twice gives the same string as repairing once. *)
Theorem C7_repair_idempotent :
  (∀ url,
     Js.includes url "http://" = false ∨ Js.includes url ":8080" = false →
     repairApiUrl url = url)
  ∧ (∀ host rest,
       Js.includes host ":" = false →
       Js.includes rest ":8080" = false →
       repairApiUrl ("http://" +:+ host +:+ ":8080" +:+ rest)
       = "https://" +:+ host +:+ rest
       ∧ repairApiUrl (repairApiUrl ("http://" +:+ host +:+ ":8080" +:+ rest))
         = repairApiUrl ("http://" +:+ host +:+ ":8080" +:+ rest)).
Proof.
  split; [exact repairApiUrl_unchanged|].
  intros host rest Hhost Hrest.
  rewrite (repairApiUrl_reparable host rest Hhost Hrest).
  split; [done|]. apply repairApiUrl_unchanged. right.
  change (Js.includes ("https://" +:+ host +:+ rest) ":8080")
    with (Js.includes (host +:+ rest) ":8080").
  by rewrite includes_skip.
Qed.

Lemma C7_repair_idempotent_witness :
  repairApiUrl "https://mail.example.com/jmap/"
  = "https://mail.example.com/jmap/"
  ∧ repairApiUrl ("http://" +:+ "mail.example.com" +:+ ":8080" +:+ "/jmap/")
    = "https://" +:+ "mail.example.com" +:+ "/jmap/"
  ∧ repairApiUrl
      (repairApiUrl ("http://" +:+ "mail.example.com" +:+ ":8080" +:+ "/jmap/"))
    = repairApiUrl ("http://" +:+ "mail.example.com" +:+ ":8080" +:+ "/jmap/").
Proof.
  split.
  - apply (proj1 C7_repair_idempotent). by left.
  - apply (proj2 C7_repair_idempotent "mail.example.com" "/jmap/");
      reflexivity.
Defined.

Section AdapterClaims.

Variable hostname : string → string.
Variable JSON_parse : string → option Json.
Variable JSON_stringify : Json → string.

Lemma bind_Ok {A} (r : result A) : (let* x := r in Ok x) = r.
Proof. by destruct r. Qed.

(** A request to a URL that holds neither ["jmap"] nor the host name of
    the session URL goes to the original [fetch] as it came. *)
Lemma patchedFetch_other config username password originalFetch input init :
  Js.includes (url_of input) "jmap" = false →
  Js.includes (url_of input) (hostname (JMAPConfig.sessionUrl config))
  = false →
  patchedFetch hostname JSON_parse JSON_stringify config username password
    originalFetch input init
  = originalFetch input init.
Proof. intros H1 H2. unfold patchedFetch. by rewrite H1, H2. Qed.

Lemma filter_set_first (h : Headers.t) n value :
  existsb (fun kv => String.eqb kv.1 n) h = true →
  List.filter (fun kv => String.eqb kv.1 n) (Headers.set_first h n value)
  = [(n, value)].
Proof.
  induction h as [|[k v] h IH]; [done|]. simpl.
  destruct (String.eqb_spec k n) as [->|Hne]; simpl.
  - intros _. rewrite String.eqb_refl. f_equal. clear IH.
    induction h as [|[k' v'] h IH']; [done|]. simpl.
    destruct (String.eqb k' n) eqn:E; simpl; [done|]. by rewrite E.
  - intros H. destruct (String.eqb_spec k n); [done|]. by rewrite IH.
Qed.

Lemma Headers_get_set (h : Headers.t) name value :
  Headers.has h name = true →
  Headers.get (Headers.set h name value) name = Some value.
Proof.
  intros Hhas. unfold Headers.get, Headers.set. rewrite Hhas.
  by rewrite filter_set_first.
Qed.

(** A matching request that carries an [Authorization] header reaches
    the original [fetch] with that header set to the Basic credentials
    of the user name and password the adapter holds. *)
Lemma patchedFetch_basic config username password originalFetch input init :
  Js.includes (url_of input) "jmap"
  || Js.includes (url_of input) (hostname (JMAPConfig.sessionUrl config))
  = true →
  Headers.has (Headers.new (init ≫= RequestInit.headers)) "Authorization"
  = true →
  ∃ headers,
    Headers.get headers "Authorization"
    = Some ("Basic " +:+ Base64.btoa (username +:+ ":" +:+ password))
    ∧ patchedFetch hostname JSON_parse JSON_stringify config username password
        originalFetch input init
      = let* response :=
          originalFetch input
            (Some (RequestInit.mk (init ≫= RequestInit.method)
                     (Some headers) (init ≫= RequestInit.body))) in
        if Js.includes (url_of input) "session"
           || Js.includes (url_of input) ".well-known/jmap"
        then Ok (fixSessionResponse JSON_parse JSON_stringify response)
        else Ok response.
Proof.
  intros Hurl Hhas. unfold patchedFetch. rewrite Hurl, Hhas.
  eexists. split; [|reflexivity]. by apply Headers_get_set.
Qed.

Lemma split_nonempty (s : string) (c : ascii) :
  ∃ piece pieces, Js.split s c = piece :: pieces.
Proof.
  induction s as [|a s (piece & pieces & IH)]; simpl; [eauto|].
  destruct (Ascii.eqb a c); [eauto|]. rewrite IH. eauto.
Qed.

(** The pieces [split(":", 2)] gives: the part before the first colon,
    and the part between the first colon and the second. *)
Lemma split_limit_colon username rest :
  Js.includes username ":" = false →
  Js.split_limit (username +:+ ":" +:+ rest) Js.colon 2
  = [username; nth_piece (Js.split rest Js.colon) 0].
Proof.
  intros H. unfold Js.split_limit.
  change (":" +:+ rest) with (String Js.colon rest).
  rewrite split_app by done.
  by destruct (split_nonempty rest Js.colon) as (piece & pieces & ->).
Qed.

(** With one colon in the secret, the adapter holds the user name and
    the password of the secret. *)
Lemma createJAMClient_one_colon sessionUrl accountId username password
    globalFetch :
  Js.includes username ":" = false →
  Js.includes password ":" = false →
  createJAMClient hostname JSON_parse JSON_stringify
    (JMAPConfig.mk sessionUrl (username +:+ ":" +:+ password) accountId)
    globalFetch
  = (JamClient.mk sessionUrl password,
     patchedFetch hostname JSON_parse JSON_stringify
       (JMAPConfig.mk sessionUrl (username +:+ ":" +:+ password) accountId)
       username password globalFetch).
Proof.
  intros Hu Hp. unfold createJAMClient. simpl.
  rewrite includes_mid, split_limit_colon by done.
  by rewrite (split_no_sep password Js.colon Hp).
Qed.

(** C1, at the secret ["alice:pa:ss"]: the client gets the bearer
    token ["pa"], and a request to the server that carries an
    [Authorization] header leaves with the Basic credentials of
    ["alice:pa"], which are not those of ["alice:pa:ss"]. *)
Theorem C1_password_cut_at_second_colon (originalFetch : Fetch) :
  JamClient.bearerToken
    (createJAMClient hostname JSON_parse JSON_stringify
       (JMAPConfig.mk "https://mail.example.com/.well-known/jmap"
          "alice:pa:ss" None) originalFetch).1
  = "pa"
  ∧ (createJAMClient hostname JSON_parse JSON_stringify
       (JMAPConfig.mk "https://mail.example.com/.well-known/jmap"
          "alice:pa:ss" None) originalFetch).2
      (InputString "https://mail.example.com/jmap/api")
      (Some (RequestInit.mk (Some "POST")
               (Some [("Authorization", "Bearer pa")]) None))
    = originalFetch
        (InputString "https://mail.example.com/jmap/api")
        (Some (RequestInit.mk (Some "POST")
                 (Some [("authorization",
                         "Basic " +:+ Base64.btoa "alice:pa")]) None))
  ∧ Base64.btoa "alice:pa" = "YWxpY2U6cGE="
  ∧ Base64.btoa "alice:pa:ss" = "YWxpY2U6cGE6c3M=".
Proof.
  split_and!; try reflexivity.
  cbn. apply bind_Ok.
Qed.

End AdapterClaims.

(** The example of the specification: with the secret ["alice:s3cret"],
    a request to the configured host that carries [Authorization:
    Bearer X] leaves with the Basic credentials of the secret, and a
    request to another host leaves as it came. *)
Lemma basic_auth_conversion_example (originalFetch : Fetch)
    (init : option RequestInit.t) :
  (createJAMClient Example.hostname Example.JSON_parse Example.JSON_stringify
     (JMAPConfig.mk Example.sessionUrl "alice:s3cret" None) originalFetch).2
    (InputString "https://mail.example.com/api")
    (Some (RequestInit.mk None (Some [("Authorization", "Bearer X")]) None))
  = originalFetch
      (InputString "https://mail.example.com/api")
      (Some (RequestInit.mk None
               (Some [("authorization", "Basic YWxpY2U6czNjcmV0")]) None))
  ∧ (createJAMClient Example.hostname Example.JSON_parse
       Example.JSON_stringify
       (JMAPConfig.mk Example.sessionUrl "alice:s3cret" None) originalFetch).2
      (InputString "https://other.example.org/") init
    = originalFetch (InputString "https://other.example.org/") init.
Proof. split; [cbn; apply bind_Ok|reflexivity]. Qed.

(** ** Startup *)

Section JsMapFacts.

Context {V : Type}.
Implicit Types (m : JsMap.t V) (k : string) (v : V).

Lemma JsMap_get_values m k v : JsMap.get m k = Some v → v ∈ JsMap.values m.
Proof.
  induction m as [|[k' v'] m IH]; [done|]. simpl.
  destruct (String.eqb k' k).
  - intros [= ->]. apply list_elem_of_here.
  - intros H. apply list_elem_of_further. by apply IH.
Qed.

Lemma JsMap_set_values (P : V → Prop) m k v :
  Forall P (JsMap.values m) → P v →
  Forall P (JsMap.values (JsMap.set m k v)).
Proof.
  intros Hm Hv. induction m as [|[k' v'] m IH]; simpl.
  - by constructor.
  - apply Forall_cons in Hm as [Hv' Hm].
    destruct (String.eqb k' k); constructor; auto.
Qed.

Lemma JsMap_get_keys m k : JsMap.get m k = None → k ∉ JsMap.keys m.
Proof.
  induction m as [|[k' v'] m IH]; simpl; [intros _; apply not_elem_of_nil|].
  destruct (String.eqb_spec k' k); [done|].
  intros H. apply not_elem_of_cons. split; [done|by apply IH].
Qed.

End JsMapFacts.

Section JsMapExtras.

Context {V : Type}.
Implicit Types (m : JsMap.t V) (k : string) (v : V).

Lemma JsMap_get_set m k v : JsMap.get (JsMap.set m k v) k = Some v.
Proof.
  induction m as [|[k' v'] m IH]; simpl.
  - by rewrite String.eqb_refl.
  - destruct (String.eqb k' k) eqn:H; simpl.
    + by rewrite String.eqb_refl.
    + by rewrite H.
Qed.

Lemma JsMap_get_set_other m k k' v :
  k' ≠ k → JsMap.get (JsMap.set m k v) k' = JsMap.get m k'.
Proof.
  intros Hne. induction m as [|[k0 v0] m IH]; simpl.
  - destruct (String.eqb_spec k k'); [congruence|done].
  - destruct (String.eqb_spec k0 k) as [->|H0]; simpl.
    + destruct (String.eqb_spec k k'); [congruence|].
      by destruct (String.eqb_spec k k').
    + destruct (String.eqb k0 k'); [done|exact IH].
Qed.

Lemma JsMap_keys_set m k v :
  JsMap.keys (JsMap.set m k v) = remember (JsMap.keys m) k.
Proof.
  unfold remember, JsMap.keys. induction m as [|[k' v'] m IH]; [done|].
  cbn [JsMap.set fmap list_fmap fst].
  destruct (String.eqb_spec k' k) as [->|Hne].
  - rewrite bool_decide_eq_true_2 by left. done.
  - cbn [fmap list_fmap fst]. rewrite IH. clear IH.
    destruct (decide (k ∈ fst <$> m)) as [Hin|Hout].
    + rewrite !bool_decide_eq_true_2; [done|by right|done].
    + rewrite !bool_decide_eq_false_2; [done| |done].
      intros [?|?]%elem_of_cons; congruence.
Qed.

End JsMapExtras.

Section StartupClaims.

Variable hostname : string → string.
Variable JSON_parse : string → option Json.
Variable JSON_stringify : Json → string.
Variable isUrl : string → bool.
Variable invalidUrl : JsError.
Variable getPrimaryAccount : JamClient.t → Fetch → result string.
Variable getSession : JamClient.t → Fetch → result Session.t.

Lemma createJAMClient_jam sessionUrl accountConfig globalFetch :
  (createJAMClient hostname JSON_parse JSON_stringify
     (JMAPConfig.mk sessionUrl (AccountConfig.bearerToken accountConfig)
        (AccountConfig.accountId accountConfig)) globalFetch).1
  = jamOf sessionUrl accountConfig.
Proof.
  unfold createJAMClient, jamOf. simpl.
  by destruct (Js.includes _ _).
Qed.

Lemma fetchAfter_app sessionUrl globalFetch before after :
  fetchAfter hostname JSON_parse JSON_stringify sessionUrl globalFetch
    (before ++ after)
  = fetchAfter hostname JSON_parse JSON_stringify sessionUrl
      (fetchAfter hostname JSON_parse JSON_stringify sessionUrl globalFetch
         before)
      after.
Proof. apply foldl_app. Qed.

(** What one turn of the loop does when it goes through: the entry it
    stores holds the client made for the credential, and what that
    client reads through the [fetch] the turn has installed. *)
Lemma initAccount_turn sessionUrl accountMap globalFetch accountConfig state :
  initAccount hostname JSON_parse JSON_stringify getPrimaryAccount
    getSession sessionUrl (accountMap, globalFetch) accountConfig = Ok state →
  ∃ info,
    state
    = (JsMap.set accountMap (AccountConfig.name accountConfig) info,
       fetchAfter hostname JSON_parse JSON_stringify sessionUrl globalFetch
         [accountConfig])
    ∧ AccountInfo.name info = AccountConfig.name accountConfig
    ∧ AccountInfo.jam info = jamOf sessionUrl accountConfig
    ∧ classified getSession
        (fetchAfter hostname JSON_parse JSON_stringify sessionUrl globalFetch
           [accountConfig])
        info
    ∧ match AccountConfig.accountId accountConfig with
      | Some (String _ _ as id) => AccountInfo.accountId info = id
      | _ =>
          getPrimaryAccount (AccountInfo.jam info)
            (fetchAfter hostname JSON_parse JSON_stringify sessionUrl
               globalFetch [accountConfig])
          = Ok (AccountInfo.accountId info)
      end.
Proof.
  unfold initAccount, fetchAfter. cbn [foldl].
  pose proof (createJAMClient_jam sessionUrl accountConfig globalFetch) as Hjam.
  destruct (createJAMClient _ _ _ _ _) as [jam fetch']. cbn [fst snd] in *.
  destruct (match AccountConfig.accountId accountConfig with
            | Some (String _ _ as id) => Ok id
            | _ => getPrimaryAccount jam fetch'
            end) as [accountId|] eqn:Hid; [|done]. cbn [bind].
  destruct (getSession jam fetch') as [session|] eqn:Hs; [|done]. cbn [bind].
  destruct (bool_decide _) eqn:Hmail; [|done]. cbn [negb].
  destruct (Session.accounts session !! accountId) as [account|] eqn:Ha;
    [|done].
  intros [= <-]. eexists. split; [reflexivity|].
  cbn [AccountInfo.name AccountInfo.jam AccountInfo.accountId].
  split_and!; [done|done| |].
  - exists session, account. cbn.
    split_and!; try done. by apply bool_decide_eq_true in Hmail.
  - destruct (AccountConfig.accountId accountConfig) as [[|c id]|];
      [done|by injection Hid|done].
Qed.


(** Every entry of the registry the loop builds was stored by the turn
    of the last credential of its name, and holds what that turn read
    through the [fetch] it had installed. *)
Lemma initAccounts_registered sessionUrl accounts state state' name info :
  initAccounts hostname JSON_parse JSON_stringify getPrimaryAccount
    getSession sessionUrl state accounts = Ok state' →
  JsMap.get state'.1 name = Some info →
  (Forall (fun accountConfig => AccountConfig.name accountConfig ≠ name)
     accounts
   ∧ JsMap.get state.1 name = Some info)
  ∨ ∃ before accountConfig after,
      accounts = before ++ accountConfig :: after
      ∧ AccountConfig.name accountConfig = name
      ∧ Forall (fun later => AccountConfig.name later ≠ name) after
      ∧ AccountInfo.jam info = jamOf sessionUrl accountConfig
      ∧ classified getSession
          (fetchAfter hostname JSON_parse JSON_stringify sessionUrl state.2
             (before ++ [accountConfig]))
          info
      ∧ match AccountConfig.accountId accountConfig with
        | Some (String _ _ as id) => AccountInfo.accountId info = id
        | _ =>
            getPrimaryAccount (AccountInfo.jam info)
              (fetchAfter hostname JSON_parse JSON_stringify sessionUrl
                 state.2 (before ++ [accountConfig]))
            = Ok (AccountInfo.accountId info)
        end.
Proof.
  revert state. induction accounts as [|accountConfig accounts IH];
    intros [accountMap fetch]; cbn [initAccounts].
  - intros [= <-] Hget. left. by split.
  - destruct (initAccount hostname JSON_parse JSON_stringify getPrimaryAccount
    getSession sessionUrl (accountMap, fetch) accountConfig)
      as [state1|] eqn:H1; [|done]. cbn [bind]. intros Hrest Hget.
    destruct (initAccount_turn _ _ _ _ _ H1)
      as (info1 & -> & _ & Hjam & Hclassified & Hid).
    destruct (IH _ Hrest Hget) as [[Hout Hget1]|Hin]; cbn [fst snd] in *.
    + destruct (decide (name = AccountConfig.name accountConfig)) as [->|Hne].
      * rewrite JsMap_get_set in Hget1. injection Hget1 as <-.
        right. exists [], accountConfig, accounts. by split_and!.
      * rewrite JsMap_get_set_other in Hget1 by done.
        left. split; [|done]. by constructor.
    + destruct Hin
        as (before & cfg & after & -> & Hname & Hafter & Hjam' & Hc' & Hid').
      right. exists (accountConfig :: before), cfg, after.
      rewrite <- fetchAfter_app in Hc', Hid'. by split_and!.
Qed.

Lemma initAccounts_submission_writable sessionUrl accounts state state' :
  Forall (fun info => AccountInfo.hasSubmission info = true
                      → AccountInfo.isReadOnly info = false)
    (JsMap.values state.1) →
  initAccounts hostname JSON_parse JSON_stringify getPrimaryAccount
    getSession sessionUrl state accounts = Ok state' →
  Forall (fun info => AccountInfo.hasSubmission info = true
                      → AccountInfo.isReadOnly info = false)
    (JsMap.values state'.1).
Proof.
  revert state. induction accounts as [|accountConfig accounts IH];
    intros [accountMap fetch] Hm; cbn [initAccounts].
  - by intros [= <-].
  - destruct (initAccount hostname JSON_parse JSON_stringify getPrimaryAccount
    getSession sessionUrl (accountMap, fetch) accountConfig)
      as [state1|] eqn:H1; [|done]. cbn [bind].
    apply IH. clear IH. revert H1. unfold initAccount.
    destruct (createJAMClient _ _ _ _ _) as [jam fetch'].
    destruct (match AccountConfig.accountId accountConfig with
              | Some (String _ _ as id) => Ok id
              | _ => getPrimaryAccount jam fetch'
              end) as [accountId|]; [|done]. cbn [bind].
    destruct (getSession jam fetch') as [session|]; [|done]. cbn [bind].
    destruct (bool_decide _); [|done]. cbn [negb].
    destruct (Session.accounts session !! accountId) as [account|]; [|done].
    intros [= <-]. cbn [fst] in *. apply JsMap_set_values; [done|].
    cbn. intros [_ H]%andb_prop. by apply negb_true_iff.
Qed.

(** C3: every account in the registry [createServer] builds was stored
    by the turn of the last configured credential of its name, and its
    flags are those of the session this turn read, through the [fetch]
    in force in that turn: [hasSubmission] is true exactly when the
    capabilities of that session hold the submission identifier and the
    account descriptor is not read-only; a read-only account never has
    it. *)
Theorem C3_hasSubmission (env : Env) (globalFetch : Fetch)
    (server : McpServer.t) (name : string) (info : AccountInfo.t) :
  createServer hostname JSON_parse JSON_stringify isUrl invalidUrl
    getPrimaryAccount getSession env globalFetch = Ok server →
  JsMap.get (McpServer.accountMap server) name = Some info →
  ∃ sessionUrl before accountConfig after session account,
    env !! "JMAP_SESSION_URL" = Some sessionUrl
    ∧ parseAccounts env = Ok (before ++ accountConfig :: after)
    ∧ AccountConfig.name accountConfig = name
    ∧ Forall (fun later => AccountConfig.name later ≠ name) after
    ∧ AccountInfo.jam info = jamOf sessionUrl accountConfig
    ∧ getSession (AccountInfo.jam info)
        (fetchAfter hostname JSON_parse JSON_stringify sessionUrl globalFetch
           (before ++ [accountConfig]))
      = Ok session
    ∧ Session.accounts session !! AccountInfo.accountId info = Some account
    ∧ AccountInfo.isReadOnly info = Account.isReadOnly account
    ∧ (AccountInfo.hasSubmission info = true
       ↔ submission_capability ∈ Session.capabilities session
         ∧ Account.isReadOnly account = false)
    ∧ (Account.isReadOnly account = true
       → AccountInfo.hasSubmission info = false).
Proof.
  unfold createServer, getJMAPConfig. intros Hstart Hget.
  destruct (env !! "JMAP_SESSION_URL") as [[|c sessionUrl]|]; [done| |done].
  destruct (parseAccounts env) as [accounts|]; [|done].
  cbn [bind] in Hstart.
  destruct (isUrl _); [|done]. cbn [bind Config.sessionUrl Config.accounts]
    in Hstart.
  destruct (initAccounts hostname JSON_parse JSON_stringify getPrimaryAccount
    getSession _ _ _) as [state|] eqn:Hinit; [|done].
  cbn [bind] in Hstart.
  destruct (JsMap.values state.1) as [|firstAccount others]; [done|].
  injection Hstart as <-. cbn [McpServer.accountMap] in Hget.
  destruct (initAccounts_registered _ _ _ _ _ _ Hinit Hget)
    as [[_ Hempty]
       |(before & cfg & after & -> & Hname & Hafter & Hjam
         & (session & account & Hs & Ha & _ & Hro & Hsub) & _)];
    [done|].
  exists (String c sessionUrl), before, cfg, after, session, account.
  cbn [snd] in Hs. split_and!; try done.
  - rewrite Hsub, andb_true_iff, bool_decide_eq_true, negb_true_iff. done.
  - intros Htrue. rewrite Hsub, Htrue. apply andb_false_r.
Qed.





End StartupClaims.

(** The startup of the example gives the registry of the two accounts. *)
Lemma Example_startup :
  createServer Example.hostname Example.JSON_parse Example.JSON_stringify
    Example.isUrl Example.invalidUrl Example.getPrimaryAccount
    Example.getSession Example.env Example.offline
  = Ok (McpServer.mk Example.accountMap
          (registerEmailTools Example.accountMap
           ++ registerEmailSubmissionTools)).
Proof. vm_compute. reflexivity. Qed.

Lemma C3_hasSubmission_witness :
  ∃ sessionUrl before accountConfig after session account,
    Example.env !! "JMAP_SESSION_URL" = Some sessionUrl
    ∧ parseAccounts Example.env = Ok (before ++ accountConfig :: after)
    ∧ AccountConfig.name accountConfig = "bob"
    ∧ Forall (fun later => AccountConfig.name later ≠ "bob") after
    ∧ AccountInfo.jam Online.bob = jamOf sessionUrl accountConfig
    ∧ Online.getSession (AccountInfo.jam Online.bob)
        (fetchAfter Example.hostname Example.JSON_parse
           Example.JSON_stringify sessionUrl Online.readOnlyServer
           (before ++ [accountConfig]))
      = Ok session
    ∧ Session.accounts session !! AccountInfo.accountId Online.bob
      = Some account
    ∧ AccountInfo.isReadOnly Online.bob = Account.isReadOnly account
    ∧ (AccountInfo.hasSubmission Online.bob = true
       ↔ submission_capability ∈ Session.capabilities session
         ∧ Account.isReadOnly account = false)
    ∧ (Account.isReadOnly account = true
       → AccountInfo.hasSubmission Online.bob = false).
Proof.
  apply (C3_hasSubmission Example.hostname Example.JSON_parse
           Example.JSON_stringify Example.isUrl Example.invalidUrl
           Online.getPrimaryAccount Online.getSession
           Example.env Online.readOnlyServer Online.server
           "bob" Online.bob).
  - vm_compute. reflexivity.
  - reflexivity.
Defined.



(** ** The tool handlers *)

Lemma includes_refl (s : string) : Js.includes s s = true.
Proof. rewrite <- (app_empty_r s) at 1. apply includes_here. Qed.

Lemma includes_app_l (s t p : string) :
  Js.includes s p = true → Js.includes (s +:+ t) p = true.
Proof.
  induction s as [|a s IH].
  - destruct p as [|c p]; [by destruct t|done].
  - rewrite app_cons, !includes_cons. intros [H|H]%orb_true_iff.
    + apply orb_true_iff. left. clear IH. revert a s H.
      induction p as [|c p IHp]; intros a s H; [done|].
      simpl in *. destruct (Ascii.eqb a c); [|done].
      destruct p as [|c' p]; [done|].
      destruct s as [|a' s]; [done|]. rewrite app_cons. by apply IHp.
    + rewrite (IH H). apply orb_true_r.
Qed.

Lemma includes_join (l : list string) (sep x : string) :
  x ∈ l → Js.includes (Js.join l sep) x = true.
Proof.
  induction 1 as [x l|x y l Hin IH].
  - destruct l as [|z l]; [apply includes_refl|].
    rewrite join_cons. apply includes_app_l, includes_refl.
  - destruct l as [|z l]; [by apply elem_of_nil in Hin|].
    rewrite join_cons. by apply includes_app_r, includes_app_r.
Qed.

(** The message of the unknown-account error lists every configured
    name. *)
Lemma account_not_found_lists accountMap requested configured :
  configured ∈ JsMap.keys (V:=AccountInfo.t) accountMap →
  Js.includes
    (account_not_found requested (Js.join (JsMap.keys accountMap) ", "))
    configured
  = true.
Proof.
  intros Hin. unfold account_not_found.
  by apply includes_app_r, includes_app_r, includes_app_r, includes_join.
Qed.

Lemma getAccount_unknown accountMap name :
  name ≠ EmptyString →
  JsMap.get accountMap name = None →
  getAccount accountMap (Some name)
  = Throw (Error (account_not_found name
                    (Js.join (JsMap.keys accountMap) ", "))).
Proof. intros Hname Hget. destruct name; [done|]. simpl. by rewrite Hget. Qed.

(** The account [getAccount] resolves is one of the registry. *)
Lemma getAccount_registered accountMap requested account :
  getAccount accountMap requested = Ok account →
  account ∈ JsMap.values accountMap.
Proof.
  unfold getAccount. destruct requested as [[|c name]|].
  - destruct (JsMap.values accountMap) as [|first others]; [done|].
    intros [= <-]. apply list_elem_of_here.
  - destruct (JsMap.get accountMap (String c name)) as [found|] eqn:Hget;
      [|done].
    intros [= <-]. by eapply JsMap_get_values.
  - destruct (JsMap.values accountMap) as [|first others]; [done|].
    intros [= <-]. apply list_elem_of_here.
Qed.

(** The two errors of [getAccount]. *)
Lemma getAccount_throws accountMap requested e :
  getAccount accountMap requested = Throw e →
  (truthy_opt requested = false
   ∧ JsMap.values accountMap = []
   ∧ e = Error "no accounts configured")
  ∨ ∃ name,
      requested = Some name
      ∧ name ≠ EmptyString
      ∧ JsMap.get accountMap name = None
      ∧ e = Error (account_not_found name
                     (Js.join (JsMap.keys accountMap) ", ")).
Proof.
  unfold getAccount. destruct requested as [[|c name]|].
  - destruct (JsMap.values accountMap) as [|first others]; [|done].
    intros [= <-]. by left.
  - destruct (JsMap.get accountMap (String c name)) as [found|] eqn:Hget;
      [done|].
    intros [= <-]. right. by exists (String c name).
  - destruct (JsMap.values accountMap) as [|first others]; [|done].
    intros [= <-]. by left.
Qed.

(** With a writable account in the registry, [mark_emails] is among
    the tools registered. *)
Lemma mark_emails_registered accountMap account :
  account ∈ JsMap.values accountMap →
  AccountInfo.isReadOnly account = false →
  "mark_emails" ∈ registerEmailTools accountMap.
Proof.
  intros Hin Hrw. unfold registerEmailTools, hasAnyWriteAccess.
  replace (existsb _ _) with true.
  - apply elem_of_app. right. apply elem_of_app. left.
    apply list_elem_of_here.
  - symmetry. apply existsb_exists. exists account.
    split; [by apply list_elem_of_In|by rewrite Hrw].
Qed.

Lemma foldl_insert_lookup {V} (v : V) (ids : list string)
    (m : gmap string V) (k : string) :
  foldl (fun updates id => <[id := v]> updates) m ids !! k
  = if decide (k ∈ ids) then Some v else m !! k.
Proof.
  revert m. induction ids as [|id ids IH]; intros m; cbn [foldl].
  - destruct (decide (k ∈ [])) as [Hin|_]; [by apply elem_of_nil in Hin|done].
  - rewrite IH.
    destruct (decide (k ∈ ids)) as [Hin|Hnin],
             (decide (k ∈ id :: ids)) as [Hin'|Hnin']; try done.
    + destruct Hnin'. by apply list_elem_of_further.
    + apply elem_of_cons in Hin' as [->|Hin']; [|done].
      by rewrite lookup_insert_eq.
    + rewrite lookup_insert_ne; [done|]. intros ->.
      destruct Hnin'. apply list_elem_of_here.
Qed.

Section ToolClaims.

Variable ServerState : Type.
Variable jmap :
  ∀ c : ApiCall, JamClient.t → ServerState →
    result (reply_of c) * ServerState.
Variable formatError : JsError → string.
Variable JSON_stringify2 : Json → string.
Variable ReadArgs : ReadTool → Type.
Variable read_body :
  ∀ tool : ReadTool,
    AccountInfo.t → ReadArgs tool → M ServerState ToolResult.t.

Implicit Types (accountMap : AccountMap) (w : World ServerState).

(** A handler whose account lookup throws returns the error as its
    result, and does nothing else. *)
Lemma handle_lookup_throws accountMap (c : ToolCall ReadArgs) e w :
  getAccount accountMap (requestedAccount ReadArgs c) = Throw e →
  handle ServerState jmap formatError JSON_stringify2 ReadArgs read_body
    accountMap c w
  = (ToolResult.ofText (errorPrefix ReadArgs c +:+ formatError e), w).
Proof.
  intros H. destruct c; simpl in H; simpl;
    unfold read_tool, mark_emails, move_emails, delete_emails,
      send_email, reply_to_email, create_draft,
      update_draft, send_draft, catch, bindM, lift;
    by rewrite H.
Qed.

(** C8, amended: a call that asks for a non-empty account name the
    registry does not hold gets, as the handler's result, the text of
    the error whose message lists every configured name; no method is
    called and the server is as before. *)
Theorem C8_unknown_account accountMap (c : ToolCall ReadArgs)
    (name : string) w :
  requestedAccount ReadArgs c = Some name →
  name ≠ EmptyString →
  JsMap.get accountMap name = None →
  getAccount accountMap (Some name)
  = Throw (Error (account_not_found name
                    (Js.join (JsMap.keys accountMap) ", ")))
  ∧ (∀ configured,
       configured ∈ JsMap.keys accountMap →
       Js.includes
         (account_not_found name (Js.join (JsMap.keys accountMap) ", "))
         configured
       = true)
  ∧ handle ServerState jmap formatError JSON_stringify2 ReadArgs read_body
      accountMap c w
    = (ToolResult.ofText
         (errorPrefix ReadArgs c
          +:+ formatError
                (Error (account_not_found name
                          (Js.join (JsMap.keys accountMap) ", ")))),
       w).
Proof.
  intros Hreq Hname Hget.
  pose proof (getAccount_unknown accountMap name Hname Hget) as Hthrow.
  split_and!; [done| |].
  - intros configured Hin. by apply account_not_found_lists.
  - apply handle_lookup_throws. by rewrite Hreq.
Qed.

(** With neither body, each of the three handlers ends in its [catch]
    with the world untouched. *)
Lemma send_email_no_body accountMap (args : SendEmailArgs.t) w :
  SendEmailArgs.textBody args = None →
  SendEmailArgs.htmlBody args = None →
  send_email ServerState jmap formatError JSON_stringify2 accountMap args w
  = (failed formatError "Error sending email: "
       match getAccount accountMap (SendEmailArgs.account args) with
       | Throw e => e
       | Ok account =>
           if AccountInfo.hasSubmission account
           then Error "Either textBody or htmlBody must be provided"
           else Error (no_submission (AccountInfo.name account))
       end,
     w).
Proof.
  intros Ht Hh. unfold send_email, catch, bindM, lift, body_required.
  rewrite Ht, Hh.
  destruct (getAccount _ _) as [account|e]; [|done].
  by destruct (AccountInfo.hasSubmission account).
Qed.

Lemma reply_to_email_no_body accountMap (args : ReplyToEmailArgs.t) w :
  ReplyToEmailArgs.textBody args = None →
  ReplyToEmailArgs.htmlBody args = None →
  reply_to_email ServerState jmap formatError JSON_stringify2 accountMap args
    w
  = (failed formatError "Error replying to email: "
       match getAccount accountMap (ReplyToEmailArgs.account args) with
       | Throw e => e
       | Ok account =>
           if AccountInfo.hasSubmission account
           then Error "Either textBody or htmlBody must be provided"
           else Error (no_submission (AccountInfo.name account))
       end,
     w).
Proof.
  intros Ht Hh. unfold reply_to_email, catch, bindM, lift, body_required.
  rewrite Ht, Hh.
  destruct (getAccount _ _) as [account|e]; [|done].
  by destruct (AccountInfo.hasSubmission account).
Qed.

Lemma create_draft_no_body accountMap (args : CreateDraftArgs.t) w :
  CreateDraftArgs.textBody args = None →
  CreateDraftArgs.htmlBody args = None →
  create_draft ServerState jmap formatError JSON_stringify2 accountMap args w
  = (failed formatError "error creating draft: "
       match getAccount accountMap (CreateDraftArgs.account args) with
       | Throw e => e
       | Ok account =>
           if AccountInfo.isReadOnly account
           then Error (is_read_only (AccountInfo.name account))
           else Error "either textBody or htmlBody must be provided"
       end,
     w).
Proof.
  intros Ht Hh. unfold create_draft, catch, bindM, lift, body_required.
  rewrite Ht, Hh.
  destruct (getAccount _ _) as [account|e]; [|done].
  by destruct (AccountInfo.isReadOnly account).
Qed.

(** C9, amended: when [textBody] and [htmlBody] are both absent,
    [send_email], [reply_to_email] and [create_draft] return an error
    result without calling any method, and the server is as before.
    The error is that of the first step that fails. When the account
    lookup throws, it is the error of the lookup: the requested account
    is not in the registry, or none is requested and the registry is
    empty. When the account resolves and fails the check of the handler,
    it is "account ... does not support email submission" for
    [send_email] and [reply_to_email] and "account ... is read-only"
    for [create_draft]. When the account resolves and passes the check,
    it is "Either textBody or htmlBody must be provided" for
    [send_email] and [reply_to_email] and "either textBody or htmlBody
    must be provided" for [create_draft]. *)
Theorem C9_body_required accountMap w :
  (∀ args : SendEmailArgs.t,
     SendEmailArgs.textBody args = None →
     SendEmailArgs.htmlBody args = None →
     (∃ e, send_email ServerState jmap formatError JSON_stringify2
             accountMap args w
           = (ToolResult.ofText ("Error sending email: " +:+ formatError e),
              w))
     ∧ (∀ account,
          getAccount accountMap (SendEmailArgs.account args) = Ok account →
          AccountInfo.hasSubmission account = true →
          send_email ServerState jmap formatError JSON_stringify2
            accountMap args w
          = (ToolResult.ofText
               ("Error sending email: "
                +:+ formatError
                      (Error "Either textBody or htmlBody must be provided")),
             w))
     ∧ (∀ account,
          getAccount accountMap (SendEmailArgs.account args) = Ok account →
          AccountInfo.hasSubmission account = false →
          send_email ServerState jmap formatError JSON_stringify2
            accountMap args w
          = (ToolResult.ofText
               ("Error sending email: "
                +:+ formatError
                      (Error (no_submission (AccountInfo.name account)))),
             w))
     ∧ ∀ e,
         getAccount accountMap (SendEmailArgs.account args) = Throw e →
         send_email ServerState jmap formatError JSON_stringify2
           accountMap args w
         = (ToolResult.ofText ("Error sending email: " +:+ formatError e), w)
         ∧ ((truthy_opt (SendEmailArgs.account args) = false
             ∧ JsMap.values accountMap = []
             ∧ e = Error "no accounts configured")
            ∨ ∃ name,
                SendEmailArgs.account args = Some name
                ∧ name ≠ EmptyString
                ∧ JsMap.get accountMap name = None
                ∧ e = Error (account_not_found name
                               (Js.join (JsMap.keys accountMap) ", "))))
  ∧ (∀ args : ReplyToEmailArgs.t,
       ReplyToEmailArgs.textBody args = None →
       ReplyToEmailArgs.htmlBody args = None →
       (∃ e, reply_to_email ServerState jmap formatError JSON_stringify2
               accountMap args w
             = (ToolResult.ofText
                  ("Error replying to email: " +:+ formatError e),
                w))
       ∧ (∀ account,
            getAccount accountMap (ReplyToEmailArgs.account args)
            = Ok account →
            AccountInfo.hasSubmission account = true →
            reply_to_email ServerState jmap formatError JSON_stringify2
              accountMap args w
            = (ToolResult.ofText
                 ("Error replying to email: "
                  +:+ formatError
                        (Error
                           "Either textBody or htmlBody must be provided")),
               w))
       ∧ (∀ account,
            getAccount accountMap (ReplyToEmailArgs.account args)
            = Ok account →
            AccountInfo.hasSubmission account = false →
            reply_to_email ServerState jmap formatError JSON_stringify2
              accountMap args w
            = (ToolResult.ofText
                 ("Error replying to email: "
                  +:+ formatError
                        (Error (no_submission (AccountInfo.name account)))),
               w))
       ∧ ∀ e,
           getAccount accountMap (ReplyToEmailArgs.account args) = Throw e →
           reply_to_email ServerState jmap formatError JSON_stringify2
             accountMap args w
           = (ToolResult.ofText
                ("Error replying to email: " +:+ formatError e), w)
           ∧ ((truthy_opt (ReplyToEmailArgs.account args) = false
               ∧ JsMap.values accountMap = []
               ∧ e = Error "no accounts configured")
              ∨ ∃ name,
                  ReplyToEmailArgs.account args = Some name
                  ∧ name ≠ EmptyString
                  ∧ JsMap.get accountMap name = None
                  ∧ e = Error (account_not_found name
                                 (Js.join (JsMap.keys accountMap) ", "))))
  ∧ (∀ args : CreateDraftArgs.t,
       CreateDraftArgs.textBody args = None →
       CreateDraftArgs.htmlBody args = None →
       (∃ e, create_draft ServerState jmap formatError JSON_stringify2
               accountMap args w
             = (ToolResult.ofText ("error creating draft: " +:+ formatError e),
                w))
       ∧ (∀ account,
            getAccount accountMap (CreateDraftArgs.account args) = Ok account →
            AccountInfo.isReadOnly account = false →
            create_draft ServerState jmap formatError JSON_stringify2
              accountMap args w
            = (ToolResult.ofText
                 ("error creating draft: "
                  +:+ formatError
                        (Error
                           "either textBody or htmlBody must be provided")),
               w))
       ∧ (∀ account,
            getAccount accountMap (CreateDraftArgs.account args) = Ok account →
            AccountInfo.isReadOnly account = true →
            create_draft ServerState jmap formatError JSON_stringify2
              accountMap args w
            = (ToolResult.ofText
                 ("error creating draft: "
                  +:+ formatError
                        (Error (is_read_only (AccountInfo.name account)))),
               w))
       ∧ ∀ e,
           getAccount accountMap (CreateDraftArgs.account args) = Throw e →
           create_draft ServerState jmap formatError JSON_stringify2
             accountMap args w
           = (ToolResult.ofText ("error creating draft: " +:+ formatError e),
              w)
           ∧ ((truthy_opt (CreateDraftArgs.account args) = false
               ∧ JsMap.values accountMap = []
               ∧ e = Error "no accounts configured")
              ∨ ∃ name,
                  CreateDraftArgs.account args = Some name
                  ∧ name ≠ EmptyString
                  ∧ JsMap.get accountMap name = None
                  ∧ e = Error (account_not_found name
                                 (Js.join (JsMap.keys accountMap) ", ")))).
Proof.
  split_and!; intros args Ht Hh.
  - rewrite (send_email_no_body accountMap args w Ht Hh).
    split_and!; [by eexists|by intros account -> ->|by intros account -> ->|].
    intros e He. split; [by rewrite He|by apply getAccount_throws].
  - rewrite (reply_to_email_no_body accountMap args w Ht Hh).
    split_and!; [by eexists|by intros account -> ->|by intros account -> ->|].
    intros e He. split; [by rewrite He|by apply getAccount_throws].
  - rewrite (create_draft_no_body accountMap args w Ht Hh).
    split_and!; [by eexists|by intros account -> ->|by intros account -> ->|].
    intros e He. split; [by rewrite He|by apply getAccount_throws].
Qed.

(** C10: on a writable account, [mark_emails] without [seen] and
    without [flagged] calls [Email.set] once, with an update that maps
    each listed id, and no other, to a patch whose only property is an
    empty [keywords] object; its result is that of the call. *)
Theorem C10_mark_without_flags accountMap (args : MarkEmailsArgs.t)
    (account : AccountInfo.t) w :
  getAccount accountMap (MarkEmailsArgs.account args) = Ok account →
  AccountInfo.isReadOnly account = false →
  MarkEmailsArgs.seen args = None →
  MarkEmailsArgs.flagged args = None →
  ∃ updates : gmap string EmailCreate.t,
    (∀ id, id ∈ MarkEmailsArgs.ids args →
           updates !! id
           = Some (EmailCreate.mk None None None None None None
                     (Some ∅) None None None None))
    ∧ (∀ id, id ∉ MarkEmailsArgs.ids args → updates !! id = None)
    ∧ calls ServerState (mark_emails ServerState jmap formatError
                           JSON_stringify2 accountMap args w).2
      = (AccountInfo.jam account,
         Email_set (AccountInfo.accountId account) None (Some updates) None)
        :: calls ServerState w
    ∧ (mark_emails ServerState jmap formatError JSON_stringify2
         accountMap args w).1
      = match (jmap (Email_set (AccountInfo.accountId account) None
                       (Some updates) None)
                 (AccountInfo.jam account) (server ServerState w)).1 with
        | Ok result =>
            stringified JSON_stringify2
              [("updated", gmap_json <$> SetReply.updated result);
               ("notUpdated", gmap_json <$> SetReply.notUpdated result)]
        | Throw e => failed formatError "Error marking emails: " e
        end.
Proof.
  intros Hget Hrw Hseen Hflagged. exists (mark_updates args).
  unfold mark_updates. rewrite Hseen, Hflagged. cbn [mark_keywords].
  split_and!.
  - intros id Hin. rewrite foldl_insert_lookup. by rewrite decide_True.
  - intros id Hin. rewrite foldl_insert_lookup. by rewrite decide_False.
  - unfold mark_emails, catch, bindM, lift, call, when, ret, mark_updates.
    rewrite Hget, Hrw, Hseen, Hflagged. cbn [mark_keywords].
    by destruct (jmap _ _ _) as [[result|e] s].
  - unfold mark_emails, catch, bindM, lift, call, when, ret, mark_updates.
    rewrite Hget, Hrw, Hseen, Hflagged. cbn [mark_keywords].
    by destruct (jmap _ _ _) as [[result|e] s].
Qed.

End ToolClaims.

(** C8 as stated fails: the empty string is a name the registry does
    not hold, and a call that asks for it is served on the first
    account. *)
Lemma C8_counterexample :
  JsMap.get Example.accountMap EmptyString = None
  ∧ getAccount Example.accountMap (Some EmptyString) = Ok Example.alice
  ∧ calls nat
      (handle nat Example.jmap Example.formatError Example.JSON_stringify2
         Example.ReadArgs Example.read_body Example.accountMap
         (call_mark_emails Example.ReadArgs
            (Example.no_flags (Some EmptyString)))
         Example.world).2
    = [(AccountInfo.jam Example.alice,
        Email_set "u1" None
          (Some (mark_updates (Example.no_flags (Some EmptyString))))
          None)].
Proof. split_and!; vm_compute; reflexivity. Qed.

Lemma C8_unknown_account_witness :
  getAccount Example.accountMap (Some "carol")
  = Throw (Error (account_not_found "carol"
                    (Js.join (JsMap.keys Example.accountMap) ", ")))
  ∧ (∀ configured,
       configured ∈ JsMap.keys Example.accountMap →
       Js.includes
         (account_not_found "carol"
            (Js.join (JsMap.keys Example.accountMap) ", "))
         configured
       = true)
  ∧ handle nat Example.jmap Example.formatError Example.JSON_stringify2
      Example.ReadArgs Example.read_body Example.accountMap
      (call_send_email Example.ReadArgs (Example.no_body (Some "carol")))
      Example.world
    = (ToolResult.ofText
         (errorPrefix Example.ReadArgs
            (call_send_email Example.ReadArgs
               (Example.no_body (Some "carol")))
          +:+ Example.formatError
                (Error (account_not_found "carol"
                          (Js.join (JsMap.keys Example.accountMap) ", ")))),
       Example.world).
Proof.
  apply (C8_unknown_account nat Example.jmap Example.formatError
           Example.JSON_stringify2 Example.ReadArgs Example.read_body
           Example.accountMap
           (call_send_email Example.ReadArgs (Example.no_body (Some "carol")))
           "carol" Example.world).
  - reflexivity.
  - discriminate.
  - reflexivity.
Defined.

(** C9 as stated fails: without a body, [create_draft] on the writable
    first account answers with its own message, which starts with a
    small letter, and [send_email] on the read-only account answers
    that the account does not support submission; neither text holds
    "Either textBody or htmlBody must be provided". *)
Lemma C9_counterexample :
  create_draft nat Example.jmap Example.formatError Example.JSON_stringify2
    Example.accountMap (Example.no_body None) Example.world
  = (ToolResult.ofText
       "error creating draft: either textBody or htmlBody must be provided",
     Example.world)
  ∧ Js.includes
      "error creating draft: either textBody or htmlBody must be provided"
      "Either textBody or htmlBody must be provided"
    = false
  ∧ send_email nat Example.jmap Example.formatError Example.JSON_stringify2
      Example.accountMap (Example.no_body (Some "bob")) Example.world
    = (ToolResult.ofText ("Error sending email: " +:+ no_submission "bob"),
       Example.world)
  ∧ Js.includes ("Error sending email: " +:+ no_submission "bob")
      "Either textBody or htmlBody must be provided"
    = false.
Proof. split_and!; vm_compute; reflexivity. Qed.

Lemma C9_body_required_witness :
  (∃ e, send_email nat Example.jmap Example.formatError Example.JSON_stringify2
          Example.accountMap (Example.no_body None) Example.world
        = (ToolResult.ofText
             ("Error sending email: " +:+ Example.formatError e),
           Example.world))
  ∧ (∀ account,
       getAccount Example.accountMap
         (SendEmailArgs.account (Example.no_body None)) = Ok account →
       AccountInfo.hasSubmission account = true →
       send_email nat Example.jmap Example.formatError Example.JSON_stringify2
         Example.accountMap (Example.no_body None) Example.world
       = (ToolResult.ofText
            ("Error sending email: "
             +:+ Example.formatError
                   (Error "Either textBody or htmlBody must be provided")),
          Example.world))
  ∧ (∀ account,
       getAccount Example.accountMap
         (SendEmailArgs.account (Example.no_body None)) = Ok account →
       AccountInfo.hasSubmission account = false →
       send_email nat Example.jmap Example.formatError Example.JSON_stringify2
         Example.accountMap (Example.no_body None) Example.world
       = (ToolResult.ofText
            ("Error sending email: "
             +:+ Example.formatError
                   (Error (no_submission (AccountInfo.name account)))),
          Example.world))
  ∧ ∀ e,
      getAccount Example.accountMap
        (SendEmailArgs.account (Example.no_body None)) = Throw e →
      send_email nat Example.jmap Example.formatError Example.JSON_stringify2
        Example.accountMap (Example.no_body None) Example.world
      = (ToolResult.ofText
           ("Error sending email: " +:+ Example.formatError e),
         Example.world)
      ∧ ((truthy_opt (SendEmailArgs.account (Example.no_body None))
          = false
          ∧ JsMap.values Example.accountMap = []
          ∧ e = Error "no accounts configured")
         ∨ ∃ name,
             SendEmailArgs.account (Example.no_body None) = Some name
             ∧ name ≠ EmptyString
             ∧ JsMap.get Example.accountMap name = None
             ∧ e = Error (account_not_found name
                            (Js.join (JsMap.keys Example.accountMap) ", "))).
Proof.
  apply (proj1 (C9_body_required nat Example.jmap Example.formatError
                  Example.JSON_stringify2 Example.accountMap Example.world)
           (Example.no_body None));
    reflexivity.
Defined.

Lemma C10_mark_without_flags_witness :
  ∃ updates : gmap string EmailCreate.t,
    (∀ id, id ∈ MarkEmailsArgs.ids (Example.no_flags None) →
           updates !! id
           = Some (EmailCreate.mk None None None None None None
                     (Some ∅) None None None None))
    ∧ (∀ id, id ∉ MarkEmailsArgs.ids (Example.no_flags None) →
             updates !! id = None)
    ∧ calls nat
        (mark_emails nat Example.jmap Example.formatError Example.JSON_stringify2
           Example.accountMap (Example.no_flags None) Example.world).2
      = (AccountInfo.jam Example.alice,
         Email_set (AccountInfo.accountId Example.alice) None (Some updates)
           None)
        :: calls nat Example.world
    ∧ (mark_emails nat Example.jmap Example.formatError Example.JSON_stringify2
         Example.accountMap (Example.no_flags None) Example.world).1
      = match (Example.jmap
                 (Email_set (AccountInfo.accountId Example.alice) None
                    (Some updates) None)
                 (AccountInfo.jam Example.alice)
                 (server nat Example.world)).1 with
        | Ok result =>
            stringified Example.JSON_stringify2
              [("updated", gmap_json <$> SetReply.updated result);
               ("notUpdated", gmap_json <$> SetReply.notUpdated result)]
        | Throw e => failed Example.formatError "Error marking emails: " e
        end.
Proof.
  apply (C10_mark_without_flags nat Example.jmap Example.formatError
           Example.JSON_stringify2 Example.accountMap
           (Example.no_flags None) Example.alice Example.world);
    reflexivity.
Defined.

(** ** Further properties of the credential parser *)

Section ParserExtras.

Implicit Types (s t : string) (c : ascii).

Lemma indexOf_char_app before c after :
  Js.includes before (String c EmptyString) = false →
  Js.indexOf (before +:+ String c after) (String c EmptyString)
  = Z.of_nat (String.length before).
Proof.
  induction before as [|a before IH]; intros H.
  - rewrite app_empty_l. simpl. by rewrite Ascii.eqb_refl.
  - rewrite includes_char_cons in H. apply orb_false_elim in H as [Ha Hb].
    rewrite app_cons.
    cbn [Js.indexOf]. rewrite (startsWith_head _ _ _ _ Ha).
    rewrite (IH Hb).
    destruct (Z.eqb_spec (Z.of_nat (String.length before)) (-1)); [lia|].
    cbn [String.length]. lia.
Qed.

Lemma mapM_Ok {A B} (f : A → result B) (l : list A) (r : list B) :
  mapM f l = Ok r → Forall2 (fun x y => f x = Ok y) l r.
Proof.
  revert r. induction l as [|x l IH]; intros r H; simpl in H.
  - injection H as <-. constructor.
  - destruct (f x) as [y|e] eqn:Hx; [|done]. simpl in H.
    destruct (mapM f l) as [ys|e] eqn:Hl; [|done]. simpl in H.
    injection H as <-. constructor; [done|]. by apply IH.
Qed.

Lemma parseToken_inv t account :
  parseToken t = Ok account →
  Js.includes t ":" = true ∧ Js.startsWith t ":" = false.
Proof.
  intros H. destruct (Js.includes t ":") eqn:Hi.
  - split; [done|]. destruct t as [|a t]; [done|].
    destruct (Js.startsWith (String a t) ":") eqn:Hs; [|done].
    simpl in Hs. destruct (Ascii.eqb_spec a ":"); [|done]. subst a.
    change (String ":" t) with (":" +:+ t) in H.
    by rewrite parseToken_empty_name in H.
  - by rewrite (parseToken_no_colon _ Hi) in H.
Qed.

(** X1: whenever the multi-account variable is parsed successfully, the
    credentials are the trimmed non-empty lines of the blob, one for one
    and in order; each name is non-empty, holds no [':'], and is followed
    in the secret by a [':']; no account id is set. *)
Theorem X1_parsed_accounts_well_formed (env : Env) (c : ascii)
    (blob : string) (accounts : list AccountConfig.t) :
  env !! "JMAP_BEARER_TOKENS" = Some (String c blob) →
  parseAccounts env = Ok accounts →
  AccountConfig.bearerToken <$> accounts = tokens_of (String c blob)
  ∧ Forall
      (fun account =>
         AccountConfig.accountId account = None
         ∧ AccountConfig.name account ≠ EmptyString
         ∧ Js.includes (AccountConfig.name account) ":" = false
         ∧ ∃ rest,
             AccountConfig.bearerToken account
             = AccountConfig.name account +:+ ":" +:+ rest)
      accounts.
Proof.
  intros Henv H. rewrite (parseAccounts_multi _ _ _ Henv) in H.
  apply mapM_Ok in H.
  induction H as [|t account tokens accounts Ht _ [IH1 IH2]]; [done|].
  destruct (parseToken_inv _ _ Ht) as [Hi Hs].
  destruct (parseToken_ok _ Hi Hs) as (name & rest & Hok & Heq & Hname & Hne).
  rewrite Hok in Ht. injection Ht as <-. split.
  - cbn. by rewrite IH1.
  - constructor; [|done]. cbn. split_and!; [done..|]. by exists rest.
Qed.

(** X2: without a multi-account variable (unset or empty), a non-empty
    single token always parses, to exactly one credential whose secret is
    the variable's value as it stands; the name is ["default"] when the
    value holds no [':'], and otherwise what comes before its first
    [':']. *)
Theorem X2_single_token_fallback (env : Env) (bearerToken : string) :
  truthy_opt (env !! "JMAP_BEARER_TOKENS") = false →
  env !! "JMAP_BEARER_TOKEN" = Some bearerToken →
  bearerToken ≠ EmptyString →
  ∃ name,
    parseAccounts env = Ok [AccountConfig.mk name bearerToken None]
    ∧ (Js.includes bearerToken ":" = false → name = "default")
    ∧ (∀ before after,
         bearerToken = before +:+ ":" +:+ after →
         Js.includes before ":" = false →
         name = before).
Proof.
  intros Hmulti Hsingle Hne.
  assert (parseAccounts env
          = Ok [AccountConfig.mk
                  (if negb (Js.indexOf bearerToken ":" =? -1)
                   then Js.substring bearerToken 0
                          (Js.indexOf bearerToken ":")
                   else "default") bearerToken None]) as ->.
  { unfold parseAccounts.
    destruct (env !! "JMAP_BEARER_TOKENS") as [[|? ?]|]; [|done|];
      rewrite Hsingle; by destruct bearerToken. }
  eexists. split; [done|]. split.
  - intros H. by rewrite (indexOf_absent _ _ H).
  - intros before after -> H.
    change (":" +:+ after) with (String ":" after).
    rewrite (indexOf_char_app _ _ _ H).
    destruct (Z.eqb_spec (Z.of_nat (String.length before)) (-1)); [lia|].
    cbn [negb]. rewrite substring_0. apply take_app.
Qed.

Lemma trimStart_allWhiteSpace s :
  allWhiteSpace s = true → Js.trimStart s = EmptyString.
Proof.
  induction s as [|a s IH]; [done|]. simpl.
  intros [Ha Hs]%andb_prop. rewrite Ha. by apply IH.
Qed.

Lemma split_allWhiteSpace s c :
  allWhiteSpace s = true →
  Forall (fun piece => allWhiteSpace piece = true) (Js.split s c).
Proof.
  induction s as [|a s IH]; intros H.
  - by constructor.
  - simpl in H. apply andb_prop in H as [Ha Hs]. specialize (IH Hs).
    simpl. destruct (Ascii.eqb a c).
    + by constructor.
    + destruct (Js.split s c) as [|piece pieces].
      * constructor; [|done]. simpl. by rewrite Ha.
      * inversion_clear IH as [|? ? Hp Hps].
        constructor; [|done]. simpl. by rewrite Ha, Hp.
Qed.

Lemma tokens_of_allWhiteSpace s :
  allWhiteSpace s = true → tokens_of s = [].
Proof.
  intros H. unfold tokens_of.
  pose proof (split_allWhiteSpace s Js.newline H) as Hall.
  induction Hall as [|piece pieces Hp _ IH]; [done|].
  cbn. unfold Js.trim at 1. rewrite (trimStart_allWhiteSpace _ Hp). cbn.
  exact IH.
Qed.

End ParserExtras.

(** ** Further properties of the transport auth adapter *)

Section HeadersFacts.

Implicit Types (h : Headers.t) (n m v : string).

Lemma lower_idem (c : ascii) : Headers.lower (Headers.lower c) = Headers.lower c.
Proof. by destruct c as [[] [] [] [] [] [] [] []]. Qed.

Lemma lowercase_idem (s : string) :
  Headers.lowercase (Headers.lowercase s) = Headers.lowercase s.
Proof.
  induction s as [|c s IH]; [done|]. simpl. by rewrite lower_idem, IH.
Qed.

Lemma Headers_new_lowercase init :
  Forall (fun kv => Headers.lowercase kv.1 = kv.1) (Headers.new init).
Proof.
  destruct init as [l|]; [|constructor]. simpl.
  induction l as [|kv l IH]; constructor; [|done]. apply lowercase_idem.
Qed.

Lemma Headers_new_id h :
  Forall (fun kv => Headers.lowercase kv.1 = kv.1) h →
  Headers.new (Some h) = h.
Proof.
  induction 1 as [|[k v] h Hk _ IH]; [done|]. simpl in *.
  rewrite Hk. f_equal. exact IH.
Qed.

Lemma set_first_lowercase h n v :
  Headers.lowercase n = n →
  Forall (fun kv => Headers.lowercase kv.1 = kv.1) h →
  Forall (fun kv => Headers.lowercase kv.1 = kv.1) (Headers.set_first h n v).
Proof.
  intros Hn. induction 1 as [|kv h Hk Hh IH]; [constructor|]. simpl.
  destruct (String.eqb kv.1 n).
  - constructor; [done|]. clear IH Hk.
    induction Hh as [|kv' h' Hk' _ IH']; [constructor|]. simpl.
    destruct (negb (String.eqb kv'.1 n)); [by constructor|done].
  - by constructor.
Qed.

Lemma Headers_set_lowercase h n v :
  Forall (fun kv => Headers.lowercase kv.1 = kv.1) h →
  Forall (fun kv => Headers.lowercase kv.1 = kv.1) (Headers.set h n v).
Proof.
  intros H. unfold Headers.set. destruct (Headers.has h n).
  - apply set_first_lowercase; [apply lowercase_idem|done].
  - apply Forall_app. split; [done|]. constructor; [|constructor].
    apply lowercase_idem.
Qed.

Lemma Headers_has_get h n :
  Headers.has h n = false → Headers.get h n = None.
Proof.
  unfold Headers.has, Headers.get. intros H.
  induction h as [|kv h IH]; [done|]. simpl in *.
  apply orb_false_elim in H as [H1 H2]. rewrite H1. by apply IH.
Qed.

Lemma Headers_has_set h n v : Headers.has (Headers.set h n v) n = true.
Proof.
  destruct (Headers.has h n) eqn:H.
  - pose proof (Headers_get_set h n v H) as Hget.
    destruct (Headers.has (Headers.set h n v) n) eqn:H'; [done|].
    by rewrite (Headers_has_get _ _ H') in Hget.
  - unfold Headers.set. rewrite H. unfold Headers.has.
    rewrite existsb_app. simpl. rewrite String.eqb_refl.
    by rewrite orb_true_r.
Qed.

Lemma filter_set_first_other h n m v :
  String.eqb n m = false →
  List.filter (fun kv => String.eqb kv.1 m) (Headers.set_first h n v)
  = List.filter (fun kv => String.eqb kv.1 m) h.
Proof.
  intros Hnm. induction h as [|kv h IH]; [done|]. simpl.
  destruct (String.eqb kv.1 n) eqn:Hk.
  - apply String.eqb_eq in Hk. simpl. rewrite Hk, Hnm.
    clear IH. induction h as [|kv' h IH]; [done|]. simpl.
    destruct (String.eqb kv'.1 n) eqn:Hk'; simpl.
    + apply String.eqb_eq in Hk'. by rewrite Hk', Hnm.
    + destruct (String.eqb kv'.1 m); [by rewrite IH|done].
  - simpl. destruct (String.eqb kv.1 m); [by rewrite IH|done].
Qed.

Lemma Headers_get_set_other h n m v :
  Headers.lowercase m ≠ Headers.lowercase n →
  Headers.get (Headers.set h n v) m = Headers.get h m.
Proof.
  intros Hne. unfold Headers.get, Headers.set.
  assert (String.eqb (Headers.lowercase n) (Headers.lowercase m) = false)
    as Hnm by (apply String.eqb_neq; congruence).
  destruct (Headers.has h n).
  - by rewrite filter_set_first_other.
  - rewrite List.filter_app. simpl. rewrite Hnm. by rewrite app_nil_r.
Qed.

End HeadersFacts.

Section AdapterExtras.

Variable hostname : string → string.
Variable JSON_parse : string → option Json.
Variable JSON_stringify : Json → string.

(** X3: on a matching request the adapter hands the original [fetch]
    the caller's input, method and body, and every header but
    [Authorization] as the caller gave it; [Authorization] is the Basic
    credential when the caller sent the header, and stays absent when
    the caller sent none. *)
Theorem X3_adapter_changes_only_authorization (config : JMAPConfig.t)
    (username password : string) (originalFetch : Fetch)
    (input : FetchInput) (init : option RequestInit.t) :
  Js.includes (url_of input) "jmap"
  || Js.includes (url_of input) (hostname (JMAPConfig.sessionUrl config))
  = true →
  ∃ headers,
    patchedFetch hostname JSON_parse JSON_stringify config username password
      originalFetch input init
    = (let* response :=
         originalFetch input
           (Some (RequestInit.mk (init ≫= RequestInit.method)
                    (Some headers) (init ≫= RequestInit.body))) in
       if Js.includes (url_of input) "session"
          || Js.includes (url_of input) ".well-known/jmap"
       then Ok (fixSessionResponse JSON_parse JSON_stringify response)
       else Ok response)
    ∧ (∀ name,
         Headers.lowercase name ≠ "authorization" →
         Headers.get headers name
         = Headers.get (Headers.new (init ≫= RequestInit.headers)) name)
    ∧ Headers.get headers "Authorization"
      = if Headers.has (Headers.new (init ≫= RequestInit.headers))
             "Authorization"
        then Some ("Basic " +:+ Base64.btoa (username +:+ ":" +:+ password))
        else None.
Proof.
  intros Hurl. unfold patchedFetch. rewrite Hurl.
  destruct (Headers.has (Headers.new (init ≫= RequestInit.headers))
              "Authorization") eqn:Hhas.
  - eexists. split; [reflexivity|]. split.
    + intros name Hname. by apply Headers_get_set_other.
    + by apply Headers_get_set.
  - eexists. split; [reflexivity|]. split; [done|].
    by apply Headers_has_get.
Qed.


(** A [fetch] that sends the credential [authorization] on every
    matching request that carries an [Authorization] header keeps doing
    so when [createJAMClient] wraps it for another account. *)
Lemma createJAMClient_wrapped (sessionUrl authorization : string)
    (config : JMAPConfig.t) (fetch base : Fetch) :
  JMAPConfig.sessionUrl config = sessionUrl →
  (∀ input init,
     Js.includes (url_of input) "jmap"
     || Js.includes (url_of input) (hostname sessionUrl) = true →
     Headers.has (Headers.new (init ≫= RequestInit.headers)) "Authorization"
     = true →
     ∃ headers post,
       Headers.get headers "Authorization" = Some authorization
       ∧ fetch input init
         = let* response :=
             base input
               (Some (RequestInit.mk (init ≫= RequestInit.method)
                        (Some headers) (init ≫= RequestInit.body))) in
           Ok (post response)) →
  ∀ input init,
    Js.includes (url_of input) "jmap"
    || Js.includes (url_of input) (hostname sessionUrl) = true →
    Headers.has (Headers.new (init ≫= RequestInit.headers)) "Authorization"
    = true →
    ∃ headers post,
      Headers.get headers "Authorization" = Some authorization
      ∧ (createJAMClient hostname JSON_parse JSON_stringify config fetch).2
          input init
        = let* response :=
            base input
              (Some (RequestInit.mk (init ≫= RequestInit.method)
                       (Some headers) (init ≫= RequestInit.body))) in
          Ok (post response).
Proof.
  intros Hsession Hfetch input init Hurl Hhas. unfold createJAMClient.
  destruct (Js.includes (JMAPConfig.bearerToken config) ":"); simpl;
    [|by apply Hfetch].
  unfold patchedFetch. rewrite Hsession, Hurl, Hhas.
  set (headers' := Headers.set _ _ _).
  destruct (Hfetch input
              (Some (RequestInit.mk (init ≫= RequestInit.method)
                       (Some headers') (init ≫= RequestInit.body))) Hurl)
    as (headers & post & Hget & ->).
  { change (Headers.has (Headers.new (Some headers')) "Authorization" = true).
    rewrite Headers_new_id; [apply Headers_has_set|].
    apply Headers_set_lowercase, Headers_new_lowercase. }
  simpl.
  exists headers,
    (fun response =>
       if Js.includes (url_of input) "session"
          || Js.includes (url_of input) ".well-known/jmap"
       then fixSessionResponse JSON_parse JSON_stringify (post response)
       else post response).
  split; [done|].
  destruct (base input _) as [response|e]; simpl; [|done].
  by destruct (Js.includes (url_of input) "session"
               || Js.includes (url_of input) ".well-known/jmap").
Qed.

End AdapterExtras.

(** ** Further properties of the startup *)

Section StartupExtras.

Variable hostname : string → string.
Variable JSON_parse : string → option Json.
Variable JSON_stringify : Json → string.
Variable isUrl : string → bool.
Variable invalidUrl : JsError.
Variable getPrimaryAccount : JamClient.t → Fetch → result string.
Variable getSession : JamClient.t → Fetch → result Session.t.

(** What one turn of the loop leaves behind. *)
Lemma initAccount_inv sessionUrl accountMap globalFetch accountConfig state :
  initAccount hostname JSON_parse JSON_stringify getPrimaryAccount
    getSession sessionUrl (accountMap, globalFetch) accountConfig = Ok state →
  ∃ info,
    state
    = (JsMap.set accountMap (AccountConfig.name accountConfig) info,
       (createJAMClient hostname JSON_parse JSON_stringify
          (JMAPConfig.mk sessionUrl (AccountConfig.bearerToken accountConfig)
             (AccountConfig.accountId accountConfig)) globalFetch).2)
    ∧ AccountInfo.name info = AccountConfig.name accountConfig
    ∧ AccountInfo.jam info = jamOf sessionUrl accountConfig.
Proof.
  unfold initAccount.
  pose proof (createJAMClient_jam hostname JSON_parse JSON_stringify
                sessionUrl accountConfig globalFetch) as Hjam.
  destruct (createJAMClient _ _ _ _ _) as [jam fetch']. simpl in Hjam.
  destruct (match AccountConfig.accountId accountConfig with
            | Some (String _ _ as id) => Ok id
            | _ => getPrimaryAccount jam fetch'
            end) as [accountId|]; [|done]. cbn [bind].
  destruct (getSession jam fetch') as [session|]; [|done]. cbn [bind].
  destruct (bool_decide _); [|done]. cbn [negb].
  destruct (Session.accounts session !! accountId) as [account|]; [|done].
  intros [= <-]. eexists. split; [reflexivity|]. by split.
Qed.

Lemma initAccounts_fetch sessionUrl authorization (base : Fetch) accounts
    (state state' : AccountMap * Fetch) :
  (∀ input (init : option RequestInit.t),
     Js.includes (url_of input) "jmap"
     || Js.includes (url_of input) (hostname sessionUrl) = true →
     Headers.has (Headers.new (init ≫= RequestInit.headers)) "Authorization"
     = true →
     ∃ headers post,
       Headers.get headers "Authorization" = Some authorization
       ∧ state.2 input init
         = let* response :=
             base input
               (Some (RequestInit.mk (init ≫= RequestInit.method)
                        (Some headers) (init ≫= RequestInit.body))) in
           Ok (post response)) →
  initAccounts hostname JSON_parse JSON_stringify getPrimaryAccount
    getSession sessionUrl state accounts = Ok state' →
  ∀ input (init : option RequestInit.t),
    Js.includes (url_of input) "jmap"
    || Js.includes (url_of input) (hostname sessionUrl) = true →
    Headers.has (Headers.new (init ≫= RequestInit.headers)) "Authorization"
    = true →
    ∃ headers post,
      Headers.get headers "Authorization" = Some authorization
      ∧ state'.2 input init
        = let* response :=
            base input
              (Some (RequestInit.mk (init ≫= RequestInit.method)
                       (Some headers) (init ≫= RequestInit.body))) in
          Ok (post response).
Proof.
  revert state. induction accounts as [|accountConfig accounts IH];
    intros [accountMap fetch] Hfetch; cbn [initAccounts].
  - by intros [= <-].
  - destruct (initAccount hostname JSON_parse JSON_stringify getPrimaryAccount
    getSession sessionUrl (accountMap, fetch) accountConfig)
      as [state1|] eqn:H1; [|done]. cbn [bind].
    apply IH. destruct (initAccount_inv _ _ _ _ _ H1) as (info & -> & _).
    cbn [snd]. by apply createJAMClient_wrapped.
Qed.

(** X5: the adapters of the accounts are stacked on one [fetch], and the
    one installed first acts last. Once the accounts are initialised,
    a matching request that carries an [Authorization] header reaches
    the original [fetch] with the Basic credential of the first
    configured account, whichever client sent it, when that account's
    secret holds a [':']. *)
Theorem X5_first_credential_on_every_request (sessionUrl : string)
    (first : AccountConfig.t) (others : list AccountConfig.t)
    (accountMap : AccountMap) (globalFetch : Fetch)
    (state : AccountMap * Fetch)
    (input : FetchInput) (init : option RequestInit.t) :
  Js.includes (AccountConfig.bearerToken first) ":" = true →
  initAccounts hostname JSON_parse JSON_stringify getPrimaryAccount
    getSession sessionUrl (accountMap, globalFetch) (first :: others)
  = Ok state →
  Js.includes (url_of input) "jmap"
  || Js.includes (url_of input) (hostname sessionUrl) = true →
  Headers.has (Headers.new (init ≫= RequestInit.headers)) "Authorization"
  = true →
  ∃ headers post,
    Headers.get headers "Authorization"
    = Some ("Basic "
            +:+ Base64.btoa
                  (nth_piece
                     (Js.split_limit (AccountConfig.bearerToken first)
                        Js.colon 2) 0
                   +:+ ":"
                   +:+ nth_piece
                         (Js.split_limit (AccountConfig.bearerToken first)
                            Js.colon 2) 1))
    ∧ state.2 input init
      = let* response :=
          globalFetch input
            (Some (RequestInit.mk (init ≫= RequestInit.method)
                     (Some headers) (init ≫= RequestInit.body))) in
        Ok (post response).
Proof.
  intros Hbasic Hinit. cbn [initAccounts] in Hinit.
  destruct (initAccount hostname JSON_parse JSON_stringify getPrimaryAccount
    getSession sessionUrl (accountMap, globalFetch) first)
    as [state1|] eqn:H1; [|done]. cbn [bind] in Hinit.
  revert input init. eapply initAccounts_fetch; [|exact Hinit].
  destruct (initAccount_inv _ _ _ _ _ H1) as (info & -> & _).
  intros input init Hurl Hhas. cbn [snd]. unfold createJAMClient.
  cbn [JMAPConfig.bearerToken]. rewrite Hbasic. cbn [snd].
  destruct (patchedFetch_basic hostname JSON_parse JSON_stringify
              (JMAPConfig.mk sessionUrl (AccountConfig.bearerToken first)
                 (AccountConfig.accountId first))
              (nth_piece
                 (Js.split_limit (AccountConfig.bearerToken first)
                    Js.colon 2) 0)
              (nth_piece
                 (Js.split_limit (AccountConfig.bearerToken first)
                    Js.colon 2) 1)
              globalFetch input init Hurl Hhas) as (headers & Hget & ->).
  exists headers,
    (fun response =>
       if Js.includes (url_of input) "session"
          || Js.includes (url_of input) ".well-known/jmap"
       then fixSessionResponse JSON_parse JSON_stringify response
       else response).
  split; [done|].
  destruct (globalFetch input _) as [response|e]; simpl; [|done].
  by destruct (Js.includes (url_of input) "session"
               || Js.includes (url_of input) ".well-known/jmap").
Qed.

(** X6: a multi-account variable that holds white space only (blanks,
    tabs, empty lines) is not reported as a configuration error: it
    parses to no credential at all, and [createServer] then fails on
    [firstAccount.name] with a [TypeError]. *)
Theorem X6_blank_tokens_crash (env : Env) (sessionUrl blob : string)
    (globalFetch : Fetch) :
  env !! "JMAP_SESSION_URL" = Some sessionUrl →
  sessionUrl ≠ EmptyString →
  isUrl sessionUrl = true →
  env !! "JMAP_BEARER_TOKENS" = Some blob →
  blob ≠ EmptyString →
  allWhiteSpace blob = true →
  parseAccounts env = Ok []
  ∧ createServer hostname JSON_parse JSON_stringify isUrl invalidUrl
      getPrimaryAccount getSession env globalFetch
    = Throw (TypeError "Cannot read properties of undefined (reading 'name')").
Proof.
  intros Hurl Hne Hok Hblob Hblob_ne Hblank.
  assert (parseAccounts env = Ok []) as Hparse.
  { destruct blob as [|c blob]; [done|].
    rewrite (parseAccounts_multi _ _ _ Hblob).
    by rewrite (tokens_of_allWhiteSpace _ Hblank). }
  split; [done|].
  unfold createServer, getJMAPConfig. rewrite Hurl.
  destruct sessionUrl as [|c sessionUrl]; [done|].
  rewrite Hparse. cbn [bind]. rewrite Hok. reflexivity.
Qed.

Lemma initAccounts_keys sessionUrl accounts state state' :
  initAccounts hostname JSON_parse JSON_stringify getPrimaryAccount
    getSession sessionUrl state accounts = Ok state' →
  JsMap.keys state'.1
  = foldl remember (JsMap.keys state.1) (AccountConfig.name <$> accounts)
  ∧ (Forall (fun entry => AccountInfo.name entry.2 = entry.1) state.1 →
     Forall (fun entry => AccountInfo.name entry.2 = entry.1) state'.1).
Proof.
  revert state. induction accounts as [|accountConfig accounts IH];
    intros [accountMap fetch]; cbn [initAccounts].
  - by intros [= <-].
  - destruct (initAccount hostname JSON_parse JSON_stringify getPrimaryAccount
    getSession sessionUrl (accountMap, fetch) accountConfig)
      as [state1|] eqn:H1; [|done]. cbn [bind]. intros Hrest.
    destruct (IH _ Hrest) as [Hkeys Hnames].
    destruct (initAccount_inv _ _ _ _ _ H1) as (info & -> & Hname & _).
    cbn [fst] in *. split.
    + rewrite Hkeys. cbn. by rewrite JsMap_keys_set.
    + intros Hm. apply Hnames. clear -Hm Hname.
      induction Hm as [|[k v] m Hk Hm IH]; simpl.
      * by constructor.
      * destruct (String.eqb k (AccountConfig.name accountConfig));
          by constructor.
Qed.

Lemma remember_NoDup (seen : list string) (k : string) :
  NoDup seen → NoDup (remember seen k).
Proof.
  intros H. unfold remember.
  destruct (decide (k ∈ seen)) as [Hin|Hout].
  - by rewrite bool_decide_eq_true_2.
  - rewrite bool_decide_eq_false_2 by done.
    apply NoDup_app. split_and!; [done| |apply NoDup_singleton].
    intros x Hx ->%list_elem_of_singleton. done.
Qed.

Lemma foldl_remember_NoDup (names seen : list string) :
  NoDup seen → NoDup (foldl remember seen names).
Proof.
  revert seen. induction names as [|k names IH]; intros seen H; [done|].
  simpl. by apply IH, remember_NoDup.
Qed.

Lemma foldl_remember_elem (names seen : list string) (k : string) :
  k ∈ foldl remember seen names ↔ k ∈ seen ∨ k ∈ names.
Proof.
  revert seen. induction names as [|k' names IH]; intros seen; simpl.
  - rewrite elem_of_nil. tauto.
  - rewrite IH, elem_of_cons. unfold remember.
    destruct (decide (k' ∈ seen)) as [Hin|Hout].
    + rewrite bool_decide_eq_true_2 by done.
      split; [tauto|]. intros [?|[->|?]]; tauto.
    + rewrite bool_decide_eq_false_2 by done.
      rewrite elem_of_app, list_elem_of_singleton. tauto.
Qed.

Lemma foldl_remember_head (names seen : list string) (k : string) :
  ∃ rest, foldl remember (k :: seen) names = k :: rest.
Proof.
  revert seen. induction names as [|k' names IH]; intros seen; simpl.
  - by eexists.
  - unfold remember. destruct (bool_decide _); [apply IH|].
    apply (IH (seen ++ [k'])).
Qed.

(** X7: the registry of a server that started lists every configured
    account name once, in the order of first appearance in the
    configuration, and each entry carries its key as its name; a name
    configured twice therefore gives one entry. *)
Theorem X7_registry_keys (env : Env) (globalFetch : Fetch)
    (server : McpServer.t) :
  createServer hostname JSON_parse JSON_stringify isUrl invalidUrl
    getPrimaryAccount getSession env globalFetch = Ok server →
  ∃ accounts,
    parseAccounts env = Ok accounts
    ∧ JsMap.keys (McpServer.accountMap server)
      = foldl remember [] (AccountConfig.name <$> accounts)
    ∧ NoDup (JsMap.keys (McpServer.accountMap server))
    ∧ (∀ name,
         name ∈ JsMap.keys (McpServer.accountMap server)
         ↔ name ∈ AccountConfig.name <$> accounts)
    ∧ Forall (fun entry => AccountInfo.name entry.2 = entry.1)
        (McpServer.accountMap server).
Proof.
  unfold createServer, getJMAPConfig. intros Hstart.
  destruct (env !! "JMAP_SESSION_URL") as [[|c sessionUrl]|]; [done| |done].
  destruct (parseAccounts env) as [accounts|]; [|done].
  cbn [bind] in Hstart.
  destruct (isUrl _); [|done]. cbn [bind Config.sessionUrl Config.accounts]
    in Hstart.
  destruct (initAccounts hostname JSON_parse JSON_stringify getPrimaryAccount
    getSession _ _ _) as [state|] eqn:Hinit; [|done].
  cbn [bind] in Hstart.
  destruct (JsMap.values state.1) as [|firstAccount rest]; [done|].
  injection Hstart as <-. cbn [McpServer.accountMap].
  destruct (initAccounts_keys _ _ _ _ Hinit) as [Hkeys Hnames].
  cbn [fst] in Hkeys, Hnames. change (JsMap.keys []) with (@nil string) in Hkeys.
  exists accounts. split_and!; [done|done| | |by apply Hnames].
  - rewrite Hkeys. apply foldl_remember_NoDup, NoDup_nil_2.
  - intros name. rewrite Hkeys, foldl_remember_elem, elem_of_nil. tauto.
Qed.

(** X8: on a server that started, a call that names no account is
    served by the entry of the first configured credential. *)
Theorem X8_default_is_first_configured (env : Env) (globalFetch : Fetch)
    (server : McpServer.t) :
  createServer hostname JSON_parse JSON_stringify isUrl invalidUrl
    getPrimaryAccount getSession env globalFetch = Ok server →
  ∃ first others info,
    parseAccounts env = Ok (first :: others)
    ∧ getAccount (McpServer.accountMap server) None = Ok info
    ∧ AccountInfo.name info = AccountConfig.name first
    ∧ JsMap.get (McpServer.accountMap server) (AccountConfig.name first)
      = Some info.
Proof.
  unfold createServer, getJMAPConfig. intros Hstart.
  destruct (env !! "JMAP_SESSION_URL") as [[|c sessionUrl]|]; [done| |done].
  destruct (parseAccounts env) as [accounts|]; [|done].
  cbn [bind] in Hstart.
  destruct (isUrl _); [|done]. cbn [bind Config.sessionUrl Config.accounts]
    in Hstart.
  destruct (initAccounts hostname JSON_parse JSON_stringify getPrimaryAccount
    getSession _ _ _) as [state|] eqn:Hinit; [|done].
  cbn [bind] in Hstart.
  destruct (JsMap.values state.1) as [|firstAccount rest] eqn:Hvalues;
    [done|].
  injection Hstart as <-. cbn [McpServer.accountMap].
  destruct (initAccounts_keys _ _ _ _ Hinit) as [Hkeys Hnames].
  cbn [fst] in Hkeys, Hnames. change (JsMap.keys []) with (@nil string) in Hkeys.
  destruct accounts as [|first others].
  { cbn in Hkeys. destruct state.1; done. }
  exists first, others, firstAccount. split; [done|].
  cbn in Hkeys.
  destruct (foldl_remember_head (AccountConfig.name <$> others) []
              (AccountConfig.name first)) as [keys Hhead].
  change (remember [] (AccountConfig.name first))
    with [AccountConfig.name first] in Hkeys.
  rewrite Hhead in Hkeys.
  specialize (Hnames (Forall_nil_2 _)).
  destruct state.1 as [|[k v] m]; [done|].
  cbn in Hvalues, Hkeys. injection Hvalues as -> _. injection Hkeys as -> _.
  inversion_clear Hnames as [|? ? Hname _]. cbn in Hname.
  cbn. rewrite String.eqb_refl. by split_and!.
Qed.

(** X9: a server that started offers one of three sets of tools: the
    seven reading tools alone when every account is read-only; these
    and the three writing tools when some account is writable and none
    can submit; all fifteen when some account can submit. The submission
    tools never come without the writing tools, and the draft tools
    [create_draft] and [update_draft] come only with them. *)
Theorem X9_three_tool_sets (env : Env) (globalFetch : Fetch)
    (server : McpServer.t) :
  createServer hostname JSON_parse JSON_stringify isUrl invalidUrl
    getPrimaryAccount getSession env globalFetch = Ok server →
  (hasAnyWriteAccess (McpServer.accountMap server) = false
   ∧ hasAnySubmission (McpServer.accountMap server) = false
   ∧ McpServer.tools server
     = ["search_emails"; "get_mailboxes"; "get_emails"; "get_threads";
        "get_identities"; "get_inbox_summary"; "list_accounts"])
  ∨ (hasAnyWriteAccess (McpServer.accountMap server) = true
     ∧ hasAnySubmission (McpServer.accountMap server) = false
     ∧ McpServer.tools server
       = ["search_emails"; "get_mailboxes"; "get_emails"; "get_threads";
          "mark_emails"; "move_emails"; "delete_emails";
          "get_identities"; "get_inbox_summary"; "list_accounts"])
  ∨ (hasAnyWriteAccess (McpServer.accountMap server) = true
     ∧ hasAnySubmission (McpServer.accountMap server) = true
     ∧ McpServer.tools server
       = ["search_emails"; "get_mailboxes"; "get_emails"; "get_threads";
          "mark_emails"; "move_emails"; "delete_emails";
          "get_identities"; "get_inbox_summary"; "list_accounts";
          "send_email"; "reply_to_email"; "create_draft"; "update_draft";
          "send_draft"]).
Proof.
  unfold createServer. intros Hstart.
  destruct (getJMAPConfig _ _ _) as [config|]; [|done]. cbn [bind] in Hstart.
  destruct (initAccounts hostname JSON_parse JSON_stringify getPrimaryAccount
    getSession _ _ _) as [state|] eqn:Hinit; [|done].
  cbn [bind] in Hstart.
  destruct (JsMap.values state.1) as [|firstAccount others] eqn:Hvalues;
    [done|]. injection Hstart as <-.
  cbn [McpServer.accountMap McpServer.tools].
  apply initAccounts_submission_writable in Hinit; [|by constructor].
  assert (hasAnySubmission state.1 = true → hasAnyWriteAccess state.1 = true)
    as Himp.
  { unfold hasAnySubmission, hasAnyWriteAccess.
    rewrite !existsb_exists. intros (info & Hin & Hsub).
    exists info. split; [done|].
    rewrite Forall_forall in Hinit. apply list_elem_of_In in Hin.
    by rewrite (Hinit info Hin Hsub). }
  unfold registerEmailTools.
  destruct (hasAnySubmission state.1), (hasAnyWriteAccess state.1).
  - right. right. by split_and!.
  - by discriminate Himp.
  - right. left. by split_and!.
  - left. by split_and!.
Qed.

End StartupExtras.

Section RegistryExtras.

Variable hostname : string → string.
Variable JSON_parse : string → option Json.
Variable JSON_stringify : Json → string.
Variable isUrl : string → bool.
Variable invalidUrl : JsError.
Variable getPrimaryAccount : JamClient.t → Fetch → result string.
Variable getSession : JamClient.t → Fetch → result Session.t.

Lemma initAccounts_last_credential sessionUrl accounts state state' name info :
  initAccounts hostname JSON_parse JSON_stringify getPrimaryAccount
    getSession sessionUrl state accounts = Ok state' →
  JsMap.get state'.1 name = Some info →
  ((name ∉ (AccountConfig.name <$> accounts))
   ∧ JsMap.get state.1 name = Some info)
  ∨ ∃ before accountConfig after,
      accounts = before ++ accountConfig :: after
      ∧ AccountConfig.name accountConfig = name
      ∧ Forall (fun later => AccountConfig.name later ≠ name) after
      ∧ AccountInfo.jam info = jamOf sessionUrl accountConfig.
Proof.
  revert state. induction accounts as [|accountConfig accounts IH];
    intros [accountMap fetch]; cbn [initAccounts].
  - intros [= <-] Hget. left. split; [apply not_elem_of_nil|done].
  - destruct (initAccount hostname JSON_parse JSON_stringify getPrimaryAccount
    getSession sessionUrl (accountMap, fetch) accountConfig)
      as [state1|] eqn:H1; [|done]. cbn [bind]. intros Hrest Hget.
    destruct (initAccount_inv _ _ _ _ _ _ _ _ _ _ H1)
      as (info1 & -> & _ & Hjam).
    destruct (IH _ Hrest Hget) as [[Hout Hget1]|Hin].
    + cbn [fst] in Hget1.
      destruct (decide (name = AccountConfig.name accountConfig)) as [->|Hne].
      * rewrite JsMap_get_set in Hget1. injection Hget1 as <-.
        right. exists [], accountConfig, accounts.
        split_and!; [done|done| |done].
        apply Forall_forall. intros later Hlater Heq. apply Hout.
        rewrite <- Heq. by apply list_elem_of_fmap_2.
      * rewrite JsMap_get_set_other in Hget1 by done.
        left. split; [|done]. cbn. intros [?|?]%elem_of_cons; done.
    + destruct Hin as (before & cfg & after & -> & Hname & Hafter & Hjam').
      right. exists (accountConfig :: before), cfg, after. by split_and!.
Qed.

(** X20: a name configured twice gives one account, and it works with
    the credential configured last under that name: the client of every
    registered account is the one made from the last configured
    credential of its name. *)
Theorem X20_last_credential_of_a_name (env : Env) (globalFetch : Fetch)
    (server : McpServer.t) (name : string) (info : AccountInfo.t) :
  createServer hostname JSON_parse JSON_stringify isUrl invalidUrl
    getPrimaryAccount getSession env globalFetch = Ok server →
  JsMap.get (McpServer.accountMap server) name = Some info →
  ∃ sessionUrl before accountConfig after,
    env !! "JMAP_SESSION_URL" = Some sessionUrl
    ∧ parseAccounts env = Ok (before ++ accountConfig :: after)
    ∧ AccountConfig.name accountConfig = name
    ∧ Forall (fun later => AccountConfig.name later ≠ name) after
    ∧ AccountInfo.jam info = jamOf sessionUrl accountConfig.
Proof.
  unfold createServer, getJMAPConfig. intros Hstart Hget.
  destruct (env !! "JMAP_SESSION_URL") as [[|c sessionUrl]|]; [done| |done].
  destruct (parseAccounts env) as [accounts|]; [|done].
  cbn [bind] in Hstart.
  destruct (isUrl _); [|done]. cbn [bind Config.sessionUrl Config.accounts]
    in Hstart.
  destruct (initAccounts hostname JSON_parse JSON_stringify getPrimaryAccount
    getSession _ _ _) as [state|] eqn:Hinit; [|done].
  cbn [bind] in Hstart.
  destruct (JsMap.values state.1) as [|firstAccount rest]; [done|].
  injection Hstart as <-. cbn [McpServer.accountMap] in Hget.
  destruct (initAccounts_last_credential _ _ _ _ _ _ Hinit Hget)
    as [[_ Hempty]|(before & cfg & after & -> & Hname & Hafter & Hjam)];
    [done|].
  by exists (String c sessionUrl), before, cfg, after.
Qed.

Lemma parseAccounts_accountId (env : Env) accounts :
  parseAccounts env = Ok accounts →
  Forall (fun account => AccountConfig.accountId account = None) accounts.
Proof.
  unfold parseAccounts.
  destruct (env !! "JMAP_BEARER_TOKENS") as [[|c blob]|].
  2: { intros H%mapM_Ok.
       induction H as [|t account tokens accounts' Ht _ IH]; constructor;
         [|done].
       unfold parseToken in Ht. destruct (_ =? -1); [done|].
       destruct (negb _); [done|]. by injection Ht as <-. }
  all: destruct (env !! "JMAP_BEARER_TOKEN") as [[|c token]|]; try done;
    intros [= <-]; by repeat constructor.
Qed.

(** X21: on a server started from the environment, the account id of
    every registered account is the primary account its client was
    given at startup, in the turn of the last credential of its name
    and through the [fetch] in force in that turn: the credential
    parser never sets an account id, so the configured-id branch of the
    startup loop is never taken. *)
Theorem X21_account_id_is_the_primary_account (env : Env)
    (globalFetch : Fetch) (server : McpServer.t) (name : string)
    (info : AccountInfo.t) :
  createServer hostname JSON_parse JSON_stringify isUrl invalidUrl
    getPrimaryAccount getSession env globalFetch = Ok server →
  JsMap.get (McpServer.accountMap server) name = Some info →
  (∃ sessionUrl before accountConfig after,
     env !! "JMAP_SESSION_URL" = Some sessionUrl
     ∧ parseAccounts env = Ok (before ++ accountConfig :: after)
     ∧ AccountConfig.name accountConfig = name
     ∧ Forall (fun later => AccountConfig.name later ≠ name) after
     ∧ AccountConfig.accountId accountConfig = None
     ∧ AccountInfo.jam info = jamOf sessionUrl accountConfig
     ∧ getPrimaryAccount (AccountInfo.jam info)
         (fetchAfter hostname JSON_parse JSON_stringify sessionUrl
            globalFetch (before ++ [accountConfig]))
       = Ok (AccountInfo.accountId info))
  ∧ ∀ accounts,
      parseAccounts env = Ok accounts →
      Forall (fun account => AccountConfig.accountId account = None) accounts.
Proof.
  intros Hstart Hget. split; [|apply parseAccounts_accountId].
  revert Hstart. unfold createServer, getJMAPConfig.
  destruct (env !! "JMAP_SESSION_URL") as [[|c sessionUrl]|]; [done| |done].
  destruct (parseAccounts env) as [accounts|] eqn:Hparse; [|done].
  cbn [bind].
  destruct (isUrl _); [|done]. cbn [bind Config.sessionUrl Config.accounts].
  destruct (initAccounts hostname JSON_parse JSON_stringify getPrimaryAccount
    getSession _ _ _) as [state|] eqn:Hinit; [|done].
  cbn [bind].
  destruct (JsMap.values state.1) as [|firstAccount rest]; [done|].
  intros [= <-]. cbn [McpServer.accountMap] in Hget.
  destruct (initAccounts_registered _ _ _ _ _ _ _ _ _ _ _ Hinit Hget)
    as [[_ Hempty]
       |(before & cfg & after & -> & Hname & Hafter & Hjam & _ & Hid)];
    [done|].
  pose proof (parseAccounts_accountId env _ Hparse) as Hnone.
  apply Forall_app in Hnone as [_ Hnone].
  apply Forall_cons in Hnone as [Hnone _].
  rewrite Hnone in Hid. cbn [snd] in Hid.
  by exists (String c sessionUrl), before, cfg, after.
Qed.

End RegistryExtras.

(** ** Further properties of the tool handlers *)

Section ToolExtras.

Variable ServerState : Type.
Variable jmap :
  ∀ c : ApiCall, JamClient.t → ServerState →
    result (reply_of c) * ServerState.
Variable formatError : JsError → string.
Variable JSON_stringify2 : Json → string.
Variable ReadArgs : ReadTool → Type.
Variable read_body :
  ∀ tool : ReadTool,
    AccountInfo.t → ReadArgs tool → M ServerState ToolResult.t.

Implicit Types (accountMap : AccountMap) (w : World ServerState).

(** X10: every tool that writes turns a read-only account down, and
    every tool that submits turns down an account without submission,
    with the account's name in the error text; the server is not called
    and its state is as before. *)
Theorem X10_permission_checked_first accountMap (c : ToolCall ReadArgs)
    (account : AccountInfo.t) w :
  getAccount accountMap (requestedAccount ReadArgs c) = Ok account →
  (permission c = Some Write →
   AccountInfo.isReadOnly account = true →
   handle ServerState jmap formatError JSON_stringify2 ReadArgs read_body
     accountMap c w
   = (ToolResult.ofText
        (errorPrefix ReadArgs c
         +:+ formatError (Error (is_read_only (AccountInfo.name account)))),
      w))
  ∧ (permission c = Some Submission →
     AccountInfo.hasSubmission account = false →
     handle ServerState jmap formatError JSON_stringify2 ReadArgs read_body
       accountMap c w
     = (ToolResult.ofText
          (errorPrefix ReadArgs c
           +:+ formatError (Error (no_submission (AccountInfo.name account)))),
        w)).
Proof.
  intros Hget. split; intros Hperm Hflag;
    destruct c; try discriminate Hperm; simpl in Hget; simpl;
    unfold mark_emails, move_emails, delete_emails, send_email,
      reply_to_email, create_draft, update_draft, send_draft,
      catch, bindM, lift, when, throw;
    by rewrite Hget, Hflag.
Qed.

Ltac unfold_handlers :=
  unfold mark_emails, move_emails, delete_emails, send_email,
    reply_to_email, create_draft, update_draft, send_draft,
    body_required, fromAddress, catch, bindM, lift, when, throw, ret, call.

(** Runs a handler through: each method call and each test it makes is
    split into its outcomes, the innermost first. *)
Ltac run_handler :=
  repeat (cbn [fst snd calls server reply_of];
          match goal with
          | |- context [jmap ?c ?j ?s] => destruct (jmap c j s) as [[?|?] ?]
          | |- context [match ?x with _ => _ end] =>
              lazymatch x with
              | context [match _ with _ => _ end] => fail
              | _ => destruct x
              end
          end);
  cbn [fst snd calls server reply_of].

(** X11: a writing or submitting tool talks to the server only through
    the client of the account it resolved, and every method call it
    makes carries that account's id; it makes at most five calls, and
    none when the account does not resolve. *)
Theorem X11_calls_stay_in_the_account accountMap (c : ToolCall ReadArgs) w :
  permission c ≠ None →
  ∃ new : list (JamClient.t * ApiCall),
    calls ServerState
      (handle ServerState jmap formatError JSON_stringify2 ReadArgs read_body
         accountMap c w).2
    = new ++ calls ServerState w
    ∧ (length new ≤ 5)%nat
    ∧ (∀ e,
         getAccount accountMap (requestedAccount ReadArgs c) = Throw e →
         new = [])
    ∧ ∀ account,
        getAccount accountMap (requestedAccount ReadArgs c) = Ok account →
        Forall
          (fun entry =>
             entry.1 = AccountInfo.jam account
             ∧ accountId_of entry.2 = AccountInfo.accountId account)
          new.
Proof.
  intros Hperm.
  destruct c; try (by destruct Hperm); clear Hperm;
    cbn [handle requestedAccount];
    unfold_handlers;
    (destruct (getAccount accountMap _) as [account|e0];
     [|by exists []; split_and!; [done|simpl; lia|done|done]]);
    run_handler;
    first
      [ exists []; split; [reflexivity|]
      | eexists [_]; split; [reflexivity|]
      | eexists [_; _]; split; [reflexivity|]
      | eexists [_; _; _]; split; [reflexivity|]
      | eexists [_; _; _; _]; split; [reflexivity|]
      | eexists [_; _; _; _; _]; split; [reflexivity|] ];
    (split_and!;
     [simpl; lia | done | intros ? [= <-]; repeat constructor]).
Qed.

(** X12: against a server that acknowledges no [Email/set] (its reply
    lists nothing as created or updated), no tool ever calls
    [EmailSubmission/set], and each of the three sending tools answers
    with an error: a message is submitted only after the server has
    confirmed the draft. *)
Theorem X12_no_submission_unacknowledged accountMap (c : ToolCall ReadArgs) w :
  permission c ≠ None →
  (∀ accountId create update destroy jam s reply,
     (jmap (Email_set accountId create update destroy) jam s).1 = Ok reply →
     SetReply.created reply = None ∧ SetReply.updated reply = None) →
  List.filter (fun entry => submits entry.2)
    (calls ServerState
       (handle ServerState jmap formatError JSON_stringify2 ReadArgs
          read_body accountMap c w).2)
  = List.filter (fun entry => submits entry.2) (calls ServerState w)
  ∧ (permission c = Some Submission →
     ∃ e,
       (handle ServerState jmap formatError JSON_stringify2 ReadArgs
          read_body accountMap c w).1
       = ToolResult.ofText (errorPrefix ReadArgs c +:+ formatError e)).
Proof.
  intros Hperm Hnack.
  destruct c; try (by destruct Hperm); clear Hperm;
    cbn [handle requestedAccount errorPrefix permission];
    unfold_handlers;
    (destruct (getAccount accountMap _) as [account|e0];
     [|split; [done|intros _; by eexists]]);
    repeat (cbn [fst snd calls server reply_of mbind option_bind
                 from_option negb];
            match goal with
            | |- context [jmap (Email_set ?a ?cr ?u ?d) ?j ?s] =>
                let H := fresh "Hcall" in
                destruct (jmap (Email_set a cr u d) j s) as [[reply|?] ?]
                  eqn:H;
                [let Hc := fresh "Hcreated" in
                 let Hu := fresh "Hupdated" in
                 destruct (Hnack a cr u d j s reply) as [Hc Hu];
                 [by rewrite H|rewrite ?Hc, ?Hu]|]
            | |- context [jmap ?c ?j ?s] =>
                destruct (jmap c j s) as [[?|?] ?]
            | |- context [match ?x with _ => _ end] =>
                lazymatch x with
                | context [match _ with _ => _ end] => fail
                | _ => destruct x
                end
            end);
    cbn [fst snd calls server reply_of];
    (split; [done|intros Hs; try discriminate Hs; by eexists]).
Qed.

(** X13: on a writable account each of [mark_emails], [move_emails]
    and [delete_emails] makes one [Email/set] call and no other.
    Marking and moving create and destroy nothing: they update exactly
    the listed ids (an id listed twice counts once), each with a patch
    of one property, the keywords object holding the flags given in the
    call and no other key, or the mailbox set holding the target
    mailbox alone. Deleting sends the list of ids as it is and updates
    nothing. *)
Theorem X13_one_set_call accountMap (account : AccountInfo.t) w :
  AccountInfo.isReadOnly account = false →
  (∀ args : MarkEmailsArgs.t,
     getAccount accountMap (MarkEmailsArgs.account args) = Ok account →
     ∃ (updates : gmap string EmailCreate.t)
       (keywords : gmap string (option bool)),
       calls ServerState
         (mark_emails ServerState jmap formatError JSON_stringify2
            accountMap args w).2
       = (AccountInfo.jam account,
          Email_set (AccountInfo.accountId account) None (Some updates) None)
         :: calls ServerState w
       ∧ (∀ id,
            updates !! id
            = if decide (id ∈ MarkEmailsArgs.ids args)
              then Some (EmailCreate.mk None None None None None None
                           (Some keywords) None None None None)
              else None)
       ∧ keywords !! "$seen" = Some <$> MarkEmailsArgs.seen args
       ∧ keywords !! "$flagged" = Some <$> MarkEmailsArgs.flagged args
       ∧ ∀ key, key ≠ "$seen" → key ≠ "$flagged" → keywords !! key = None)
  ∧ (∀ args : MoveEmailsArgs.t,
       getAccount accountMap (MoveEmailsArgs.account args) = Ok account →
       ∃ updates : gmap string EmailCreate.t,
         calls ServerState
           (move_emails ServerState jmap formatError JSON_stringify2
              accountMap args w).2
         = (AccountInfo.jam account,
            Email_set (AccountInfo.accountId account) None (Some updates)
              None)
           :: calls ServerState w
         ∧ ∀ id,
             updates !! id
             = if decide (id ∈ MoveEmailsArgs.ids args)
               then Some (EmailCreate.mk
                            (Some {[MoveEmailsArgs.mailboxId args := true]})
                            None None None None None None None None None
                            None)
               else None)
  ∧ (∀ args : DeleteEmailsArgs.t,
       getAccount accountMap (DeleteEmailsArgs.account args) = Ok account →
       calls ServerState
         (delete_emails ServerState jmap formatError JSON_stringify2
            accountMap args w).2
       = (AccountInfo.jam account,
          Email_set (AccountInfo.accountId account) None None
            (Some (DeleteEmailsArgs.ids args)))
         :: calls ServerState w).
Proof.
  intros Hrw. split_and!.
  - intros args Hget.
    exists (mark_updates args),
      (mark_keywords (MarkEmailsArgs.seen args) (MarkEmailsArgs.flagged args)).
    split_and!.
    + unfold_handlers. rewrite Hget, Hrw.
      by destruct (jmap _ _ _) as [[result|e] s].
    + intros id. unfold mark_updates. rewrite foldl_insert_lookup.
      by rewrite lookup_empty.
    + unfold mark_keywords.
      destruct (MarkEmailsArgs.seen args), (MarkEmailsArgs.flagged args);
        by simplify_map_eq.
    + unfold mark_keywords.
      destruct (MarkEmailsArgs.seen args), (MarkEmailsArgs.flagged args);
        by simplify_map_eq.
    + intros key Hseen Hflagged. unfold mark_keywords.
      destruct (MarkEmailsArgs.seen args), (MarkEmailsArgs.flagged args);
        by simplify_map_eq.
  - intros args Hget. exists (move_updates args). split.
    + unfold_handlers. rewrite Hget, Hrw.
      by destruct (jmap _ _ _) as [[result|e] s].
    + intros id. unfold move_updates. rewrite foldl_insert_lookup.
      by rewrite lookup_empty.
  - intros args Hget. unfold_handlers. rewrite Hget, Hrw.
    by destruct (jmap _ _ _) as [[result|e] s].
Qed.

(** X14: the subject of a reply. A non-empty subject given in the call
    is used as it stands, and an empty one counts as none given. Without
    one, the reply takes the original subject when that starts with
    ["Re: "] (in this very spelling) and puts ["Re: "] before it
    otherwise; so the result always starts with ["Re: "], and replying
    to the reply adds nothing more. *)
Theorem X14_reply_subject (original : Email.t) (subject : string) :
  Email.subject original = Some subject →
  Js.startsWith (reply_subject None original) "Re: " = true
  ∧ (Js.startsWith subject "Re: " = true →
     reply_subject None original = subject)
  ∧ (Js.startsWith subject "Re: " = false →
     reply_subject None original = "Re: " +:+ subject)
  ∧ reply_subject None
      (Email.mk (Email.id original) (Some (reply_subject None original))
         (Email.from original) (Email.to original) (Email.cc original)
         (Email.replyTo original) (Email.references original))
    = reply_subject None original
  ∧ reply_subject (Some EmptyString) original = reply_subject None original
  ∧ ∀ c given, reply_subject (Some (String c given)) original
               = String c given.
Proof.
  intros H. unfold reply_subject. cbn [Email.subject]. rewrite H.
  assert (Js.startsWith ("Re: " +:+ subject) "Re: " = true) as Hre
    by apply startsWith_app.
  destruct (Js.startsWith subject "Re: ") eqn:Hs.
  - rewrite Hs. by split_and!.
  - rewrite Hre. by split_and!.
Qed.

End ToolExtras.

(** ** The search filter *)

Section FilterExtras.

Lemma omap_nil {A B} (f : A → option B) (l : list A) :
  omap f l = [] ↔ Forall (fun x => f x = None) l.
Proof.
  induction l as [|x l IH]; simpl.
  - split; [constructor|done].
  - destruct (f x) eqn:Hx.
    + split; [done|]. intros H. inversion H; congruence.
    + rewrite IH. split; [by constructor|]. by inversion 1.
Qed.

Lemma whenTruthy_cases (value : option string) :
  (whenTruthy value = None ∧ truthy_opt value = false)
  ∨ (whenTruthy value = value ∧ truthy_opt value = true).
Proof. destruct value as [[|c s]|]; simpl; auto. Qed.

Lemma whenTruthy_None (value : option string) :
  whenTruthy value = None ↔ truthy_opt value = false.
Proof. by destruct value as [[|c s]|]. Qed.

(** X15: [buildEmailFilter] gives no filter exactly when none of the
    twelve criteria of the call is a non-empty string; otherwise each
    field of the filter is the criterion given when that is a non-empty
    string, and is absent when the criterion is absent or empty ([text]
    stands for [query]). *)
Theorem X15_filter_of_the_given_criteria (args : SearchEmailsArgs.t) :
  (buildEmailFilter args = None
   ↔ Forall (fun given => truthy_opt given = false)
       [SearchEmailsArgs.query args; SearchEmailsArgs.from args;
        SearchEmailsArgs.to args; SearchEmailsArgs.subject args;
        SearchEmailsArgs.inMailbox args; SearchEmailsArgs.hasKeyword args;
        SearchEmailsArgs.notKeyword args; SearchEmailsArgs.before args;
        SearchEmailsArgs.after args;
        SearchEmailsArgs.allInThreadHaveKeyword args;
        SearchEmailsArgs.someInThreadHaveKeyword args;
        SearchEmailsArgs.body args])
  ∧ ∀ filter,
      buildEmailFilter args = Some filter →
      Forall2
        (fun field given =>
           (field = None ∧ truthy_opt given = false)
           ∨ (field = given ∧ truthy_opt given = true))
        [EmailFilterCondition.text filter; EmailFilterCondition.from filter;
         EmailFilterCondition.to filter; EmailFilterCondition.subject filter;
         EmailFilterCondition.inMailbox filter;
         EmailFilterCondition.hasKeyword filter;
         EmailFilterCondition.notKeyword filter;
         EmailFilterCondition.before filter;
         EmailFilterCondition.after filter;
         EmailFilterCondition.allInThreadHaveKeyword filter;
         EmailFilterCondition.someInThreadHaveKeyword filter;
         EmailFilterCondition.body filter]
        [SearchEmailsArgs.query args; SearchEmailsArgs.from args;
         SearchEmailsArgs.to args; SearchEmailsArgs.subject args;
         SearchEmailsArgs.inMailbox args; SearchEmailsArgs.hasKeyword args;
         SearchEmailsArgs.notKeyword args; SearchEmailsArgs.before args;
         SearchEmailsArgs.after args;
         SearchEmailsArgs.allInThreadHaveKeyword args;
         SearchEmailsArgs.someInThreadHaveKeyword args;
         SearchEmailsArgs.body args].
Proof.
  unfold buildEmailFilter.
  set (filter0 := EmailFilterCondition.mk _ _ _ _ _ _ _ _ _ _ _ _).
  split.
  - destruct (EmailFilterCondition.keys filter0) as [|key keys] eqn:Hkeys.
    + split; [intros _|done].
      apply omap_nil in Hkeys. unfold filter0 in Hkeys.
      cbn [EmailFilterCondition.text EmailFilterCondition.from
           EmailFilterCondition.to EmailFilterCondition.subject
           EmailFilterCondition.inMailbox EmailFilterCondition.hasKeyword
           EmailFilterCondition.notKeyword EmailFilterCondition.before
           EmailFilterCondition.after
           EmailFilterCondition.allInThreadHaveKeyword
           EmailFilterCondition.someInThreadHaveKeyword
           EmailFilterCondition.body] in Hkeys.
      repeat (apply Forall_cons in Hkeys as [?%fmap_None%whenTruthy_None Hkeys];
              cbn [snd] in * ).
      repeat (constructor; [done|]). constructor.
    + split; [done|]. intros Hall. exfalso.
      assert (EmailFilterCondition.keys filter0 = []) as Hnil; [|congruence].
      apply omap_nil. unfold filter0.
      cbn [EmailFilterCondition.text EmailFilterCondition.from
           EmailFilterCondition.to EmailFilterCondition.subject
           EmailFilterCondition.inMailbox EmailFilterCondition.hasKeyword
           EmailFilterCondition.notKeyword EmailFilterCondition.before
           EmailFilterCondition.after
           EmailFilterCondition.allInThreadHaveKeyword
           EmailFilterCondition.someInThreadHaveKeyword
           EmailFilterCondition.body].
      repeat (apply Forall_cons in Hall as [?%whenTruthy_None Hall]).
      repeat (constructor; [cbn [snd]; by apply fmap_None|]). constructor.
  - intros filter. destruct (0 <? _); [|done]. intros [= <-].
    unfold filter0.
    cbn [EmailFilterCondition.text EmailFilterCondition.from
         EmailFilterCondition.to EmailFilterCondition.subject
         EmailFilterCondition.inMailbox EmailFilterCondition.hasKeyword
         EmailFilterCondition.notKeyword EmailFilterCondition.before
         EmailFilterCondition.after
         EmailFilterCondition.allInThreadHaveKeyword
         EmailFilterCondition.someInThreadHaveKeyword
         EmailFilterCondition.body].
    repeat (constructor; [apply whenTruthy_cases|]). constructor.
Qed.

End FilterExtras.

(** ** The command-line client *)

Section JmapperExtras.

Lemma startsWith_refl (s : string) : Js.startsWith s s = true.
Proof. rewrite <- (app_empty_r s) at 1. apply startsWith_app. Qed.

Lemma substring_0_minus_1 (s : string) :
  Js.substring s 0 (-1) = EmptyString.
Proof.
  unfold Js.substring.
  replace (Z.min (Z.max 0 0) (Z.of_nat (String.length s))) with 0 by lia.
  replace (Z.min (Z.max (-1) 0) (Z.of_nat (String.length s))) with 0 by lia.
  reflexivity.
Qed.

(** X16: the command-line client takes every non-empty line of its
    token variable as an account, untrimmed and unchecked, and never
    rejects one: the secret is the line, and the name is what comes
    before its first [':'], or the empty string when the line holds no
    [':']. *)
Theorem X16_cli_takes_every_line (env : Env) (sessionUrl tokens : string) :
  env !! "JMAP_SESSION_URL" = Some sessionUrl →
  sessionUrl ≠ EmptyString →
  env !! "JMAP_BEARER_TOKENS" = Some tokens
  ∨ (truthy_opt (env !! "JMAP_BEARER_TOKENS") = false
     ∧ env !! "JMAP_BEARER_TOKEN" = Some tokens) →
  tokens ≠ EmptyString →
  ∃ config,
    Jmapper.getConfig env = Ok config
    ∧ Jmapper.Config.sessionUrl config = sessionUrl
    ∧ Jmapper.Account.token <$> Jmapper.Config.accounts config
      = List.filter Js.truthy (Js.split tokens Js.newline)
    ∧ Forall
        (fun account =>
           (Js.includes (Jmapper.Account.token account) ":" = false
            ∧ Jmapper.Account.name account = EmptyString)
           ∨ (Js.includes (Jmapper.Account.name account) ":" = false
              ∧ ∃ rest,
                  Jmapper.Account.token account
                  = Jmapper.Account.name account +:+ ":" +:+ rest))
        (Jmapper.Config.accounts config).
Proof.
  intros Hurl Hne Htokens Htokens_ne.
  assert (Jmapper.getConfig env
          = Ok (Jmapper.Config.mk sessionUrl
                  ((fun t =>
                      Jmapper.Account.mk
                        (Js.substring t 0 (Js.indexOf t ":")) t)
                     <$> List.filter Js.truthy (Js.split tokens Js.newline))))
    as ->.
  { unfold Jmapper.getConfig. rewrite Hurl.
    destruct sessionUrl as [|c sessionUrl]; [done|].
    destruct tokens as [|c' tokens]; [done|].
    destruct Htokens as [->|[Hmulti ->]]; [done|].
    by destruct (env !! "JMAP_BEARER_TOKENS") as [[|? ?]|]. }
  eexists. split; [reflexivity|]. split; [done|].
  cbn [Jmapper.Config.accounts].
  induction (List.filter Js.truthy (Js.split tokens Js.newline))
    as [|t l [IH1 IH2]]; [by split|].
  split; [cbn; by rewrite IH1|].
  constructor; [|done]. cbn [Jmapper.Account.token Jmapper.Account.name].
  destruct (Js.includes t ":") eqn:Hcolon.
  - right.
    destruct (indexOf_char_split _ _ Hcolon) as (before & after & -> & Hb & ->).
    rewrite substring_0, take_app. split; [done|]. by exists after.
  - left. split; [done|]. rewrite (indexOf_absent _ _ Hcolon).
    apply substring_0_minus_1.
Qed.

Lemma find_first {A} (f : A → bool) (l : list A) (x : A) :
  List.find f l = Some x →
  f x = true
  ∧ ∃ before after, l = before ++ x :: after
                    ∧ Forall (fun y => f y = false) before.
Proof.
  induction l as [|y l IH]; [done|]. simpl.
  destruct (f y) eqn:Hy.
  - intros [= <-]. split; [done|]. by exists [], l.
  - intros H. destruct (IH H) as (Hx & before & after & -> & Hb).
    split; [done|]. exists (y :: before), after. split; [done|].
    by constructor.
Qed.

Lemma find_nowhere {A} (f : A → bool) (l : list A) :
  List.find f l = None → Forall (fun y => f y = false) l.
Proof.
  induction l as [|y l IH]; [constructor|]. simpl.
  destruct (f y) eqn:Hy; [done|]. intros H. constructor; [done|by apply IH].
Qed.

(** X17: the account the command-line client works on when [-a name]
    is given. It is a configured account whose name starts with the
    given string: the first one named exactly so when there is one, and
    otherwise the first whose name has the string as a prefix. When no
    name starts with the string, the client stops with
    ["Account not found: "] and the string. *)
Theorem X17_cli_account_selection (config : Jmapper.Config.t)
    (accountName : string) :
  accountName ≠ EmptyString →
  match Jmapper.selectAccount config (Some accountName) with
  | Ok acct =>
      Js.startsWith (Jmapper.Account.name acct) accountName = true
      ∧ ∃ before after,
          Jmapper.Config.accounts config = before ++ acct :: after
          ∧ Forall (fun a => Jmapper.Account.name a ≠ accountName) before
          ∧ (Jmapper.Account.name acct = accountName
             ∨ (Forall (fun a => Jmapper.Account.name a ≠ accountName) after
                ∧ Forall
                    (fun a =>
                       Js.startsWith (Jmapper.Account.name a) accountName
                       = false)
                    before))
  | Throw e =>
      e = Error ("Account not found: " +:+ accountName)
      ∧ Forall
          (fun a => Js.startsWith (Jmapper.Account.name a) accountName = false)
          (Jmapper.Config.accounts config)
  end.
Proof.
  intros Hne. unfold Jmapper.selectAccount.
  destruct accountName as [|c n]; [done|].
  set (accountName := String c n) in *.
  destruct (find (fun a => String.eqb (Jmapper.Account.name a) accountName)
              (Jmapper.Config.accounts config)) as [exact|] eqn:Hexact.
  - destruct (find_first _ _ _ Hexact)
      as (Hname & before & after & Hsplit & Hbefore).
    apply String.eqb_eq in Hname. split.
    + rewrite Hname. apply startsWith_refl.
    + exists before, after. split_and!; [done| |by left].
      eapply Forall_impl; [exact Hbefore|].
      intros a Ha. by apply String.eqb_neq.
  - apply find_nowhere in Hexact.
    assert (Forall (fun a => Jmapper.Account.name a ≠ accountName)
              (Jmapper.Config.accounts config)) as Hnone.
    { eapply Forall_impl; [exact Hexact|].
      intros a Ha. by apply String.eqb_neq. }
    destruct (find (fun a => Js.startsWith (Jmapper.Account.name a) accountName)
                (Jmapper.Config.accounts config)) as [prefixed|] eqn:Hprefix.
    + destruct (find_first _ _ _ Hprefix)
        as (Hname & before & after & Hsplit & Hbefore).
      split; [done|]. exists before, after.
      rewrite Hsplit in Hnone. apply Forall_app in Hnone as [Hb Ha].
      apply Forall_cons in Ha as [_ Ha].
      split_and!; [done|done|]. right. by split.
    + split; [done|]. by apply find_nowhere.
Qed.

Lemma length_substring_0 (s : string) (n : Z) :
  (String.length (Js.substring s 0 n) ≤ Z.to_nat n)%nat.
Proof.
  unfold Js.substring. rewrite length_take. lia.
Qed.

Lemma length_spaces (n : nat) : String.length (Jmapper.spaces n) = n.
Proof. induction n as [|n IH]; [done|]. simpl. by rewrite IH. Qed.

Lemma length_padEnd (s : string) (n : nat) :
  String.length (Jmapper.padEnd s n) = Nat.max (String.length s) n.
Proof.
  unfold Jmapper.padEnd. rewrite length_app, length_spaces. lia.
Qed.

(** X18: whatever the server sends, a line of a listing stays short.
    The flags column is two characters wide, and the sender, subject,
    date and id are cut to 40, 60, 10 and 12 characters; so the
    tab-separated and the compact line have at most 128 characters and
    the three-line form at most 148; the preview line has at most 106
    and is empty when there is no preview. *)
Theorem X18_listing_lines_are_bounded (e : Jmapper.Email.t) :
  (String.length (Jmapper.fmtEmail e Jmapper.tsv) ≤ 128)%nat
  ∧ (String.length (Jmapper.fmtEmail e Jmapper.compact) ≤ 128)%nat
  ∧ (String.length (Jmapper.fmtEmail e Jmapper.human) ≤ 148)%nat
  ∧ (String.length (Jmapper.fmtPreview e) ≤ 106)%nat
  ∧ (truthy_opt (Jmapper.Email.preview e) = false →
     Jmapper.fmtPreview e = EmptyString).
Proof.
  assert (∀ s n, (String.length (Js.substring s 0 (Z.of_nat n)) ≤ n)%nat)
    as Hcut.
  { intros s n. pose proof (length_substring_0 s (Z.of_nat n)). lia. }
  pose proof (Hcut (Jmapper.orElse
                      (Address.email <$> (Jmapper.Email.from e ≫= head)) "?")
                40%nat) as Hfrom.
  pose proof (Hcut (Jmapper.orElse (Jmapper.Email.subject e) "(no subject)")
                60%nat) as Hsubj.
  pose proof (Hcut (Jmapper.orElse (Jmapper.Email.receivedAt e) EmptyString)
                10%nat) as Hdate.
  pose proof (Hcut (Jmapper.Email.id e) 12%nat) as Hid.
  pose proof (Hcut (Jmapper.orElse (Jmapper.Email.preview e) EmptyString)
                100%nat) as Hpreview.
  change (Z.of_nat 40) with 40 in Hfrom.
  change (Z.of_nat 60) with 60 in Hsubj.
  change (Z.of_nat 10) with 10 in Hdate.
  change (Z.of_nat 12) with 12 in Hid.
  change (Z.of_nat 100) with 100 in Hpreview.
  assert (String.length
            (Jmapper.padEnd
               ((if Jmapper.hasKeyword e "$seen" then EmptyString else "*")
                +:+ (if Jmapper.hasKeyword e "$flagged" then "!"
                     else EmptyString)) 2) = 2%nat) as Hflags.
  { by destruct (Jmapper.hasKeyword e "$seen"),
         (Jmapper.hasKeyword e "$flagged"). }
  unfold Jmapper.fmtEmail, Jmapper.fmtPreview, Jmapper.tab, Js.LF.
  split_and!.
  - rewrite !length_app, Hflags. cbn [String.length]. lia.
  - rewrite !length_app, Hflags, length_padEnd. cbn [String.length]. lia.
  - rewrite !length_app, Hflags. cbn [String.length]. lia.
  - destruct (Js.truthy _); [|cbn; lia].
    rewrite !length_app. cbn [String.length]. lia.
  - intros Hnone.
    destruct (Jmapper.Email.preview e) as [[|c p]|]; done.
Qed.

Lemma parseOptions_positional (n : nat) :
  ∀ (args : list string) (options : Jmapper.Options.t),
    (length args ≤ n)%nat →
    ∃ kept,
      Jmapper.Options.positional (Jmapper.parseOptions args options)
      = Jmapper.Options.positional options ++ kept
      ∧ sublist kept args
      ∧ Forall (fun p => p ≠ "-c" ∧ p ≠ "-t" ∧ p ≠ "--tsv") kept
      ∧ (Forall (fun p => p ∉ ["-a"; "-c"; "-t"; "--tsv"]) args →
         Jmapper.parseOptions args options
         = Jmapper.Options.mk (Jmapper.Options.account options)
             (Jmapper.Options.fmt options)
             (Jmapper.Options.positional options ++ args)).
Proof.
  induction n as [|n IH]; intros args options Hlen.
  - destruct args; [|simpl in Hlen; lia]. exists []. simpl.
    rewrite app_nil_r. split_and!; [done|done|constructor|].
    intros _. by destruct options.
  - destruct args as [|arg rest].
    { exists []. simpl. rewrite app_nil_r.
      split_and!; [done|done|constructor|]. intros _. by destruct options. }
    simpl in Hlen.
    assert (∀ options',
              Jmapper.Options.positional options'
              = Jmapper.Options.positional options ++ [arg] →
              Jmapper.Options.account options'
              = Jmapper.Options.account options →
              Jmapper.Options.fmt options' = Jmapper.Options.fmt options →
              arg ≠ "-c" → arg ≠ "-t" → arg ≠ "--tsv" →
              ∃ kept,
                Jmapper.Options.positional (Jmapper.parseOptions rest options')
                = Jmapper.Options.positional options ++ kept
                ∧ sublist kept (arg :: rest)
                ∧ Forall (fun p => p ≠ "-c" ∧ p ≠ "-t" ∧ p ≠ "--tsv") kept
                ∧ (Forall (fun p => p ∉ ["-a"; "-c"; "-t"; "--tsv"])
                     (arg :: rest) →
                   Jmapper.parseOptions rest options'
                   = Jmapper.Options.mk (Jmapper.Options.account options)
                       (Jmapper.Options.fmt options)
                       (Jmapper.Options.positional options ++ arg :: rest)))
      as Hkeep.
    { intros options' Hpos Hacc Hfmt H1 H2 H3.
      destruct (IH rest options') as (kept & Hk & Hsub & Hall & Hplain);
        [lia|].
      exists (arg :: kept). rewrite Hk, Hpos, <- app_assoc.
      split_and!; [done|by constructor|by constructor|].
      intros Hargs. apply Forall_cons in Hargs as [_ Hargs].
      rewrite (Hplain Hargs), Hpos, Hacc, Hfmt, <- app_assoc. done. }
    assert (∀ options',
              Jmapper.Options.positional options'
              = Jmapper.Options.positional options →
              ∀ rest', sublist rest' rest → (length rest' ≤ n)%nat →
              arg ∈ ["-a"; "-c"; "-t"; "--tsv"] →
              ∃ kept,
                Jmapper.Options.positional
                  (Jmapper.parseOptions rest' options')
                = Jmapper.Options.positional options ++ kept
                ∧ sublist kept (arg :: rest)
                ∧ Forall (fun p => p ≠ "-c" ∧ p ≠ "-t" ∧ p ≠ "--tsv") kept
                ∧ (Forall (fun p => p ∉ ["-a"; "-c"; "-t"; "--tsv"])
                     (arg :: rest) →
                   Jmapper.parseOptions rest' options'
                   = Jmapper.Options.mk (Jmapper.Options.account options)
                       (Jmapper.Options.fmt options)
                       (Jmapper.Options.positional options ++ arg :: rest)))
      as Hdrop.
    { intros options' Hpos rest' Hrest Hlen' Hflag.
      destruct (IH rest' options') as (kept & Hk & Hsub & Hall & _); [lia|].
      exists kept. rewrite Hk, Hpos.
      split_and!; [done| |done|].
      - apply sublist_cons. by etrans.
      - intros Hargs. apply Forall_cons in Hargs as [Hargs _]. done. }
    cbn [Jmapper.parseOptions].
    destruct (String.eqb_spec arg "-a") as [->|Ha].
    + destruct rest as [|[|c value] rest'].
      * apply Hkeep; done.
      * apply Hkeep; done.
      * apply Hdrop; [done| |simpl in Hlen; lia|set_solver].
        by apply sublist_cons.
    + destruct (String.eqb_spec arg "-c") as [->|Hc].
      { apply Hdrop; [done|done|lia|set_solver]. }
      destruct (String.eqb_spec arg "-t") as [->|Ht].
      { apply Hdrop; [done|done|lia|set_solver]. }
      destruct (String.eqb_spec arg "--tsv") as [->|Htsv].
      { apply Hdrop; [done|done|lia|set_solver]. }
      cbn [orb]. apply Hkeep; done.
Qed.

(** X19: the option loop of the command-line client. The positional
    arguments are arguments of the command line in their order, and
    none of them is a format flag ([-c], [-t], [--tsv]); a command line
    without [-a] and without a format flag is positional as a whole,
    with the three-line format and no account chosen. *)
Theorem X19_cli_positional_arguments (args : list string) :
  sublist
    (Jmapper.Options.positional (Jmapper.parseOptions args Jmapper.noOptions))
    args
  ∧ Forall (fun p => p ≠ "-c" ∧ p ≠ "-t" ∧ p ≠ "--tsv")
      (Jmapper.Options.positional
         (Jmapper.parseOptions args Jmapper.noOptions))
  ∧ (Forall (fun p => p ∉ ["-a"; "-c"; "-t"; "--tsv"]) args →
     Jmapper.parseOptions args Jmapper.noOptions
     = Jmapper.Options.mk None Jmapper.human args).
Proof.
  destruct (parseOptions_positional (length args) args Jmapper.noOptions)
    as (kept & Hk & Hsub & Hall & Hplain); [done|].
  rewrite Hk. split_and!; done.
Qed.

End JmapperExtras.

(** ** The further properties at work *)

Lemma X1_parsed_accounts_well_formed_witness :
  AccountConfig.bearerToken <$> [Sample.aliceConfig; Sample.bobConfig]
  = tokens_of ("alice:pw1" +:+ Js.LF +:+ "bob:pw2")
  ∧ Forall
      (fun account =>
         AccountConfig.accountId account = None
         ∧ AccountConfig.name account ≠ EmptyString
         ∧ Js.includes (AccountConfig.name account) ":" = false
         ∧ ∃ rest,
             AccountConfig.bearerToken account
             = AccountConfig.name account +:+ ":" +:+ rest)
      [Sample.aliceConfig; Sample.bobConfig].
Proof.
  apply (X1_parsed_accounts_well_formed Example.env "a"
           ("lice:pw1" +:+ Js.LF +:+ "bob:pw2")); reflexivity.
Defined.

Lemma X2_single_token_fallback_witness :
  ∃ name,
    parseAccounts {[ "JMAP_BEARER_TOKEN" := " tok:en " ]}
    = Ok [AccountConfig.mk name " tok:en " None]
    ∧ (Js.includes " tok:en " ":" = false → name = "default")
    ∧ (∀ before after,
         " tok:en " = before +:+ ":" +:+ after →
         Js.includes before ":" = false →
         name = before).
Proof.
  apply (X2_single_token_fallback {[ "JMAP_BEARER_TOKEN" := " tok:en " ]}
           " tok:en "); [reflexivity|reflexivity|discriminate].
Defined.

Lemma X3_adapter_changes_only_authorization_witness :
  ∃ headers,
    patchedFetch Example.hostname Example.JSON_parse Example.JSON_stringify
      (JMAPConfig.mk Example.sessionUrl "alice:pw1" None) "alice" "pw1"
      Example.offline Sample.apiRequest Sample.apiInit
    = (let* response :=
         Example.offline Sample.apiRequest
           (Some (RequestInit.mk (Sample.apiInit ≫= RequestInit.method)
                    (Some headers) (Sample.apiInit ≫= RequestInit.body))) in
       if Js.includes (url_of Sample.apiRequest) "session"
          || Js.includes (url_of Sample.apiRequest) ".well-known/jmap"
       then Ok (fixSessionResponse Example.JSON_parse Example.JSON_stringify
                  response)
       else Ok response)
    ∧ (∀ name,
         Headers.lowercase name ≠ "authorization" →
         Headers.get headers name
         = Headers.get (Headers.new (Sample.apiInit ≫= RequestInit.headers))
             name)
    ∧ Headers.get headers "Authorization"
      = if Headers.has (Headers.new (Sample.apiInit ≫= RequestInit.headers))
             "Authorization"
        then Some ("Basic " +:+ Base64.btoa ("alice" +:+ ":" +:+ "pw1"))
        else None.
Proof.
  apply (X3_adapter_changes_only_authorization Example.hostname
           Example.JSON_parse Example.JSON_stringify
           (JMAPConfig.mk Example.sessionUrl "alice:pw1" None) "alice" "pw1"
           Example.offline Sample.apiRequest Sample.apiInit).
  reflexivity.
Defined.

Lemma X5_first_credential_on_every_request_witness :
  ∃ headers post,
    Headers.get headers "Authorization"
    = Some ("Basic " +:+ Base64.btoa ("alice" +:+ ":" +:+ "pw1"))
    ∧ (createJAMClient Example.hostname Example.JSON_parse
         Example.JSON_stringify
         (JMAPConfig.mk Example.sessionUrl "bob:pw2" None)
         (createJAMClient Example.hostname Example.JSON_parse
            Example.JSON_stringify
            (JMAPConfig.mk Example.sessionUrl "alice:pw1" None)
            Example.offline).2).2
        Sample.apiRequest Sample.apiInit
      = let* response :=
          Example.offline Sample.apiRequest
            (Some (RequestInit.mk (Sample.apiInit ≫= RequestInit.method)
                     (Some headers) (Sample.apiInit ≫= RequestInit.body))) in
        Ok (post response).
Proof.
  apply (X5_first_credential_on_every_request Example.hostname
           Example.JSON_parse Example.JSON_stringify
           Example.getPrimaryAccount Example.getSession Example.sessionUrl
           Sample.aliceConfig [Sample.bobConfig] [] Example.offline
           (Example.accountMap,
            (createJAMClient Example.hostname Example.JSON_parse
               Example.JSON_stringify
               (JMAPConfig.mk Example.sessionUrl "bob:pw2" None)
               (createJAMClient Example.hostname Example.JSON_parse
                  Example.JSON_stringify
                  (JMAPConfig.mk Example.sessionUrl "alice:pw1" None)
                  Example.offline).2).2)
           Sample.apiRequest Sample.apiInit); reflexivity.
Defined.

Lemma X6_blank_tokens_crash_witness :
  parseAccounts Sample.blank_env = Ok []
  ∧ createServer Example.hostname Example.JSON_parse Example.JSON_stringify
      Example.isUrl Example.invalidUrl Example.getPrimaryAccount
      Example.getSession Sample.blank_env Example.offline
    = Throw (TypeError "Cannot read properties of undefined (reading 'name')").
Proof.
  apply (X6_blank_tokens_crash Example.hostname Example.JSON_parse
           Example.JSON_stringify Example.isUrl Example.invalidUrl
           Example.getPrimaryAccount Example.getSession Sample.blank_env
           Example.sessionUrl ("  " +:+ Js.LF +:+ " ") Example.offline);
    try reflexivity; discriminate.
Defined.

Lemma X7_registry_keys_witness :
  ∃ accounts,
    parseAccounts Example.env = Ok accounts
    ∧ JsMap.keys (McpServer.accountMap Sample.server)
      = foldl remember [] (AccountConfig.name <$> accounts)
    ∧ NoDup (JsMap.keys (McpServer.accountMap Sample.server))
    ∧ (∀ name,
         name ∈ JsMap.keys (McpServer.accountMap Sample.server)
         ↔ name ∈ AccountConfig.name <$> accounts)
    ∧ Forall (fun entry => AccountInfo.name entry.2 = entry.1)
        (McpServer.accountMap Sample.server).
Proof.
  apply (X7_registry_keys Example.hostname Example.JSON_parse
           Example.JSON_stringify Example.isUrl Example.invalidUrl
           Example.getPrimaryAccount Example.getSession Example.env
           Example.offline Sample.server).
  vm_compute. reflexivity.
Defined.

Lemma X8_default_is_first_configured_witness :
  ∃ first others info,
    parseAccounts Example.env = Ok (first :: others)
    ∧ getAccount (McpServer.accountMap Sample.server) None = Ok info
    ∧ AccountInfo.name info = AccountConfig.name first
    ∧ JsMap.get (McpServer.accountMap Sample.server)
        (AccountConfig.name first)
      = Some info.
Proof.
  apply (X8_default_is_first_configured Example.hostname Example.JSON_parse
           Example.JSON_stringify Example.isUrl Example.invalidUrl
           Example.getPrimaryAccount Example.getSession Example.env
           Example.offline Sample.server).
  vm_compute. reflexivity.
Defined.

Lemma X9_three_tool_sets_witness :
  (hasAnyWriteAccess (McpServer.accountMap Sample.server) = false
   ∧ hasAnySubmission (McpServer.accountMap Sample.server) = false
   ∧ McpServer.tools Sample.server
     = ["search_emails"; "get_mailboxes"; "get_emails"; "get_threads";
        "get_identities"; "get_inbox_summary"; "list_accounts"])
  ∨ (hasAnyWriteAccess (McpServer.accountMap Sample.server) = true
     ∧ hasAnySubmission (McpServer.accountMap Sample.server) = false
     ∧ McpServer.tools Sample.server
       = ["search_emails"; "get_mailboxes"; "get_emails"; "get_threads";
          "mark_emails"; "move_emails"; "delete_emails";
          "get_identities"; "get_inbox_summary"; "list_accounts"])
  ∨ (hasAnyWriteAccess (McpServer.accountMap Sample.server) = true
     ∧ hasAnySubmission (McpServer.accountMap Sample.server) = true
     ∧ McpServer.tools Sample.server
       = ["search_emails"; "get_mailboxes"; "get_emails"; "get_threads";
          "mark_emails"; "move_emails"; "delete_emails";
          "get_identities"; "get_inbox_summary"; "list_accounts";
          "send_email"; "reply_to_email"; "create_draft"; "update_draft";
          "send_draft"]).
Proof.
  apply (X9_three_tool_sets Example.hostname Example.JSON_parse
           Example.JSON_stringify Example.isUrl Example.invalidUrl
           Example.getPrimaryAccount Example.getSession Example.env
           Example.offline Sample.server).
  vm_compute. reflexivity.
Defined.

Lemma X10_permission_checked_first_witness :
  (permission (call_send_email Example.ReadArgs (Sample.hello (Some "bob")))
   = Some Write →
   AccountInfo.isReadOnly Example.bob = true →
   handle nat Example.jmap Example.formatError Example.JSON_stringify2
     Example.ReadArgs Example.read_body Example.accountMap
     (call_send_email Example.ReadArgs (Sample.hello (Some "bob")))
     Example.world
   = (ToolResult.ofText
        (errorPrefix Example.ReadArgs
           (call_send_email Example.ReadArgs (Sample.hello (Some "bob")))
         +:+ Example.formatError
               (Error (is_read_only (AccountInfo.name Example.bob)))),
      Example.world))
  ∧ (permission (call_send_email Example.ReadArgs (Sample.hello (Some "bob")))
     = Some Submission →
     AccountInfo.hasSubmission Example.bob = false →
     handle nat Example.jmap Example.formatError Example.JSON_stringify2
       Example.ReadArgs Example.read_body Example.accountMap
       (call_send_email Example.ReadArgs (Sample.hello (Some "bob")))
       Example.world
     = (ToolResult.ofText
          (errorPrefix Example.ReadArgs
             (call_send_email Example.ReadArgs (Sample.hello (Some "bob")))
           +:+ Example.formatError
                 (Error (no_submission (AccountInfo.name Example.bob)))),
        Example.world)).
Proof.
  apply (X10_permission_checked_first nat Example.jmap Example.formatError
           Example.JSON_stringify2 Example.ReadArgs Example.read_body
           Example.accountMap
           (call_send_email Example.ReadArgs (Sample.hello (Some "bob")))
           Example.bob Example.world).
  reflexivity.
Defined.

Lemma X11_calls_stay_in_the_account_witness :
  ∃ new : list (JamClient.t * ApiCall),
    calls nat
      (handle nat Example.jmap Example.formatError Example.JSON_stringify2
         Example.ReadArgs Example.read_body Example.accountMap
         (call_send_email Example.ReadArgs (Sample.hello None))
         Example.world).2
    = new ++ calls nat Example.world
    ∧ (length new ≤ 5)%nat
    ∧ (∀ e,
         getAccount Example.accountMap
           (requestedAccount Example.ReadArgs
              (call_send_email Example.ReadArgs (Sample.hello None)))
         = Throw e →
         new = [])
    ∧ ∀ account,
        getAccount Example.accountMap
          (requestedAccount Example.ReadArgs
             (call_send_email Example.ReadArgs (Sample.hello None)))
        = Ok account →
        Forall
          (fun entry =>
             entry.1 = AccountInfo.jam account
             ∧ accountId_of entry.2 = AccountInfo.accountId account)
          new.
Proof.
  apply (X11_calls_stay_in_the_account nat Example.jmap Example.formatError
           Example.JSON_stringify2 Example.ReadArgs Example.read_body
           Example.accountMap
           (call_send_email Example.ReadArgs (Sample.hello None))
           Example.world).
  discriminate.
Defined.

Lemma X12_no_submission_unacknowledged_witness :
  List.filter (fun entry => submits entry.2)
    (calls nat
       (handle nat Example.jmap Example.formatError Example.JSON_stringify2
          Example.ReadArgs Example.read_body Example.accountMap
          (call_send_email Example.ReadArgs (Sample.hello None))
          Example.world).2)
  = List.filter (fun entry => submits entry.2) (calls nat Example.world)
  ∧ (permission (call_send_email Example.ReadArgs (Sample.hello None))
     = Some Submission →
     ∃ e,
       (handle nat Example.jmap Example.formatError Example.JSON_stringify2
          Example.ReadArgs Example.read_body Example.accountMap
          (call_send_email Example.ReadArgs (Sample.hello None))
          Example.world).1
       = ToolResult.ofText
           (errorPrefix Example.ReadArgs
              (call_send_email Example.ReadArgs (Sample.hello None))
            +:+ Example.formatError e)).
Proof.
  apply (X12_no_submission_unacknowledged nat Example.jmap Example.formatError
           Example.JSON_stringify2 Example.ReadArgs Example.read_body
           Example.accountMap
           (call_send_email Example.ReadArgs (Sample.hello None))
           Example.world).
  - discriminate.
  - intros accountId create update destroy jam s reply [= <-].
    split; reflexivity.
Defined.

Lemma X13_one_set_call_witness :
  (∀ args : MarkEmailsArgs.t,
     getAccount Example.accountMap (MarkEmailsArgs.account args)
     = Ok Example.alice →
     ∃ (updates : gmap string EmailCreate.t)
       (keywords : gmap string (option bool)),
       calls nat
         (mark_emails nat Example.jmap Example.formatError
            Example.JSON_stringify2 Example.accountMap args Example.world).2
       = (AccountInfo.jam Example.alice,
          Email_set (AccountInfo.accountId Example.alice) None (Some updates)
            None)
         :: calls nat Example.world
       ∧ (∀ id,
            updates !! id
            = if decide (id ∈ MarkEmailsArgs.ids args)
              then Some (EmailCreate.mk None None None None None None
                           (Some keywords) None None None None)
              else None)
       ∧ keywords !! "$seen" = Some <$> MarkEmailsArgs.seen args
       ∧ keywords !! "$flagged" = Some <$> MarkEmailsArgs.flagged args
       ∧ ∀ key, key ≠ "$seen" → key ≠ "$flagged" → keywords !! key = None)
  ∧ (∀ args : MoveEmailsArgs.t,
       getAccount Example.accountMap (MoveEmailsArgs.account args)
       = Ok Example.alice →
       ∃ updates : gmap string EmailCreate.t,
         calls nat
           (move_emails nat Example.jmap Example.formatError
              Example.JSON_stringify2 Example.accountMap args
              Example.world).2
         = (AccountInfo.jam Example.alice,
            Email_set (AccountInfo.accountId Example.alice) None
              (Some updates) None)
           :: calls nat Example.world
         ∧ ∀ id,
             updates !! id
             = if decide (id ∈ MoveEmailsArgs.ids args)
               then Some (EmailCreate.mk
                            (Some {[MoveEmailsArgs.mailboxId args := true]})
                            None None None None None None None None None
                            None)
               else None)
  ∧ (∀ args : DeleteEmailsArgs.t,
       getAccount Example.accountMap (DeleteEmailsArgs.account args)
       = Ok Example.alice →
       calls nat
         (delete_emails nat Example.jmap Example.formatError
            Example.JSON_stringify2 Example.accountMap args Example.world).2
       = (AccountInfo.jam Example.alice,
          Email_set (AccountInfo.accountId Example.alice) None None
            (Some (DeleteEmailsArgs.ids args)))
         :: calls nat Example.world).
Proof.
  apply (X13_one_set_call nat Example.jmap Example.formatError
           Example.JSON_stringify2 Example.accountMap Example.alice
           Example.world).
  reflexivity.
Defined.

Lemma X14_reply_subject_witness :
  Js.startsWith (reply_subject None Sample.original) "Re: " = true
  ∧ (Js.startsWith "Lunch?" "Re: " = true →
     reply_subject None Sample.original = "Lunch?")
  ∧ (Js.startsWith "Lunch?" "Re: " = false →
     reply_subject None Sample.original = "Re: " +:+ "Lunch?")
  ∧ reply_subject None
      (Email.mk (Email.id Sample.original)
         (Some (reply_subject None Sample.original))
         (Email.from Sample.original) (Email.to Sample.original)
         (Email.cc Sample.original) (Email.replyTo Sample.original)
         (Email.references Sample.original))
    = reply_subject None Sample.original
  ∧ reply_subject (Some EmptyString) Sample.original
    = reply_subject None Sample.original
  ∧ ∀ c given, reply_subject (Some (String c given)) Sample.original
               = String c given.
Proof.
  apply (X14_reply_subject Sample.original "Lunch?"). reflexivity.
Defined.

Lemma X16_cli_takes_every_line_witness :
  ∃ config,
    Jmapper.getConfig Example.env = Ok config
    ∧ Jmapper.Config.sessionUrl config = Example.sessionUrl
    ∧ Jmapper.Account.token <$> Jmapper.Config.accounts config
      = List.filter Js.truthy
          (Js.split ("alice:pw1" +:+ Js.LF +:+ "bob:pw2") Js.newline)
    ∧ Forall
        (fun account =>
           (Js.includes (Jmapper.Account.token account) ":" = false
            ∧ Jmapper.Account.name account = EmptyString)
           ∨ (Js.includes (Jmapper.Account.name account) ":" = false
              ∧ ∃ rest,
                  Jmapper.Account.token account
                  = Jmapper.Account.name account +:+ ":" +:+ rest))
        (Jmapper.Config.accounts config).
Proof.
  apply (X16_cli_takes_every_line Example.env Example.sessionUrl
           ("alice:pw1" +:+ Js.LF +:+ "bob:pw2"));
    [reflexivity|discriminate|left; reflexivity|discriminate].
Defined.

Lemma X17_cli_account_selection_witness :
  match Jmapper.selectAccount Sample.cliConfig (Some "bo") with
  | Ok acct =>
      Js.startsWith (Jmapper.Account.name acct) "bo" = true
      ∧ ∃ before after,
          Jmapper.Config.accounts Sample.cliConfig = before ++ acct :: after
          ∧ Forall (fun a => Jmapper.Account.name a ≠ "bo") before
          ∧ (Jmapper.Account.name acct = "bo"
             ∨ (Forall (fun a => Jmapper.Account.name a ≠ "bo") after
                ∧ Forall
                    (fun a =>
                       Js.startsWith (Jmapper.Account.name a) "bo" = false)
                    before))
  | Throw e =>
      e = Error ("Account not found: " +:+ "bo")
      ∧ Forall
          (fun a => Js.startsWith (Jmapper.Account.name a) "bo" = false)
          (Jmapper.Config.accounts Sample.cliConfig)
  end.
Proof.
  apply (X17_cli_account_selection Sample.cliConfig "bo"). discriminate.
Defined.

Lemma X20_last_credential_of_a_name_witness :
  ∃ sessionUrl before accountConfig after,
    Example.env !! "JMAP_SESSION_URL" = Some sessionUrl
    ∧ parseAccounts Example.env = Ok (before ++ accountConfig :: after)
    ∧ AccountConfig.name accountConfig = "bob"
    ∧ Forall (fun later => AccountConfig.name later ≠ "bob") after
    ∧ AccountInfo.jam Example.bob = jamOf sessionUrl accountConfig.
Proof.
  apply (X20_last_credential_of_a_name Example.hostname Example.JSON_parse
           Example.JSON_stringify Example.isUrl Example.invalidUrl
           Example.getPrimaryAccount Example.getSession Example.env
           Example.offline Sample.server "bob" Example.bob).
  - vm_compute. reflexivity.
  - reflexivity.
Defined.

Lemma X21_account_id_is_the_primary_account_witness :
  (∃ sessionUrl before accountConfig after,
     Example.env !! "JMAP_SESSION_URL" = Some sessionUrl
     ∧ parseAccounts Example.env = Ok (before ++ accountConfig :: after)
     ∧ AccountConfig.name accountConfig = "bob"
     ∧ Forall (fun later => AccountConfig.name later ≠ "bob") after
     ∧ AccountConfig.accountId accountConfig = None
     ∧ AccountInfo.jam Online.bob = jamOf sessionUrl accountConfig
     ∧ Online.getPrimaryAccount (AccountInfo.jam Online.bob)
         (fetchAfter Example.hostname Example.JSON_parse
            Example.JSON_stringify sessionUrl Online.readOnlyServer
            (before ++ [accountConfig]))
       = Ok (AccountInfo.accountId Online.bob))
  ∧ ∀ accounts,
      parseAccounts Example.env = Ok accounts →
      Forall (fun account => AccountConfig.accountId account = None) accounts.
Proof.
  apply (X21_account_id_is_the_primary_account Example.hostname
           Example.JSON_parse Example.JSON_stringify Example.isUrl
           Example.invalidUrl Online.getPrimaryAccount Online.getSession
           Example.env Online.readOnlyServer Online.server "bob" Online.bob).
  - vm_compute. reflexivity.
  - reflexivity.
Defined.
